(** * dftio: the atomic-graph record operations and the parser contract

    A shallow embedding of
      - [dftio/data/AtomicDataDict.py]: [validate_keys],
        [with_edge_vectors], [with_env_vectors], [with_onsitenv_vectors],
        [with_batch];
      - [dftio/io/parse.py]: [find_target_line], [ParserRegister],
        [Parser.check_structure], [Parser.check_eigenvalue], [Parser.write],
        [Parser.write_lmdb];
      - [dftio/io/vasp/vasp_parser.py]: [VASPParser.get_eigenvalue],
        [VASPParser.get_blocks].

    Conventions of the embedding.
      - A numpy array is a dtype tag, a shape and a flat row-major buffer.
        Scalars are exact rationals, integers among them: rounding of
        float32/float64 and wrap-around of int32/int64 are outside the
        model, so statements about values are statements about the
        arithmetic the code asks numpy to perform.
      - A Python exception is a value of [exn]; code that may raise returns
        a [result].
      - A record ([Dict[str, np.ndarray]]) is a [gmap string ndarray].  The
        Python functions receive a reference to such a dictionary, update
        it in place and return the reference: function bodies are written
        in a state-and-exception monad over the dictionary, and [py_call]
        runs a body on an object of a heap. *)

From Stdlib Require Import QArith Qabs Qround ZArith Lia.
From Stdlib.Strings Require Import Byte Ascii.
From stdpp Require Import gmap strings pretty list fin_maps.

Local Open Scope Z_scope.
Local Open Scope nat_scope.

(** ** Python exceptions and results *)

Inductive exn :=
  | KeyError (key : string)
  | MissingFieldError (key : string)
  | IndexError
  | ValueError
  | AxisError
  | ZeroDivisionError
  | OverflowError
  | TypeError (msg : string)
  | AssertionError (msg : string)
  | NotImplementedError (msg : string)
  | Exception (msg : string).

Inductive result (A : Type) :=
  | Ok (a : A)
  | Raise (e : exn).
Arguments Ok {A} a.
Arguments Raise {A} e.

#[global] Instance result_ret : MRet result := fun A a => Ok a.

#[global] Instance result_bind : MBind result := fun A B k r =>
  match r with
  | Ok a => k a
  | Raise e => Raise e
  end.

Fixpoint rmap {A B} (f : A → result B) (l : list A) : result (list B) :=
  match l with
  | [] => Ok []
  | a :: l' => b ← f a; bs ← rmap f l'; Ok (b :: bs)
  end.

(** Code with effects on a state [S] that may raise: the state reached
    when an exception is raised is kept. *)
Definition state_exn (S A : Type) : Type := S → S * result A.

#[global] Instance state_exn_ret {S} : MRet (state_exn S) := fun A a s => (s, Ok a).

#[global] Instance state_exn_bind {S} : MBind (state_exn S) := fun A B k m s =>
  match m s with
  | (s', Ok a) => k a s'
  | (s', Raise e) => (s', Raise e)
  end.

(** A call without effect on the state. *)
Definition lift {S A} (r : result A) : state_exn S A := fun s => (s, r).

(** ** numpy arrays *)

Module np.

Inductive dtype := int32 | int64 | float32 | float64 | bool8.

#[global] Instance dtype_eq_dec : EqDecision dtype.
Proof. solve_decision. Defined.

Record ndarray := NdArray {
  dtype_of : dtype;
  shape : list nat;
  data : list Q
}.

Definition is_integer (t : dtype) : bool :=
  match t with
  | int32 | int64 => true
  | _ => false
  end.

(** numpy's [result_type] on the five dtypes of the model. *)
Definition result_type (a b : dtype) : dtype :=
  match a, b with
  | bool8, t | t, bool8 => t
  | float64, _ | _, float64 => float64
  | float32, float32 => float32
  | float32, _ | _, float32 => float64
  | int64, _ | _, int64 => int64
  | int32, int32 => int32
  end.

(** The dtype of a norm: floating, at least float32. *)
Definition float_type (a : dtype) : dtype :=
  match a with
  | float32 => float32
  | _ => float64
  end.

Definition Qsum (l : list Q) : Q := foldr Qplus 0%Q l.

Definition getq (l : list Q) (k : nat) : Q := nth k l 0%Q.

Definition prod_shape (s : list nat) : nat := foldr Nat.mul 1 s.

(** [a.size] *)
Definition size (a : ndarray) : nat := length (data a).

(** [len(a)]: the extent of the first axis. *)
Definition len (a : ndarray) : result nat :=
  match shape a with
  | [] => Raise (TypeError "len() of unsized object")
  | n :: _ => Ok n
  end.

(** An index into an axis of extent [n]: negative indices count from the
    end, anything outside [-n, n) is an [IndexError]. *)
Definition norm_index (n : nat) (i : Z) : result nat :=
  if ((0 <=? i) && (i <? Z.of_nat n))%Z then Ok (Z.to_nat i)
  else if ((- Z.of_nat n <=? i) && (i <? 0))%Z then Ok (Z.to_nat (i + Z.of_nat n))
  else Raise IndexError.

(** The [i]-th block of [k] consecutive scalars. *)
Definition block (k : nat) (l : list Q) (i : nat) : list Q :=
  take k (drop (i * k) l).

Definition row (a : ndarray) (i : nat) : list Q :=
  block (prod_shape (tail (shape a))) (data a) i.

(** [a[i]] for a Python integer [i]. *)
Definition getitem_int (a : ndarray) (i : Z) : result ndarray :=
  match shape a with
  | [] => Raise IndexError
  | n :: rest =>
      i' ← norm_index n i;
      Ok (NdArray (dtype_of a) rest (row a i'))
  end.

(** [a[idx]] for an integer array [idx]: gathers sub-arrays along the
    first axis.  (Boolean masks do not occur as indices in the modelled
    code; an index array of any non-integer dtype is an [IndexError].) *)
Definition getitem_array (a idx : ndarray) : result ndarray :=
  if is_integer (dtype_of idx) then
    match shape a with
    | [] => Raise IndexError
    | n :: rest =>
        rows ← rmap (fun q => i ← norm_index n (Qfloor q); Ok (row a i))
                        (data idx);
        Ok (NdArray (dtype_of a) (shape idx ++ rest) (concat rows))
    end
  else Raise IndexError.

(** Element-wise binary operation on operands of one shape.  numpy would
    also broadcast operands of different but compatible shapes; the model
    covers the equal-shape case and raises [ValueError] otherwise. *)
Definition elementwise (f : Q → Q → Q) (a b : ndarray) : result ndarray :=
  if decide (shape a = shape b) then
    Ok (NdArray (result_type (dtype_of a) (dtype_of b)) (shape a)
                (zip_with f (data a) (data b)))
  else Raise ValueError.

(** [a - b]; numpy refuses to subtract booleans. *)
Definition subtract (a b : ndarray) : result ndarray :=
  if bool_decide (dtype_of a = bool8 ∧ dtype_of b = bool8) then
    Raise (TypeError "numpy boolean subtract, the `-` operator, is not supported")
  else elementwise Qminus a b.

(** [a + b] *)
Definition add := elementwise Qplus.

(** [np.sum(np.abs(a))] *)
Definition sum_abs (a : ndarray) : Q := Qsum (map Qabs (data a)).

(** [x > y] on scalars *)
Definition Qgtb (x y : Q) : bool := negb (Qle_bool x y).

(** [a.reshape(-1, 3, 3)] *)
Definition reshape_m1_3_3 (a : ndarray) : result ndarray :=
  if decide (size a `mod` 9 = 0) then
    Ok (NdArray (dtype_of a) [size a `div` 9; 3; 3] (data a))
  else Raise ValueError.

(** [a.squeeze(0)] *)
Definition squeeze0 (a : ndarray) : result ndarray :=
  match shape a with
  | 1 :: rest => Ok (NdArray (dtype_of a) rest (data a))
  | _ => Raise ValueError
  end.

(** [np.einsum("ni,nij->nj", a, b)]:
    [out[n,j] = sum_i a[n,i] * b[n,i,j]]. *)
Definition einsum_ni_nij_nj (a b : ndarray) : result ndarray :=
  match shape a, shape b with
  | [n; i], [n'; i'; j] =>
      if decide (n = n' ∧ i = i') then
        Ok (NdArray (result_type (dtype_of a) (dtype_of b)) [n; j]
              (flat_map (fun en =>
                 map (fun ej =>
                   Qsum (map (fun ei =>
                     (getq (data a) (en * i + ei)
                      * getq (data b) ((en * i + ei) * j + ej))%Q)
                     (seq 0 i)))
                   (seq 0 j))
                 (seq 0 n)))
      else Raise ValueError
  | _, _ => Raise ValueError
  end.

(** [np.einsum("ni,ij->nj", a, b)]:
    [out[n,j] = sum_i a[n,i] * b[i,j]]. *)
Definition einsum_ni_ij_nj (a b : ndarray) : result ndarray :=
  match shape a, shape b with
  | [n; i], [i'; j] =>
      if decide (i = i') then
        Ok (NdArray (result_type (dtype_of a) (dtype_of b)) [n; j]
              (flat_map (fun en =>
                 map (fun ej =>
                   Qsum (map (fun ei =>
                     (getq (data a) (en * i + ei)
                      * getq (data b) (ei * j + ej))%Q)
                     (seq 0 i)))
                   (seq 0 j))
                 (seq 0 n)))
      else Raise ValueError
  | _, _ => Raise ValueError
  end.

(** The keyword under which the axis is handed to [np.linalg.norm]. *)
Inductive norm_keyword := kw_axis | kw_dim.

Section Norm.
(** The rationals are not closed under square roots: the scalar square
    root is a parameter of the development. *)
Context (sqrt : Q → Q).

(** The Euclidean norm of one vector. *)
Definition norm2 (v : list Q) : Q := sqrt (Qsum (map (fun x => (x * x)%Q) v)).

(** [np.linalg.norm(a, axis=-1)]: the 2-norm along the last axis. *)
Definition linalg_norm_last (a : ndarray) : result ndarray :=
  match reverse (shape a) with
  | [] => Raise AxisError
  | k :: outer =>
      Ok (NdArray (float_type (dtype_of a)) (reverse outer)
            (map (fun i => norm2 (block k (data a) i))
                 (seq 0 (prod_shape outer))))
  end.

(** [np.linalg.norm(a, <kw>=-1)].  The signature is
    [norm(x, ord=None, axis=None, keepdims=False)]: any other keyword
    is a [TypeError] of the call. *)
Definition linalg_norm (kw : norm_keyword) (a : ndarray) : result ndarray :=
  match kw with
  | kw_axis => linalg_norm_last a
  | kw_dim => Raise (TypeError "norm() got an unexpected keyword argument 'dim'")
  end.
End Norm.

(** [np.zeros(n, dtype=t)] *)
Definition zeros (n : nat) (t : dtype) : ndarray :=
  NdArray t [n] (replicate n 0%Q).

(** [np.arange(start, stop, step, dtype=t)] on Python integers: the
    length is [ceil((stop - start) / step)], the division raising
    [ZeroDivisionError] for a zero step. *)
Definition arange (start stop step : Z) (t : dtype) : result ndarray :=
  if decide (step = 0%Z) then Raise ZeroDivisionError
  else
    let n := Z.to_nat (- ((start - stop) / step))%Z in
    Ok (NdArray t [n]
          (map (fun i => inject_Z (start + Z.of_nat i * step)) (seq 0 n))).

(** The position an in-range Python index denotes on an axis. *)
Definition axis_index (n : nat) (q : Q) : nat :=
  match norm_index n (Qfloor q) with
  | Ok i => i
  | Raise _ => 0
  end.

Definition in_axis (n : nat) (q : Q) : Prop :=
  (- Z.of_nat n <= Qfloor q < Z.of_nat n)%Z.

(** A buffer given block by block: [k] scalars for each of [n] items. *)
Definition per_item (n k : nat) (f : nat → nat → Q) : list Q :=
  flat_map (fun e => map (f e) (seq 0 k)) (seq 0 n).

End np.

(** ** The key registry *)

(** The concepts named by [dftio/data/_keys.py]. *)
Inductive field :=
  | POSITIONS | CELL | PBC | ATOMIC_NUMBERS
  | BATCH | BATCH_PTR
  | EDGE_INDEX | EDGE_CELL_SHIFT | EDGE_VECTORS | EDGE_LENGTH
  | ENV_INDEX | ENV_CELL_SHIFT | ENV_VECTORS | ENV_LENGTH
  | ONSITENV_INDEX | ONSITENV_CELL_SHIFT | ONSITENV_VECTORS | ONSITENV_LENGTH
  | ENERGY_EIGENVALUE | KPOINT.

(** Modelled from the spec: the module [dftio/data/_keys.py], whose string
    constants the code imports, is not under src/.  The spec describes it as
    a fixed vocabulary in which every concept has exactly one name and no
    name is shared: the names are a parameter, an injective map from
    concepts to strings. *)
Class KeyRegistry := {
  key : field → string;
  key_inj : Inj (=) (=) key
}.
#[global] Existing Instance key_inj.

Abbreviation POSITIONS_KEY := (key POSITIONS).
Abbreviation CELL_KEY := (key CELL).
Abbreviation PBC_KEY := (key PBC).
Abbreviation ATOMIC_NUMBERS_KEY := (key ATOMIC_NUMBERS).
Abbreviation BATCH_KEY := (key BATCH).
Abbreviation BATCH_PTR_KEY := (key BATCH_PTR).
Abbreviation EDGE_INDEX_KEY := (key EDGE_INDEX).
Abbreviation EDGE_CELL_SHIFT_KEY := (key EDGE_CELL_SHIFT).
Abbreviation EDGE_VECTORS_KEY := (key EDGE_VECTORS).
Abbreviation EDGE_LENGTH_KEY := (key EDGE_LENGTH).
Abbreviation ENV_INDEX_KEY := (key ENV_INDEX).
Abbreviation ENV_CELL_SHIFT_KEY := (key ENV_CELL_SHIFT).
Abbreviation ENV_VECTORS_KEY := (key ENV_VECTORS).
Abbreviation ENV_LENGTH_KEY := (key ENV_LENGTH).
Abbreviation ONSITENV_INDEX_KEY := (key ONSITENV_INDEX).
Abbreviation ONSITENV_CELL_SHIFT_KEY := (key ONSITENV_CELL_SHIFT).
Abbreviation ONSITENV_VECTORS_KEY := (key ONSITENV_VECTORS).
Abbreviation ONSITENV_LENGTH_KEY := (key ONSITENV_LENGTH).
Abbreviation ENERGY_EIGENVALUE_KEY := (key ENERGY_EIGENVALUE).
Abbreviation KPOINT_KEY := (key KPOINT).

(** A vocabulary to run the definitions on: the names of the nequip
    family of atomic-data dictionaries. *)
Definition default_key (f : field) : string :=
  match f with
  | POSITIONS => "pos" | CELL => "cell" | PBC => "pbc"
  | ATOMIC_NUMBERS => "atomic_numbers"
  | BATCH => "batch" | BATCH_PTR => "ptr"
  | EDGE_INDEX => "edge_index" | EDGE_CELL_SHIFT => "edge_cell_shift"
  | EDGE_VECTORS => "edge_vectors" | EDGE_LENGTH => "edge_lengths"
  | ENV_INDEX => "env_index" | ENV_CELL_SHIFT => "env_cell_shift"
  | ENV_VECTORS => "env_vectors" | ENV_LENGTH => "env_lengths"
  | ONSITENV_INDEX => "onsitenv_index"
  | ONSITENV_CELL_SHIFT => "onsitenv_cell_shift"
  | ONSITENV_VECTORS => "onsitenv_vectors" | ONSITENV_LENGTH => "onsitenv_lengths"
  | ENERGY_EIGENVALUE => "eigenvalue" | KPOINT => "kpoint"
  end.

Definition default_keys : KeyRegistry.
Proof.
  refine {| key := default_key |}.
  intros [] [] E; first [reflexivity | discriminate E].
Defined.

(** ** Dictionaries updated in place *)

Module Dict.
Import np.

(** A computation on the dictionary a Python function received: it may
    update the dictionary and either returns or raises; the updates made
    before an exception stay. *)
Abbreviation M := (state_exn (gmap string ndarray)).

(** [k in data] *)
Definition contains (k : string) : M bool :=
  fun d => (d, Ok (bool_decide (is_Some (d !! k)))).

(** [data[k]] *)
Definition getitem (k : string) : M ndarray :=
  fun d => (d, match d !! k with
               | Some a => Ok a
               | None => Raise (KeyError k)
               end).

(** [data[k] = v] *)
Definition setitem (k : string) (v : ndarray) : M unit :=
  fun d => (<[k := v]> d, Ok tt).

(** Objects live in a heap; a Python variable holds a reference. *)
Definition loc := nat.

(** Calling [def f(data): ...; return data] with the reference [data]:
    the body runs on the referenced dictionary, its updates are those of
    the one shared object, and the reference itself comes back.  ([None]:
    the reference is not allocated, which no Python state has.) *)
Definition py_call (body : M unit) (h : gmap loc (gmap string ndarray))
    (data : loc) : option (gmap loc (gmap string ndarray) * result loc) :=
  match h !! data with
  | Some d =>
      let '(d', r) := body d in
      Some (<[data := d']> h, _ ← r; Ok data)
  | None => None
  end.
End Dict.

(** ** [dftio/data/AtomicDataDict.py] *)

Module AtomicDataDict.
Import np Dict.

(** The threshold [1e-10] of the cell test. *)
Definition cell_eps : Q := 1 # 10000000000.

(** The three relations: which fields the function reads and writes, and
    the keyword its last statement passes to [np.linalg.norm]. *)
Record relation := Relation {
  index_key : string;
  cell_shift_key : string;
  vectors_key : string;
  length_key : string;
  build_norm_kw : norm_keyword
}.

(** [pos[index[1]] - pos[index[0]]] *)
Definition pair_difference (pos index : ndarray) : result ndarray :=
  tgt ← getitem_int index 1;
  pos_tgt ← getitem_array pos tgt;
  src ← getitem_int index 0;
  pos_src ← getitem_array pos src;
  subtract pos_tgt pos_src.

(** [vec + np.einsum("ni,nij->nj", cell_shift, cell[batch[index[0]]])] *)
Definition add_batched_correction (vec cell_shift cell batch index : ndarray)
    : result ndarray :=
  src ← getitem_int index 0;
  batch_src ← getitem_array batch src;
  cells ← getitem_array cell batch_src;
  corr ← einsum_ni_nij_nj cell_shift cells;
  add vec corr.

(** [vec + np.einsum("ni,ij->nj", cell_shift, cell.squeeze(0))] *)
Definition add_single_correction (vec cell_shift cell : ndarray)
    : result ndarray :=
  cell0 ← squeeze0 cell;
  corr ← einsum_ni_ij_nj cell_shift cell0;
  add vec corr.

Section Ops.
Context `{KeyRegistry} (sqrt : Q → Q).

Definition edge : relation :=
  Relation EDGE_INDEX_KEY EDGE_CELL_SHIFT_KEY EDGE_VECTORS_KEY
           EDGE_LENGTH_KEY kw_axis.
Definition env : relation :=
  Relation ENV_INDEX_KEY ENV_CELL_SHIFT_KEY ENV_VECTORS_KEY
           ENV_LENGTH_KEY kw_dim.
Definition onsitenv : relation :=
  Relation ONSITENV_INDEX_KEY ONSITENV_CELL_SHIFT_KEY ONSITENV_VECTORS_KEY
           ONSITENV_LENGTH_KEY kw_dim.

(** [CELL_KEY in data and np.sum(np.abs(data[CELL_KEY])) > 1e-10] *)
Definition cell_test : M bool :=
  has_cell ← contains CELL_KEY;
  if (has_cell : bool) then
    c ← getitem CELL_KEY;
    mret (Qgtb (sum_abs c) cell_eps)
  else mret false.

(** The value of that test on a dictionary. *)
Definition cell_test_value (d : gmap string ndarray) : bool :=
  match d !! CELL_KEY with
  | Some c => Qgtb (sum_abs c) cell_eps
  | None => false
  end.

(** The body of the [if] that adds the periodic correction to [vec]. *)
Definition periodic_correction (r : relation) (index vec : ndarray)
    : M ndarray :=
  c ← getitem CELL_KEY;
  cell ← lift (reshape_m1_3_3 c);
  cell_shift ← getitem (cell_shift_key r);
  if bool_decide (1 < nth 0 (shape cell) 0) then
    batch ← getitem BATCH_KEY;
    lift (add_batched_correction vec cell_shift cell batch index)
  else
    lift (add_single_correction vec cell_shift cell).

(** The last statements of the branch that builds the vectors: store
    them, and their lengths if requested. *)
Definition store_vectors (r : relation) (with_lengths : bool) (vec : ndarray)
    : M unit :=
  setitem (vectors_key r) vec;;
  if with_lengths then
    length ← lift (linalg_norm sqrt (build_norm_kw r) vec);
    setitem (length_key r) length
  else mret tt.

(** The text shared by [with_edge_vectors], [with_env_vectors] and
    [with_onsitenv_vectors]; the functions differ in the keys and in
    the keyword of the last norm. *)
Definition with_vectors (r : relation) (with_lengths : bool) : M unit :=
  has_vectors ← contains (vectors_key r);
  if (has_vectors : bool) then
    has_length ← contains (length_key r);
    if with_lengths && negb has_length then
      vec ← getitem (vectors_key r);
      length ← lift (linalg_norm sqrt kw_axis vec);
      setitem (length_key r) length
    else mret tt
  else
    pos ← getitem POSITIONS_KEY;
    index ← getitem (index_key r);
    vec ← lift (pair_difference pos index);
    periodic ← cell_test;
    vec ← (if (periodic : bool) then periodic_correction r index vec
           else mret vec);
    store_vectors r with_lengths vec.

(** The fields the text of relation [r] names apart from the cell shift
    and the batch index. *)
Definition other_fields (r : relation) : list string :=
  [vectors_key r; length_key r; POSITIONS_KEY; index_key r; CELL_KEY].

Definition with_edge_vectors := with_vectors edge.
Definition with_env_vectors := with_vectors env.
Definition with_onsitenv_vectors := with_vectors onsitenv.

Definition with_batch : M unit :=
  has_batch ← contains BATCH_KEY;
  if (has_batch : bool) then mret tt
  else
    pos ← getitem POSITIONS_KEY;
    n ← lift (len pos);
    setitem BATCH_KEY (zeros n int64);;
    ptr ← lift (arange 0 (Z.of_nat n + 1) (Z.of_nat n) int64);
    setitem BATCH_PTR_KEY ptr.
End Ops.
End AtomicDataDict.

(** ** The per-pair reference of the displacement vectors *)

(** The quantities of the spec, pair by pair and component by component,
    on the arrays of a graph record: positions [(n_atom, 3)], pair index
    [(2, n_edge)], cell shift [(n_edge, 3)], batch index [(n_atom,)] and
    cells [(n_cell, 3, 3)]. *)
Module Reference.
Import np.

Section PerPair.
Context (n_atom n_edge : nat) (pos index cell_shift : ndarray).

(** The atoms of pair [e]: row 0 of the index holds the sources, row 1
    the targets. *)
Definition source (e : nat) : nat := axis_index n_atom (getq (data index) e).
Definition target (e : nat) : nat :=
  axis_index n_atom (getq (data index) (n_edge + e)).

(** [positions[target] - positions[source]], component [j]. *)
Definition plain (e j : nat) : Q :=
  (getq (data pos) (target e * 3 + j) - getq (data pos) (source e * 3 + j))%Q.

(** [shift · cell], component [j], for pair [e] and the [b]-th cell of a
    stack of cells: the rows of a cell are the lattice vectors. *)
Definition shift_dot_cell (cells : list Q) (b e j : nat) : Q :=
  Qsum (map (fun i => (getq (data cell_shift) (e * 3 + i)
                       * getq cells ((b * 3 + i) * 3 + j))%Q)
            (seq 0 3)).

(** The cell of the sub-structure the source atom of pair [e] belongs to. *)
Definition batch_of_source (n_cell : nat) (batch : ndarray) (e : nat) : nat :=
  axis_index n_cell (getq (data batch) (source e)).
End PerPair.

(** Positions and a pair index that fit each other. *)
Record pair_graph (n_atom n_edge : nat) (pos index : ndarray) : Prop := {
  pos_numeric : dtype_of pos ≠ bool8;
  pos_shape : shape pos = [n_atom; 3];
  pos_size : length (data pos) = n_atom * 3;
  index_integer : is_integer (dtype_of index) = true;
  index_shape : shape index = [2; n_edge];
  index_size : length (data index) = 2 * n_edge;
  index_range : Forall (in_axis n_atom) (data index)
}.

(** A batch index assigning each atom to one of [n_cell] sub-structures. *)
Record batch_index (n_atom n_cell : nat) (batch : ndarray) : Prop := {
  batch_integer : is_integer (dtype_of batch) = true;
  batch_shape : shape batch = [n_atom];
  batch_size : length (data batch) = n_atom;
  batch_range : Forall (in_axis n_cell) (data batch)
}.

(** Overwriting ([Some]) or removing ([None]) one field of a record. *)
Definition set_field (k : string) (o : option ndarray)
    (d : gmap string ndarray) : gmap string ndarray :=
  match o with
  | Some v => <[k := v]> d
  | None => delete k d
  end.

(** What a call [f(data)] does to the heap when [f] works in place on the
    dictionary it is given: the reference returned is the one received, no
    other object changes, and in the object itself every field outside
    [targets] is what it was. *)
Definition in_place (body : Dict.M unit) (targets : list string) : Prop :=
  ∀ h data h' res,
    Dict.py_call body h data = Some (h', res) →
    (∀ data', res = Ok data' → data' = data)
    ∧ (∀ l, l ≠ data → h' !! l = h !! l)
    ∧ ∃ d d', h !! data = Some d ∧ h' !! data = Some d'
              ∧ ∀ k, k ∉ targets → d' !! k = d !! k.

(** The outcome [res] of a derivation is a success that left, under
    [vectors_key], an [(n_edge, 3)] array whose component [j] for pair [e]
    is [g e j]. *)
Definition stores_per_pair (res : gmap string ndarray * result unit)
    (vectors_key : string) (n_edge : nat) (g : nat → nat → Q) : Prop :=
  ∃ d' vec, res = (d', Ok tt)
    ∧ d' !! vectors_key = Some vec
    ∧ shape vec = [n_edge; 3]
    ∧ ∀ e j, e < n_edge → j < 3 → getq (data vec) (e * 3 + j) = g e j.

(** A square root to run examples with: exact on the squares of
    rationals, rounded down otherwise. *)
Definition sqrt_floor (q : Q) : Q :=
  Z.sqrt (Qnum q * Z.pos (Qden q)) # Qden q.

End Reference.

(** ** Records to run the operations on *)

Module Examples.
Import np Reference.

Definition float_array (s : list nat) (l : list Q) : ndarray :=
  NdArray float32 s l.
Definition int_array (s : list nat) (l : list Z) : ndarray :=
  NdArray int64 s (map inject_Z l).

(** Two atoms, one pair in each direction, one cubic cell of side 10. *)
Definition cubic_pos : ndarray := float_array [2; 3] [0; 0; 0; 3; 4; 0]%Q.
Definition cubic_index : ndarray := int_array [2; 2] [0; 1; 1; 0]%Z.
Definition cubic_cell : ndarray :=
  float_array [1; 3; 3] [10; 0; 0; 0; 10; 0; 0; 0; 10]%Q.
Definition cubic_shift : ndarray := float_array [2; 3] [0; 0; 0; 1; 0; 0]%Q.
Definition cubic : gmap string ndarray :=
  {[ "pos" := cubic_pos; "edge_index" := cubic_index; "cell" := cubic_cell;
     "edge_cell_shift" := cubic_shift ]}.

(** The same graph without a cell. *)
Definition molecule : gmap string ndarray :=
  {[ "pos" := cubic_pos; "edge_index" := cubic_index ]}.

(** The same graph in the cubic cell, without a cell shift. *)
Definition unshifted : gmap string ndarray :=
  {[ "pos" := cubic_pos; "edge_index" := cubic_index; "cell" := cubic_cell ]}.

(** One atom bound to its own periodic image along the first lattice
    vector, in a single cell whose only non-zero entry is [1e-11]. *)
Definition tiny_pos : ndarray := float_array [1; 3] [0; 0; 0]%Q.
Definition tiny_index : ndarray := int_array [2; 1] [0; 0]%Z.
Definition tiny_cell : ndarray :=
  float_array [1; 3; 3] [1 # 100000000000; 0; 0; 0; 0; 0; 0; 0; 0]%Q.
Definition tiny_shift : ndarray := float_array [1; 3] [1; 0; 0]%Q.
Definition tiny : gmap string ndarray :=
  {[ "pos" := tiny_pos; "edge_index" := tiny_index; "cell" := tiny_cell;
     "edge_cell_shift" := tiny_shift ]}.

(** A batch of two one-atom structures with different cells (sides 10 and
    20), each atom bound to its own image along the first lattice vector. *)
Definition pair_pos : ndarray := float_array [2; 3] [0; 0; 0; 1; 1; 1]%Q.
Definition pair_index : ndarray := int_array [2; 2] [0; 1; 0; 1]%Z.
Definition pair_cell : ndarray :=
  float_array [2; 3; 3] [10; 0; 0; 0; 10; 0; 0; 0; 10;
                         20; 0; 0; 0; 20; 0; 0; 0; 20]%Q.
Definition pair_shift : ndarray := float_array [2; 3] [1; 0; 0; 1; 0; 0]%Q.
Definition pair_batch : ndarray := int_array [2] [0; 1]%Z.
Definition batched : gmap string ndarray :=
  {[ "pos" := pair_pos; "edge_index" := pair_index; "cell" := pair_cell;
     "edge_cell_shift" := pair_shift; "batch" := pair_batch ]}.

(** The two-atom graph under the environment relations. *)
Definition env_molecule : gmap string ndarray :=
  {[ "pos" := cubic_pos; "env_index" := cubic_index ]}.
Definition onsitenv_molecule : gmap string ndarray :=
  {[ "pos" := cubic_pos; "onsitenv_index" := cubic_index ]}.

(** Five atoms, and none. *)
Definition five_atoms : gmap string ndarray :=
  {[ "pos" := float_array [5; 3] (replicate 15 0%Q) ]}.
Definition no_atoms : gmap string ndarray :=
  {[ "pos" := float_array [0; 3] [] ]}.

(** The same batch with cells of sides [1e-11] and [2e-11]. *)
Definition tiny_pair_cell : ndarray :=
  float_array [2; 3; 3] [1 # 100000000000; 0; 0; 0; 0; 0; 0; 0; 0;
                         2 # 100000000000; 0; 0; 0; 0; 0; 0; 0; 0]%Q.
Definition tiny_batched : gmap string ndarray :=
  <["cell" := tiny_pair_cell]> batched.

End Examples.

(** ** [dftio/io/parse.py] *)

Module parse.
Import np.

(** *** Python values and the outside world *)

(** [d[k]] on a Python dict. *)
Definition dict_get {A} (d : gmap string A) (k : string) : result A :=
  match d !! k with
  | Some a => Ok a
  | None => Raise (KeyError k)
  end.

(** Modelled from the spec: [j_must_have] of [dftio/utils.py] is not under
    src/.  It yields the field of a record and, in the spec's words, fails
    with a MissingFieldError (a required key absent from a record) naming
    the absent field. *)
Definition j_must_have {A} (jdata : gmap string A) (k : string) : result A :=
  match jdata !! k with
  | Some a => Ok a
  | None => Raise (MissingFieldError k)
  end.

(** [assert cond, msg] *)
Definition assert_ (cond : bool) (msg : string) : result unit :=
  if cond then Ok tt else Raise (AssertionError msg).

(** The values of the per-frame mapping of the key-value store writer. *)
Inductive pyvalue :=
  | PyArray (a : ndarray)
  | PyInt (i : Z)
  | PyDict (d : gmap string ndarray).

(** [pickle.dumps]: the bytes are kept abstract, all that is used of them
    is that [pickle.loads] gives the mapping back. *)
Inductive pickled := Pickled (d : gmap string pyvalue).

Definition pickle_dumps (d : gmap string pyvalue) : pickled := Pickled d.

Definition pickle_loads (p : pickled) : gmap string pyvalue :=
  match p with Pickled d => d end.

#[global] Instance byte_eq_dec : EqDecision byte := Byte.byte_eq_dec.

#[global] Instance byte_countable : Countable byte :=
  inj_countable Byte.to_N Byte.of_N Byte.of_to_N.

(** What a writer can change: directories, files, and the LMDB
    environments with their committed entries. *)
Record world := World {
  directories : gset string;
  files : gmap string string;
  lmdb_envs : gmap string (gmap (list byte) pickled)
}.

(** [os.path.join(a, b)] for two components. *)
Definition path_join (a b : string) : string :=
  if bool_decide (String.get 0 b = Some "/"%char) then b
  else if bool_decide (a = EmptyString) then b
  else if bool_decide (String.get (String.length a - 1) a = Some "/"%char)
  then a +:+ b
  else a +:+ "/" +:+ b.

(** [os.makedirs(path, exist_ok=True)] *)
Definition makedirs (path : string) : state_exn world unit := fun w =>
  (World ({[path]} ∪ directories w) (files w) (lmdb_envs w), Ok tt).

(** [lmdb.open(path, ...)]: opens the environment at [path], creating an
    empty one if there is none; the handle is the path. *)
Definition lmdb_open (path : string) : state_exn world string := fun w =>
  (World ({[path]} ∪ directories w) (files w)
         (match lmdb_envs w !! path with
          | Some _ => lmdb_envs w
          | None => <[path := ∅]> (lmdb_envs w)
          end),
   Ok path).

(** The committed entries of an environment. *)
Definition entries_of (w : world) (env : string) : gmap (list byte) pickled :=
  default ∅ (lmdb_envs w !! env).

(** [lmdb_env.stat()["entries"]] *)
Definition lmdb_stat_entries (env : string) : state_exn world nat := fun w =>
  (w, Ok (base.size (entries_of w env))).

(** [txn.put(key, value)] of a write transaction that commits when its
    [with] block ends (an existing key is overwritten). *)
Definition txn_put (env : string) (k : list byte) (v : pickled)
    : state_exn world unit := fun w =>
  (World (directories w) (files w)
         (<[env := <[k := v]> (entries_of w env)]> (lmdb_envs w)),
   Ok tt).

(** One byte of a number. *)
Definition byte_at (n : N) (shift : N) : byte :=
  default x00 (Byte.of_N (N.land (N.shiftr n shift) 255)).

(** The four bytes of a key. *)
Definition key_bytes (n : nat) : list byte :=
  [byte_at (N.of_nat n) 24; byte_at (N.of_nat n) 16;
   byte_at (N.of_nat n) 8; byte_at (N.of_nat n) 0].

(** [n.to_bytes(length=4, byteorder='big')] *)
Definition to_bytes4_big (n : nat) : result (list byte) :=
  if decide (N.of_nat n < 2 ^ 32)%N then
    Ok (key_bytes n)
  else Raise OverflowError.

(** [int.from_bytes(b, byteorder='big')] *)
Definition from_bytes_big (b : list byte) : N :=
  foldl (fun acc x => (acc * 256 + Byte.to_N x)%N) 0%N b.

(** [for x in l: body] *)
Fixpoint for_each {S A} (l : list A) (body : A → state_exn S unit)
    : state_exn S unit :=
  match l with
  | [] => mret tt
  | a :: l' => body a;; for_each l' body
  end.

(** A store filled by [n] appends into an empty one: [n] entries, the
    [i]-th value under the 4-byte big-endian encoding of [i]. *)
Definition sequential_store (store : gmap (list byte) pickled) (n : nat)
    (value : nat → pickled) : Prop :=
  base.size store = n
  ∧ (∀ i, i < n → store !! key_bytes i = Some (value i))
  ∧ (∀ k, is_Some (store !! k) → ∃ i, i < n ∧ k = key_bytes i).

(** *** The backend contract *)

(** A block record: one mapping per frame, or [None]. *)
Abbreviation blocks := (option (list (gmap string ndarray))).

(** The abstract methods of [Parser]. *)
Class Parser := {
  get_structure : Z → result (gmap string ndarray);
  get_eigenvalue : Z → Z → result (gmap string ndarray);
  get_blocks : Z → bool → bool → bool → result (blocks * blocks * blocks)
}.

(** [b[nf]] on a block record. *)
Definition blocks_get (b : blocks) (nf : nat) : result (gmap string ndarray) :=
  match b with
  | None => Raise (TypeError "'NoneType' object is not subscriptable")
  | Some l =>
      match l !! nf with
      | Some d => Ok d
      | None => Raise IndexError
      end
  end.

Section ParserMethods.
Context `{KeyRegistry} `{Parser}.

Definition check_structure (idx : Z) (structure : option (gmap string ndarray))
    : result bool :=
  structure ← match structure with
              | None => get_structure idx
              | Some s => Ok s
              end;
  atomic_number ← j_must_have structure ATOMIC_NUMBERS_KEY;
  pos ← j_must_have structure POSITIONS_KEY;
  cell ← j_must_have structure CELL_KEY;
  pbc ← j_must_have structure PBC_KEY;
  (* check the shape *)
  assert_ (bool_decide (length (shape pos) = 3) && bool_decide (nth 2 (shape pos) 0 = 3))
          "The shape of structure should be (n_frame, natom, 3)";;
  let n_frame := nth 0 (shape pos) 0 in
  let natom := nth 1 (shape pos) 0 in
  assert_ (bool_decide (length (shape cell) = 3)
           && bool_decide (nth 0 (shape cell) 0 = n_frame)
           && bool_decide (nth 1 (shape cell) 0 = 3)
           && bool_decide (nth 2 (shape cell) 0 = 3))
          "The shape of cell should be (n_frame, 3, 3)";;
  assert_ (bool_decide (length (shape atomic_number) = 1)
           && bool_decide (nth 0 (shape atomic_number) 0 = natom))
          "The shape of atomic_number should be (natom,)";;
  assert_ (bool_decide (length (shape pbc) = 1)
           && bool_decide (nth 0 (shape pbc) 0 = 3))
          "The shape of pbc should be (3)";;
  (* check dtype; [np.bool8] is numpy's boolean dtype *)
  assert_ (bool_decide (dtype_of atomic_number = int32))
          "The dtype of atomic_number should be int";;
  assert_ (bool_decide (dtype_of cell = float32))
          "The dtype of cell should be float";;
  assert_ (bool_decide (dtype_of pos = float32))
          "The dtype of pos should be float";;
  assert_ (bool_decide (dtype_of pbc = bool8))
          "The dtype of pbc should be bool";;
  Ok true.

(** The invariants of a structure record in the words of the spec. *)
Definition valid_structure (s : gmap string ndarray) : Prop :=
  ∃ atomic_number pos cell pbc n_frame natom,
    s !! ATOMIC_NUMBERS_KEY = Some atomic_number
    ∧ s !! POSITIONS_KEY = Some pos
    ∧ s !! CELL_KEY = Some cell
    ∧ s !! PBC_KEY = Some pbc
    ∧ shape pos = [n_frame; natom; 3]
    ∧ shape cell = [n_frame; 3; 3]
    ∧ shape atomic_number = [natom]
    ∧ shape pbc = [3]
    ∧ dtype_of atomic_number = int32
    ∧ dtype_of pos = float32
    ∧ dtype_of cell = float32
    ∧ dtype_of pbc = bool8.

(** The mapping [write_lmdb] builds for frame [nf]. *)
Definition frame_dict (structure : gmap string ndarray)
    (eigstatus : gmap string ndarray) (ham ovp dm : blocks)
    (eigenvalue hamiltonian overlap density_matrix : bool)
    (idx : Z) (nf : nat) : result (gmap string pyvalue) :=
  let data_dict : gmap string pyvalue := ∅ in
  atomic_numbers ← dict_get structure ATOMIC_NUMBERS_KEY;
  let data_dict := <[ATOMIC_NUMBERS_KEY := PyArray atomic_numbers]> data_dict in
  cell ← dict_get structure CELL_KEY;
  cell_nf ← getitem_int cell (Z.of_nat nf);
  let data_dict := <[CELL_KEY := PyArray cell_nf]> data_dict in
  pos ← dict_get structure POSITIONS_KEY;
  pos_nf ← getitem_int pos (Z.of_nat nf);
  let data_dict := <[POSITIONS_KEY := PyArray pos_nf]> data_dict in
  pbc ← dict_get structure PBC_KEY;
  let data_dict := <[PBC_KEY := PyArray pbc]> data_dict in
  data_dict ← (if eigenvalue then
                 eigs ← dict_get eigstatus ENERGY_EIGENVALUE_KEY;
                 eigs_nf ← getitem_int eigs (Z.of_nat nf);
                 kpt ← dict_get eigstatus KPOINT_KEY;
                 Ok (<[KPOINT_KEY := PyArray kpt]>
                       (<[ENERGY_EIGENVALUE_KEY := PyArray eigs_nf]> data_dict))
               else Ok data_dict);
  data_dict ← (if hamiltonian then
                 b ← blocks_get ham nf; Ok (<["hamiltonian" := PyDict b]> data_dict)
               else Ok data_dict);
  data_dict ← (if overlap then
                 b ← blocks_get ovp nf; Ok (<["overlap" := PyDict b]> data_dict)
               else Ok data_dict);
  data_dict ← (if density_matrix then
                 b ← blocks_get dm nf; Ok (<["density_matrix" := PyDict b]> data_dict)
               else Ok data_dict);
  let data_dict := <["idx" := PyInt idx]> data_dict in
  let data_dict := <["nf" := PyInt (Z.of_nat nf)]> data_dict in
  Ok data_dict.

(** The body of [with lmdb_env.begin(write=True) as txn]. *)
Definition lmdb_append (lmdb_env : string) (data_dict : pickled)
    : state_exn world unit :=
  entries ← lmdb_stat_entries lmdb_env;
  k ← lift (to_bytes4_big entries);
  txn_put lmdb_env k data_dict.

Section Writers.
(** [os.getpid()] *)
Context (pid : nat).
(** [Parser.write_dat] writes text, trajectory and HDF5 files through
    [np.savetxt], [ase] and [h5py]; the development does not look into it
    and takes its effect as a parameter. *)
Context (write_dat : Z → string → string → bool → bool → bool → bool → Z →
                     state_exn world bool).

Definition write_hdf5 (idx : Z) (outroot : string)
    (eigenvalue hamiltonian overlap density_matrix : bool) (band_index_min : Z)
    : state_exn world unit :=
  mret tt.

Definition write_lmdb (idx : Z) (outroot : string)
    (eigenvalue hamiltonian overlap density_matrix : bool) (band_index_min : Z)
    : state_exn world unit :=
  makedirs outroot;;
  let out_dir := path_join outroot ("data." +:+ pretty pid +:+ ".lmdb") in
  structure ← lift (get_structure idx);
  (* [ham, ovp, dm] are bound only if a block is requested, and read only
     under the same flags *)
  '(ham, ovp, dm) ← (if hamiltonian || overlap || density_matrix
                     then lift (get_blocks idx hamiltonian overlap density_matrix)
                     else mret (None, None, None));
  (* likewise [eigstatus] *)
  eigstatus ← (if eigenvalue then lift (get_eigenvalue idx band_index_min)
               else mret ∅);
  pos ← lift (dict_get structure POSITIONS_KEY);
  n_frames ← lift (match shape pos with
                   | n :: _ => Ok n
                   | [] => Raise IndexError
                   end);
  lmdb_env ← lmdb_open out_dir;
  for_each (seq 0 n_frames) (fun nf =>
    data_dict ← lift (frame_dict structure eigstatus ham ovp dm
                        eigenvalue hamiltonian overlap density_matrix idx nf);
    let data_dict := pickle_dumps data_dict in
    lmdb_append lmdb_env data_dict).

Definition write (idx : Z) (outroot format : string)
    (eigenvalue hamiltonian overlap density_matrix : bool) (band_index_min : Z)
    : state_exn world unit :=
  if bool_decide (format = "hdf5") then
    write_hdf5 idx outroot eigenvalue hamiltonian overlap density_matrix
               band_index_min
  else if bool_decide (format ∈ ["dat"; "ase"]) then
    write_dat idx outroot format eigenvalue hamiltonian overlap density_matrix
              band_index_min;;
    mret tt
  else if bool_decide (format = "lmdb") then
    write_lmdb idx outroot eigenvalue hamiltonian overlap density_matrix
               band_index_min
  else
    lift (Raise (NotImplementedError
                   ("Format: " +:+ format +:+ " is not implemented!"))).
End Writers.
End ParserMethods.

(** *** The registry of backends *)

Section Register.
(** The keyword arguments of a backend constructor, the backend objects,
    and whatever state constructing one can touch. *)
Context {K P W : Type}.

(** Modelled from the spec: the class [Register] of [dftio/register.py] is
    not under src/.  The spec describes it as a name-to-constructor lookup:
    a finite map from names to constructors. *)
Definition Register : Type := gmap string (K → state_exn W P).

(** [_register.keys()] *)
Definition Register_keys (_register : Register) : gset string := dom _register.

(** [_register[mode]] *)
Definition Register_getitem (_register : Register) (mode : string)
    : result (K → state_exn W P) :=
  match _register !! mode with
  | Some constructor => Ok constructor
  | None => Raise (KeyError mode)
  end.

(** [ParserRegister.__new__(cls, mode, **kwargs)] *)
Definition ParserRegister (_register : Register) (mode : string) (kwargs : K)
    : state_exn W P :=
  if bool_decide (mode ∈ Register_keys _register) then
    constructor ← lift (Register_getitem _register mode);
    constructor kwargs
  else
    lift (Raise (Exception ("Descriptor mode: " +:+ mode +:+ " is not registered!"))).
End Register.

End parse.

(** ** A backend to run the writers on *)

Module BackendExamples.
Import np parse Examples.

(** Two frames of one carbon atom in a unit cell. *)
Definition two_frames : gmap string ndarray :=
  {[ "pos" := float_array [2; 1; 3] [0; 0; 0; 1; 2; 3]%Q;
     "cell" := float_array [2; 3; 3] (replicate 18 1%Q);
     "atomic_numbers" := NdArray int32 [1] [6%Q];
     "pbc" := NdArray bool8 [3] [1; 1; 1]%Q ]}.

(** The same record with the frame axis of the positions missing. *)
Definition rank2_positions : gmap string ndarray :=
  <["pos" := float_array [1; 3] [0; 0; 0]%Q]> two_frames.

(** The same record with 64-bit atomic numbers. *)
Definition int64_numbers : gmap string ndarray :=
  <["atomic_numbers" := NdArray int64 [1] [6%Q]]> two_frames.

(** A backend in the manner of the VASP one: structures only. *)
Definition structure_backend : Parser := {|
  get_structure _ := Ok two_frames;
  get_eigenvalue _ _ := Raise (AssertionError "EIGENVAL");
  get_blocks _ _ _ _ :=
    Raise (NotImplementedError "VASP does not support block parsing yet.")
|}.

(** The per-frame mappings of [two_frames] written for source index 7. *)
Definition two_frame_dicts (nf : nat) : gmap string pyvalue :=
  match frame_dict (H:=default_keys) two_frames ∅ None None None
                   false false false false 7 nf with
  | Ok d => d
  | Raise _ => ∅
  end.

(** Nothing on disk yet. *)
Definition empty_world : world := World ∅ ∅ ∅.

(** A [write_dat] that writes nothing. *)
Definition no_write_dat (idx : Z) (outroot fmt : string)
    (eigenvalue hamiltonian overlap density_matrix : bool) (band_index_min : Z)
    : state_exn world bool :=
  mret true.

End BackendExamples.

(** ** Comparing arrays up to the representation of rationals *)

Module Comparison.
Import np.

(** Two arrays of one dtype and shape whose scalars are equal as rational
    numbers. *)
Definition same_values (a b : ndarray) : Prop :=
  dtype_of a = dtype_of b ∧ shape a = shape b
  ∧ Forall2 Qeq (data a) (data b).
End Comparison.

(** ** Key validation *)

Module AtomicDataDict_keys.
Section Ops.
Context `{KeyRegistry}.

(** [validate_keys(keys, graph_required)]; the last test names the cell
    by the literal ["cell"], not by [_keys.CELL_KEY]. *)
Definition validate_keys (keys : gset string) (graph_required : bool)
    : result unit :=
  (if graph_required then
     if negb (bool_decide (POSITIONS_KEY ∈ keys)
              && bool_decide (EDGE_INDEX_KEY ∈ keys))
     then Raise (KeyError "At least pos and edge_index must be supplied")
     else Ok tt
   else Ok tt);;
  if bool_decide (EDGE_CELL_SHIFT_KEY ∈ keys)
     && negb (bool_decide ("cell" ∈ keys))
  then Raise ValueError
  else Ok tt.
End Ops.
End AtomicDataDict_keys.

(** ** More of [dftio/io/parse.py] *)

Module parse_text.

(** A text stream open for reading: the lines not read yet.
    [f.readline()] yields the next one, or the empty string at the end. *)
Definition readline : state_exn (list string) string := fun f =>
  match f with
  | [] => (f, Ok EmptyString)
  | line :: rest => (rest, Ok line)
  end.

(** [target in line] on strings *)
Definition str_in (target line : string) : bool :=
  bool_decide (is_Some (String.index 0 target line)).

(** [find_target_line(f, target)]: each turn of the loop reads one line, so
    the loop is written by recursion on the lines left; [while line] ends
    it at the first empty string. *)
Fixpoint find_target_line (f : list string) (target : string)
    : list string * result (option string) :=
  match readline f with
  | (f', Ok line) =>
      if bool_decide (line = EmptyString) then (f', Ok None)
      else if str_in target line then (f', Ok (Some line))
      else match f with
           | [] => (f', Ok None)
           | _ :: rest => find_target_line rest target
           end
  | (f', Raise e) => (f', Raise e)
  end.
End parse_text.

Module parse_checks.
Import np parse.
Section ParserMethods.
Context `{KeyRegistry} `{Parser}.
(** [self.get_eigenvalue(idx)], the call without [band_index_min] that
    [check_eigenvalue] makes: what it does depends on the default the
    backend gives that parameter, if any. *)
Context (get_eigenvalue_idx : Z → result (gmap string ndarray)).

Definition check_eigenvalue (idx : Z) (eigstatus : option (gmap string ndarray))
    : result bool :=
  eigstatus ← match eigstatus with
              | None => get_eigenvalue_idx idx
              | Some s => Ok s
              end;
  eigs ← j_must_have eigstatus ENERGY_EIGENVALUE_KEY;
  kpts ← j_must_have eigstatus KPOINT_KEY;
  (* check the shape *)
  assert_ (bool_decide (length (shape eigs) = 3))
          "The shape of eigenvalue should be (n_frame, n_kpt, n_band)";;
  let nk := nth 1 (shape eigs) 0 in
  assert_ (bool_decide (length (shape kpts) = 2)
           && bool_decide (nth 0 (shape kpts) 0 = nk)
           && bool_decide (nth 1 (shape kpts) 0 = 3))
          "The shape of kpoint should be (n_kpt, 3)";;
  (* check dtype *)
  assert_ (bool_decide (dtype_of eigs = float32))
          "The dtype of eigenvalue should be float";;
  assert_ (bool_decide (dtype_of kpts = float32))
          "The dtype of kpoint should be float";;
  Ok true.
End ParserMethods.
End parse_checks.


(** ** Stores after a run of appends *)

Module parse_store.
Import parse.

(** The store after the appends of [values], in order: each value goes
    under the 4-byte encoding of the number of entries the store holds at
    that moment. *)
Fixpoint append_all (store : gmap (list byte) pickled) (values : list pickled)
    : gmap (list byte) pickled :=
  match values with
  | [] => store
  | v :: values' =>
      append_all (<[key_bytes (base.size store) := v]> store) values'
  end.
End parse_store.


(** ** [dftio/io/vasp/vasp_parser.py]: the eigenvalues of a calculation *)

Module vasp_parser.
Import np parse.

(** [l[i]] on a Python list. *)
Definition list_getitem {A} (l : list A) (i : Z) : result A :=
  i' ← norm_index (length l) i;
  match l !! i' with
  | Some a => Ok a
  | None => Raise IndexError
  end.

(** Where the slice [start:] begins on an axis of extent [n]. *)
Definition slice_start (n : nat) (start : Z) : nat :=
  if (start <? 0)%Z then Z.to_nat (Z.max (Z.of_nat n + start) 0)
  else Z.to_nat (Z.min start (Z.of_nat n)).

(** [a[:, :, start:]] *)
Definition slice_third_from (a : ndarray) (start : Z) : result ndarray :=
  match shape a with
  | n0 :: n1 :: n2 :: rest =>
      let k := prod_shape rest in
      let s := slice_start n2 start in
      Ok (NdArray (dtype_of a) (n0 :: n1 :: (n2 - s) :: rest)
            (flat_map (fun r => drop (s * k) (block (n2 * k) (data a) r))
                      (seq 0 (n0 * n1))))
  | _ => Raise IndexError
  end.

(** [a.astype(t)]; the rounding to [t] is outside the model. *)
Definition astype (a : ndarray) (t : dtype) : ndarray :=
  NdArray t (shape a) (data a).

Section VASPParser.
Context `{KeyRegistry}.
(** [self.raw_datas], the folders of the calculations. *)
Context (raw_datas : list string).
(** [os.path.exists] *)
Context (path_exists : string → bool).
(** [read_EIGENVAL] parses the text of an EIGENVAL file with regular
    expressions; the development does not look into it and takes what it
    returns, [(k_list, k_bands)], as a parameter. *)
Context (read_EIGENVAL : string → result (ndarray * ndarray)).

Definition get_eigenvalue (idx : Z) (band_index_min : Z)
    : result (gmap string ndarray) :=
  path ← list_getitem raw_datas idx;
  assert_ (path_exists (path_join path "EIGENVAL")) EmptyString;;
  '(kpts, eigs) ← read_EIGENVAL (path_join path "EIGENVAL");
  eigs ← slice_third_from eigs band_index_min;
  Ok (<[KPOINT_KEY := astype kpts float32]>
        (<[ENERGY_EIGENVALUE_KEY := astype eigs float32]> ∅)).

(** [get_blocks] *)
Definition get_blocks (idx : Z) (hamiltonian overlap density_matrix : bool)
    : result (blocks * blocks * blocks) :=
  Raise (NotImplementedError "VASP does not support block parsing yet.").
End VASPParser.
End vasp_parser.


(** ** More records, stores and files to run the code on *)

Module MoreExamples.
Import np parse Examples BackendExamples.

(** One atom, and a pair that names a second one. *)
Definition dangling_index : ndarray := int_array [2; 1] [0; 1]%Z.
Definition dangling : gmap string ndarray :=
  {[ "pos" := tiny_pos; "edge_index" := dangling_index ]}.

(** The batch of two structures with the pair index only. *)
Definition unbatched : gmap string ndarray :=
  {[ "pos" := pair_pos; "edge_index" := pair_index; "cell" := pair_cell;
     "edge_cell_shift" := pair_shift ]}.



(** The positions of the two-atom graph moved by [(1, 1, 1)]. *)
Definition moved_pos : ndarray := float_array [2; 3] [1; 1; 1; 4; 5; 1]%Q.

(** Two bands at one k-point, as a backend returns them and as
    [read_EIGENVAL] does. *)
Definition one_kpoint : gmap string ndarray :=
  {[ "eigenvalue" := float_array [1; 1; 2] [0; 1]%Q;
     "kpoint" := float_array [1; 3] [0; 0; 0]%Q ]}.
Definition raw_kpts : ndarray := NdArray float64 [1; 3] [0; 0; 0]%Q.
Definition raw_bands : ndarray := NdArray float64 [1; 1; 2] [0; 1]%Q.

(** A store that holds one entry, under key 0, and one that holds one
    entry under key 1. *)
Definition one_entry : gmap (list byte) pickled :=
  <[key_bytes 0 := pickle_dumps ∅]> ∅.
Definition one_entry_world : world :=
  World ∅ ∅ {[ "out/data.42.lmdb" := one_entry ]}.
Definition key_one : gmap (list byte) pickled :=
  <[key_bytes 1 := pickle_dumps ∅]> ∅.
Definition key_one_world : world :=
  World ∅ ∅ {[ "out/data.42.lmdb" := key_one ]}.

(** The lines of a small input file. *)
Definition incar : list string := ["SYSTEM = Si"; "NBANDS = 8"; "ISPIN = 1"].
End MoreExamples.

(** ** Running monadic code *)

Module state_exn_facts.
Section Run.
Context {S : Type}.
Implicit Types s : S.

Lemma run_bind {A B} (m : state_exn S A) (f : A → state_exn S B) s :
  (m ≫= f) s = match m s with
               | (s', Ok a) => f a s'
               | (s', Raise e) => (s', Raise e)
               end.
Proof. reflexivity. Qed.

Lemma run_lift_Ok {A B} (a : A) (f : A → state_exn S B) s :
  (lift (Ok a) ≫= f) s = f a s.
Proof. reflexivity. Qed.

Lemma run_lift_Raise {A B} e (f : A → state_exn S B) s :
  (lift (Raise e) ≫= f) s = (s, Raise e).
Proof. reflexivity. Qed.
End Run.
End state_exn_facts.

(** ** Facts about the array operations *)

Module np_facts.
Import np.

Lemma rmap_ok {A B} (f : A → result B) (g : A → B) (l : list A) :
  Forall (fun x => f x = Ok (g x)) l → rmap f l = Ok (map g l).
Proof.
  induction 1 as [|x l Hx _ IH]; simpl; [reflexivity|].
  rewrite Hx. simpl. rewrite IH. reflexivity.
Qed.

Lemma norm_index_in_axis n q :
  in_axis n q → norm_index n (Qfloor q) = Ok (axis_index n q).
Proof.
  unfold in_axis, axis_index, norm_index. intros Hq.
  destruct ((0 <=? Qfloor q) && (Qfloor q <? Z.of_nat n))%Z eqn:E1; [reflexivity|].
  destruct ((- Z.of_nat n <=? Qfloor q) && (Qfloor q <? 0))%Z eqn:E2; [reflexivity|].
  apply andb_false_iff in E1, E2. lia.
Qed.

Lemma axis_index_lt n q : in_axis n q → axis_index n q < n.
Proof.
  unfold in_axis, axis_index, norm_index. intros Hq.
  destruct ((0 <=? Qfloor q) && (Qfloor q <? Z.of_nat n))%Z eqn:E1.
  { apply andb_true_iff in E1. lia. }
  destruct ((- Z.of_nat n <=? Qfloor q) && (Qfloor q <? 0))%Z eqn:E2.
  { apply andb_true_iff in E2. lia. }
  apply andb_false_iff in E1, E2. lia.
Qed.

Lemma getq_lookup (l : list Q) i x : l !! i = Some x → getq l i = x.
Proof. intros Hx. unfold getq. rewrite nth_lookup, Hx. reflexivity. Qed.

Lemma lookup_getq (l : list Q) i : i < length l → l !! i = Some (getq l i).
Proof.
  intros Hi. destruct (lookup_lt_is_Some_2 l i Hi) as [x Hx].
  rewrite Hx. f_equal. symmetry. by apply getq_lookup.
Qed.

Lemma length_block k (l : list Q) i :
  (i + 1) * k ≤ length l → length (block k l i) = k.
Proof. intros Hl. unfold block. rewrite length_take, length_drop. lia. Qed.

Lemma lookup_block k (l : list Q) i j :
  j < k → block k l i !! j = l !! (i * k + j).
Proof.
  intros Hj. unfold block. rewrite lookup_take_lt by done.
  by rewrite lookup_drop.
Qed.

Lemma lookup_concat_uniform {A} k (rows : list (list A)) e j :
  Forall (fun r => length r = k) rows → j < k →
  concat rows !! (e * k + j) = rows !! e ≫= (fun r => r !! j).
Proof.
  intros Hrows Hj. revert e.
  induction Hrows as [|r rows Hr _ IH]; intros e; simpl.
  { by rewrite !lookup_nil. }
  destruct e as [|e]; simpl.
  - rewrite lookup_app_l by lia. done.
  - rewrite lookup_app_r by lia.
    replace (k + e * k + j - length r) with (e * k + j) by lia. apply IH.
Qed.

Lemma length_concat_uniform {A} k (rows : list (list A)) :
  Forall (fun r => length r = k) rows → length (concat rows) = length rows * k.
Proof. induction 1 as [|r rows Hr _ IH]; simpl; [done|]. rewrite length_app. lia. Qed.

Lemma length_per_item n k f : length (per_item n k f) = n * k.
Proof.
  unfold per_item. rewrite flat_map_concat_map.
  rewrite (length_concat_uniform k).
  - by rewrite length_map, length_seq.
  - apply Forall_forall. intros r Hr. apply list_elem_of_In, in_map_iff in Hr.
    destruct Hr as (e & <- & _). by rewrite length_map, length_seq.
Qed.

Lemma lookup_per_item n k f e j :
  e < n → j < k → per_item n k f !! (e * k + j) = Some (f e j).
Proof.
  intros He Hj. unfold per_item. rewrite flat_map_concat_map.
  rewrite (lookup_concat_uniform k); [|
    apply Forall_forall; intros r Hr; apply list_elem_of_In, in_map_iff in Hr;
    destruct Hr as (e' & <- & _); by rewrite length_map, length_seq | done].
  rewrite list_lookup_fmap, lookup_seq_lt by done. simpl.
  rewrite list_lookup_fmap, lookup_seq_lt by done. done.
Qed.

Lemma per_item_ext n k f (l : list Q) :
  length l = n * k →
  (∀ e j, e < n → j < k → l !! (e * k + j) = Some (f e j)) →
  l = per_item n k f.
Proof.
  intros Hlen Hl. apply list_eq. intros i.
  destruct (decide (i < n * k)) as [Hi|Hi].
  - assert (0 < k) by (destruct k; lia).
    assert (i = (i `div` k) * k + i `mod` k) as Ei.
    { rewrite (Nat.div_mod_eq i k) at 1. lia. }
    assert (i `div` k < n) by (apply Nat.Div0.div_lt_upper_bound; lia).
    assert (i `mod` k < k) by (apply Nat.mod_upper_bound; lia).
    rewrite Ei, Hl, lookup_per_item by done. done.
  - rewrite !lookup_ge_None_2; [done| rewrite length_per_item; lia | lia].
Qed.
Lemma getitem_int_nat (a : ndarray) n rest i :
  shape a = n :: rest → i < n →
  getitem_int a (Z.of_nat i) = Ok (NdArray (dtype_of a) rest (row a i)).
Proof.
  intros Hs Hi. unfold getitem_int. rewrite Hs.
  unfold norm_index.
  replace ((0 <=? Z.of_nat i) && (Z.of_nat i <? Z.of_nat n))%Z with true.
  - simpl. by rewrite Nat2Z.id.
  - symmetry. apply andb_true_iff. split; [apply Z.leb_le | apply Z.ltb_lt]; lia.
Qed.

Lemma getitem_array_gather (a idx : ndarray) n rest :
  is_integer (dtype_of idx) = true → shape a = n :: rest →
  Forall (in_axis n) (data idx) →
  getitem_array a idx =
    Ok (NdArray (dtype_of a) (shape idx ++ rest)
          (concat (map (fun q => row a (axis_index n q)) (data idx)))).
Proof.
  intros Hint Hs Hr. unfold getitem_array. rewrite Hint, Hs.
  rewrite (rmap_ok _ (fun q => row a (axis_index n q))); [done|].
  eapply Forall_impl; [exact Hr|]. intros q Hq. simpl.
  by rewrite norm_index_in_axis.
Qed.

Lemma gather_lengths (a : ndarray) n k (idxs : list Q) :
  prod_shape (tail (shape a)) = k → length (data a) = n * k →
  Forall (in_axis n) idxs →
  Forall (fun r => length r = k) (map (fun q => row a (axis_index n q)) idxs).
Proof.
  intros Hk Hlen Hr. apply Forall_fmap. eapply Forall_impl; [exact Hr|].
  intros q Hq. simpl. unfold row. rewrite Hk. apply length_block.
  apply axis_index_lt in Hq. rewrite Hlen. nia.
Qed.

Lemma gather_lookup (a : ndarray) n k (idxs : list Q) e j :
  prod_shape (tail (shape a)) = k → length (data a) = n * k →
  Forall (in_axis n) idxs → e < length idxs → j < k →
  concat (map (fun q => row a (axis_index n q)) idxs) !! (e * k + j)
  = Some (getq (data a) (axis_index n (getq idxs e) * k + j)).
Proof.
  intros Hk Hlen Hr He Hj.
  rewrite (lookup_concat_uniform k) by eauto using gather_lengths.
  rewrite list_lookup_fmap, (lookup_getq idxs e) by done. simpl.
  unfold row. rewrite Hk, lookup_block by done. apply lookup_getq.
  assert (in_axis n (getq idxs e)) as Hq.
  { eapply Forall_lookup_1; [exact Hr|]. by apply lookup_getq. }
  apply axis_index_lt in Hq. rewrite Hlen. nia.
Qed.

Lemma gather_length (a : ndarray) n k (idxs : list Q) :
  prod_shape (tail (shape a)) = k → length (data a) = n * k →
  Forall (in_axis n) idxs →
  length (concat (map (fun q => row a (axis_index n q)) idxs)) = length idxs * k.
Proof.
  intros Hk Hlen Hr. rewrite (length_concat_uniform k) by eauto using gather_lengths.
  by rewrite length_map.
Qed.

Lemma per_item_congr n k f g :
  (∀ e j, e < n → j < k → f e j = g e j) → per_item n k f = per_item n k g.
Proof.
  intros Hfg. apply per_item_ext; [apply length_per_item|].
  intros e j He Hj. rewrite lookup_per_item by done. f_equal. by apply Hfg.
Qed.

Lemma zip_with_per_item (op : Q → Q → Q) n k f g :
  zip_with op (per_item n k f) (per_item n k g)
  = per_item n k (fun e j => op (f e j) (g e j)).
Proof.
  apply per_item_ext.
  - rewrite length_zip_with, !length_per_item. lia.
  - intros e j He Hj. by rewrite lookup_zip_with, !lookup_per_item.
Qed.

Lemma Forall_gather (P : Q → Prop) (a : ndarray) n (idxs : list Q) :
  Forall P (data a) →
  Forall P (concat (map (fun q => row a (axis_index n q)) idxs)).
Proof.
  intros Ha. apply Forall_concat, Forall_fmap, Forall_true. intros q. simpl.
  unfold row, block. by apply Forall_take, Forall_drop.
Qed.

Lemma bind_Ok {A B} (a : A) (f : A → result B) : (Ok a ≫= f) = f a.
Proof. reflexivity. Qed.

Lemma elementwise_same op t1 t2 s d1 d2 :
  elementwise op (NdArray t1 s d1) (NdArray t2 s d2)
  = Ok (NdArray (result_type t1 t2) s (zip_with op d1 d2)).
Proof. unfold elementwise. cbn [shape data dtype_of]. by rewrite decide_True. Qed.

Lemma einsum_ni_ij_nj_per_item (a b : ndarray) n :
  shape a = [n; 3] → shape b = [3; 3] →
  einsum_ni_ij_nj a b
  = Ok (NdArray (result_type (dtype_of a) (dtype_of b)) [n; 3]
          (per_item n 3 (fun e j =>
             Qsum (map (fun i => (getq (data a) (e * 3 + i)
                                  * getq (data b) (i * 3 + j))%Q) (seq 0 3))))).
Proof.
  intros Ha Hb. unfold einsum_ni_ij_nj. rewrite Ha, Hb.
  by rewrite decide_True.
Qed.

Lemma einsum_ni_nij_nj_per_item (a b : ndarray) n :
  shape a = [n; 3] → shape b = [n; 3; 3] →
  einsum_ni_nij_nj a b
  = Ok (NdArray (result_type (dtype_of a) (dtype_of b)) [n; 3]
          (per_item n 3 (fun e j =>
             Qsum (map (fun i => (getq (data a) (e * 3 + i)
                                  * getq (data b) ((e * 3 + i) * 3 + j))%Q)
                       (seq 0 3))))).
Proof.
  intros Ha Hb. unfold einsum_ni_nij_nj. rewrite Ha, Hb.
  by rewrite decide_True.
Qed.

End np_facts.

(** ** Facts about [AtomicDataDict] *)

Module AtomicDataDict_facts.
Import np state_exn_facts np_facts Dict AtomicDataDict Reference Examples.

Lemma run_contains {B} k (f : bool → M B) (d : gmap string ndarray) :
  (contains k ≫= f) d = f (bool_decide (is_Some (d !! k))) d.
Proof. reflexivity. Qed.

Lemma run_getitem {B} k a (f : ndarray → M B) (d : gmap string ndarray) :
  d !! k = Some a → (getitem k ≫= f) d = f a d.
Proof. intros Hk. rewrite run_bind. unfold getitem. by rewrite Hk. Qed.

Lemma run_getitem_None {B} k (f : ndarray → M B) (d : gmap string ndarray) :
  d !! k = None → (getitem k ≫= f) d = (d, Raise (KeyError k)).
Proof. intros Hk. rewrite run_bind. unfold getitem. by rewrite Hk. Qed.

Lemma run_setitem {B} k v (f : unit → M B) (d : gmap string ndarray) :
  (setitem k v ≫= f) d = f tt (<[k := v]> d).
Proof. reflexivity. Qed.

Section Pair.
Context (n_atom n_edge : nat) (pos index : ndarray).
Context (G : pair_graph n_atom n_edge pos index).

Lemma index_row_0 :
  getitem_int index 0 = Ok (NdArray (dtype_of index) [n_edge] (block n_edge (data index) 0)).
Proof.
  change 0%Z with (Z.of_nat 0).
  rewrite (getitem_int_nat index 2 [n_edge] 0) by (apply G || lia).
  unfold row. rewrite (index_shape _ _ _ _ G). simpl. by rewrite Nat.mul_1_r.
Qed.

Lemma index_row_1 :
  getitem_int index 1 = Ok (NdArray (dtype_of index) [n_edge] (block n_edge (data index) 1)).
Proof.
  change 1%Z with (Z.of_nat 1).
  rewrite (getitem_int_nat index 2 [n_edge] 1) by (apply G || lia).
  unfold row. rewrite (index_shape _ _ _ _ G). simpl. by rewrite Nat.mul_1_r.
Qed.

Lemma index_block_range i : Forall (in_axis n_atom) (block n_edge (data index) i).
Proof.
  unfold block. apply Forall_take, Forall_drop, G.
Qed.

Lemma index_block_lookup i e :
  i < 2 → e < n_edge →
  block n_edge (data index) i !! e = Some (getq (data index) (i * n_edge + e)).
Proof.
  intros Hi He. rewrite lookup_block by done. apply lookup_getq.
  rewrite (index_size _ _ _ _ G). nia.
Qed.

Lemma index_block_length i : i < 2 → length (block n_edge (data index) i) = n_edge.
Proof. intros Hi. apply length_block. rewrite (index_size _ _ _ _ G). nia. Qed.

Lemma pair_difference_plain :
  pair_difference pos index
  = Ok (NdArray (result_type (dtype_of pos) (dtype_of pos)) [n_edge; 3]
          (per_item n_edge 3 (plain n_atom n_edge pos index))).
Proof.
  pose proof (pos_shape _ _ _ _ G) as Hps.
  pose proof (pos_size _ _ _ _ G) as Hpl.
  assert (prod_shape (tail (shape pos)) = 3) as Hk by (by rewrite Hps).
  unfold pair_difference. rewrite index_row_1, index_row_0. simpl.
  rewrite !(getitem_array_gather pos _ n_atom [3]);
    [| apply G | done | apply index_block_range | apply G | done | apply index_block_range ].
  simpl. unfold subtract. cbn [dtype_of].
  rewrite bool_decide_false by (intros [Hb _]; by apply (pos_numeric _ _ _ _ G)).
  unfold elementwise. simpl.
  rewrite decide_True by done. do 2 f_equal.
  apply per_item_ext.
  - rewrite length_zip_with, !(gather_length pos n_atom 3), !index_block_length;
      auto using index_block_range; lia.
  - intros e j He Hj. rewrite lookup_zip_with.
    rewrite !(gather_lookup pos n_atom 3);
      auto using index_block_range; try (rewrite index_block_length; lia).
    simpl.
    rewrite (getq_lookup _ _ _ (index_block_lookup 1 e ltac:(lia) He)).
    rewrite (getq_lookup _ _ _ (index_block_lookup 0 e ltac:(lia) He)).
    unfold plain, target, source. by rewrite Nat.mul_1_l.
Qed.

End Pair.

Section Corrections.
Context (n_atom n_edge : nat) (pos index cell_shift : ndarray).
Context (G : pair_graph n_atom n_edge pos index).
Context (Hshift : shape cell_shift = [n_edge; 3]).

Lemma add_single_correction_per_pair t f (cell : ndarray) :
  shape cell = [1; 3; 3] →
  add_single_correction (NdArray t [n_edge; 3] (per_item n_edge 3 f)) cell_shift cell
  = Ok (NdArray (result_type t (result_type (dtype_of cell_shift) (dtype_of cell)))
          [n_edge; 3]
          (per_item n_edge 3
             (fun e j => (f e j + shift_dot_cell cell_shift (data cell) 0 e j)%Q))).
Proof.
  intros Hc. unfold add_single_correction, squeeze0. rewrite Hc, bind_Ok.
  rewrite (einsum_ni_ij_nj_per_item _ _ n_edge), bind_Ok by done.
  unfold add. rewrite elementwise_same. cbn [dtype_of data].
  do 2 f_equal.
  exact (zip_with_per_item Qplus n_edge 3 f
           (fun e j => shift_dot_cell cell_shift (data cell) 0 e j)).
Qed.

Lemma add_batched_correction_per_pair t f n_cell (cell batch : ndarray) :
  shape cell = [n_cell; 3; 3] → length (data cell) = n_cell * 9 →
  batch_index n_atom n_cell batch →
  add_batched_correction (NdArray t [n_edge; 3] (per_item n_edge 3 f))
                         cell_shift cell batch index
  = Ok (NdArray (result_type t (result_type (dtype_of cell_shift) (dtype_of cell)))
          [n_edge; 3]
          (per_item n_edge 3
             (fun e j =>
                (f e j + shift_dot_cell cell_shift (data cell)
                           (batch_of_source n_atom index n_cell batch e) e j)%Q))).
Proof.
  intros Hc Hcl B. unfold add_batched_correction.
  rewrite (index_row_0 _ _ _ _ G), bind_Ok.
  rewrite (getitem_array_gather batch _ n_atom []), bind_Ok;
    [| apply G | apply B | apply (index_block_range _ _ _ _ G) ].
  cbn [dtype_of shape data app].
  rewrite (getitem_array_gather cell _ n_cell [3; 3]), bind_Ok;
    [| apply B | done | apply Forall_gather, B ].
  cbn [dtype_of shape data app].
  rewrite (einsum_ni_nij_nj_per_item _ _ n_edge), bind_Ok by done.
  unfold add. rewrite elementwise_same. cbn [dtype_of data].
  do 2 f_equal.
  etrans; [apply (zip_with_per_item Qplus n_edge 3 f)|].
  apply per_item_congr. intros e j He Hj. f_equal.
  unfold shift_dot_cell. cbn [map seq].
  set (src := block n_edge (data index) 0).
  set (bsrc := concat (map (fun q => row batch (axis_index n_atom q)) src)).
  assert (length src = n_edge) as Hsrc by (apply (index_block_length _ _ _ _ G); lia).
  assert (length bsrc = n_edge) as Hbsrc.
  { unfold bsrc. rewrite (gather_length batch n_atom 1), Hsrc; [lia| |..].
    - by rewrite (batch_shape _ _ _ B).
    - rewrite (batch_size _ _ _ B). lia.
    - apply (index_block_range _ _ _ _ G). }
  assert (getq bsrc e = getq (data batch) (source n_atom index e)) as Hb.
  { apply getq_lookup. unfold bsrc.
    replace e with (e * 1 + 0) at 1 by lia.
    rewrite (gather_lookup batch n_atom 1); [| | | | lia | lia].
    - f_equal. unfold source, src.
      rewrite (getq_lookup _ _ _ (index_block_lookup _ _ _ _ G 0 e ltac:(lia) He)).
      simpl. f_equal. lia.
    - by rewrite (batch_shape _ _ _ B).
    - rewrite (batch_size _ _ _ B). lia.
    - apply (index_block_range _ _ _ _ G). }
  assert (∀ i, i < 3 →
    getq (concat (map (fun q => row cell (axis_index n_cell q)) bsrc))
         ((e * 3 + i) * 3 + j)
    = getq (data cell)
        ((batch_of_source n_atom index n_cell batch e * 3 + i) * 3 + j)) as Hcell.
  { intros i Hi. apply getq_lookup.
    replace ((e * 3 + i) * 3 + j) with (e * 9 + (i * 3 + j)) by lia.
    rewrite (gather_lookup cell n_cell 9); [| | | | lia | lia].
    - f_equal. rewrite Hb. unfold batch_of_source. f_equal. lia.
    - by rewrite Hc.
    - done.
    - apply Forall_gather, B. }
  rewrite !Hcell by lia. done.
Qed.
End Corrections.

Lemma Qgtb_true x y : Qgtb x y = true ↔ (y < x)%Q.
Proof.
  unfold Qgtb. rewrite negb_true_iff, <- not_true_iff_false, Qle_bool_iff.
  split; [apply Qnot_le_lt | apply Qlt_not_le].
Qed.

Lemma Qgtb_false x y : Qgtb x y = false ↔ (x <= y)%Q.
Proof. unfold Qgtb. by rewrite negb_false_iff, Qle_bool_iff. Qed.

Ltac key_ne := let E := fresh in intros E; apply (inj key) in E; discriminate E.

Lemma linalg_norm_last_matrix sqrt t n (l : list Q) :
  linalg_norm_last sqrt (NdArray t [n; 3] l)
  = Ok (NdArray (float_type t) [n]
          (map (fun e => norm2 sqrt (block 3 l e)) (seq 0 n))).
Proof.
  unfold linalg_norm_last. cbn [shape reverse rev_append dtype_of data prod_shape foldr].
  by rewrite Nat.mul_1_r.
Qed.

Lemma reshape_cells (cell : ndarray) n_cell :
  length (data cell) = n_cell * 9 →
  reshape_m1_3_3 cell = Ok (NdArray (dtype_of cell) [n_cell; 3; 3] (data cell)).
Proof.
  intros Hl. unfold reshape_m1_3_3, size. rewrite Hl.
  rewrite decide_True by (apply Nat.Div0.mod_mul).
  by rewrite Nat.div_mul.
Qed.

Section Ops.
Context `{KeyRegistry} (sqrt : Q → Q).
Implicit Types d : gmap string ndarray.

Lemma cell_test_run d : cell_test d = (d, Ok (cell_test_value d)).
Proof.
  unfold cell_test, cell_test_value. rewrite run_contains.
  destruct (d !! CELL_KEY) as [c|] eqn:Hc.
  - rewrite bool_decide_true by eauto. by rewrite (run_getitem _ c).
  - rewrite bool_decide_false; [done|]. by intros [? ?].
Qed.

Lemma with_vectors_present r wl d vec :
  d !! vectors_key r = Some vec →
  with_vectors sqrt r wl d =
    if wl && negb (bool_decide (is_Some (d !! length_key r))) then
      match linalg_norm sqrt kw_axis vec with
      | Ok length => (<[length_key r := length]> d, Ok tt)
      | Raise e => (d, Raise e)
      end
    else (d, Ok tt).
Proof.
  intros Hv. unfold with_vectors. rewrite run_contains, Hv.
  rewrite bool_decide_true by eauto. rewrite run_contains.
  destruct (wl && negb _); [|done].
  rewrite (run_getitem _ vec) by done.
  by destruct (linalg_norm sqrt kw_axis vec).
Qed.

Lemma with_vectors_absent r wl d pos index v :
  d !! vectors_key r = None →
  d !! POSITIONS_KEY = Some pos → d !! index_key r = Some index →
  pair_difference pos index = Ok v →
  with_vectors sqrt r wl d =
    if cell_test_value d then
      (vec ← periodic_correction r index v; store_vectors sqrt r wl vec) d
    else store_vectors sqrt r wl v d.
Proof.
  intros Hv Hp Hi Hd. unfold with_vectors. rewrite run_contains, Hv.
  rewrite bool_decide_false by (by intros [? ?]).
  rewrite (run_getitem _ pos), (run_getitem _ index) by done.
  rewrite Hd, run_lift_Ok, run_bind, cell_test_run.
  by destruct (cell_test_value d).
Qed.

Lemma store_vectors_run r wl v d :
  store_vectors sqrt r wl v d =
    if wl then
      match linalg_norm sqrt (build_norm_kw r) v with
      | Ok length => (<[length_key r := length]> (<[vectors_key r := v]> d), Ok tt)
      | Raise e => (<[vectors_key r := v]> d, Raise e)
      end
    else (<[vectors_key r := v]> d, Ok tt).
Proof.
  unfold store_vectors. rewrite run_setitem. destruct wl; [|done].
  by destruct (linalg_norm sqrt (build_norm_kw r) v).
Qed.
Lemma periodic_correction_single r index v d cell cell_shift t n_edge f :
  d !! CELL_KEY = Some cell → d !! cell_shift_key r = Some cell_shift →
  length (data cell) = 9 → shape cell_shift = [n_edge; 3] →
  v = NdArray t [n_edge; 3] (per_item n_edge 3 f) →
  periodic_correction r index v d
  = (d, Ok (NdArray (result_type t (result_type (dtype_of cell_shift) (dtype_of cell)))
              [n_edge; 3]
              (per_item n_edge 3
                 (fun e j => (f e j + shift_dot_cell cell_shift (data cell) 0 e j)%Q)))).
Proof.
  intros Hc Hs Hl Hss ->. unfold periodic_correction.
  rewrite (run_getitem _ cell) by done.
  rewrite (reshape_cells cell 1), run_lift_Ok by (rewrite Hl; lia).
  rewrite (run_getitem _ cell_shift) by done.
  cbn [shape nth]. rewrite bool_decide_false by lia.
  unfold lift. by rewrite (add_single_correction_per_pair n_edge).
Qed.

Lemma periodic_correction_batched r pos index v d cell cell_shift batch t
    n_atom n_edge n_cell f :
  d !! CELL_KEY = Some cell → d !! cell_shift_key r = Some cell_shift →
  d !! BATCH_KEY = Some batch →
  pair_graph n_atom n_edge pos index →
  length (data cell) = n_cell * 9 → 1 < n_cell →
  shape cell_shift = [n_edge; 3] →
  batch_index n_atom n_cell batch →
  v = NdArray t [n_edge; 3] (per_item n_edge 3 f) →
  periodic_correction r index v d
  = (d, Ok (NdArray (result_type t (result_type (dtype_of cell_shift) (dtype_of cell)))
              [n_edge; 3]
              (per_item n_edge 3
                 (fun e j =>
                    (f e j + shift_dot_cell cell_shift (data cell)
                               (batch_of_source n_atom index n_cell batch e) e j)%Q)))).
Proof.
  intros Hc Hs Hb G Hl Hn Hss B ->. unfold periodic_correction.
  rewrite (run_getitem _ cell) by done.
  rewrite (reshape_cells cell n_cell), run_lift_Ok by done.
  rewrite (run_getitem _ cell_shift) by done.
  cbn [shape nth]. rewrite bool_decide_true by lia.
  rewrite (run_getitem _ batch) by done.
  unfold lift.
  by rewrite (add_batched_correction_per_pair n_atom n_edge pos index cell_shift G Hss
                t f n_cell (NdArray (dtype_of cell) [n_cell; 3; 3] (data cell)) batch).
Qed.

(** Storing [(n, 3)] vectors under a relation whose norm is called with
    [axis]: never raises. *)
Lemma store_vectors_axis r wl t n l d :
  build_norm_kw r = kw_axis → vectors_key r ≠ length_key r →
  ∃ d', store_vectors sqrt r wl (NdArray t [n; 3] l) d = (d', Ok tt)
        ∧ d' !! vectors_key r = Some (NdArray t [n; 3] l)
        ∧ (wl = true →
           d' !! length_key r
           = Some (NdArray (float_type t) [n]
                     (map (fun e => norm2 sqrt (block 3 l e)) (seq 0 n)))).
Proof.
  intros Hkw Hne. rewrite store_vectors_run, Hkw. cbn [linalg_norm].
  rewrite linalg_norm_last_matrix. destruct wl.
  - eexists. split; [done|]. split.
    + by rewrite lookup_insert_ne, lookup_insert_eq.
    + intros _. by rewrite lookup_insert_eq.
  - eexists. split; [done|]. split; [by rewrite lookup_insert_eq | done].
Qed.

Lemma stores_per_pair_axis r wl t n g d :
  build_norm_kw r = kw_axis → vectors_key r ≠ length_key r →
  stores_per_pair (store_vectors sqrt r wl (NdArray t [n; 3] (per_item n 3 g)) d)
                  (vectors_key r) n g.
Proof.
  intros Hkw Hne.
  destruct (store_vectors_axis r wl t n (per_item n 3 g) d Hkw Hne)
    as (d' & Hrun & Hvec & _).
  exists d', (NdArray t [n; 3] (per_item n 3 g)). repeat split; try done.
  intros e j He Hj. cbn [data]. apply getq_lookup. by apply lookup_per_item.
Qed.

Lemma Qsum_abs_zero (l : list Q) :
  Forall (fun q => q == 0)%Q l → (Qsum (map Qabs l) == 0)%Q.
Proof.
  induction 1 as [|q l Hq _ IH]; cbn [map Qsum foldr]; [reflexivity|].
  fold (Qsum (map Qabs l)). rewrite IH, Hq. reflexivity.
Qed.

Lemma cell_test_value_below d cell :
  d !! CELL_KEY = Some cell → (sum_abs cell <= cell_eps)%Q →
  cell_test_value d = false.
Proof. intros Hc Hs. unfold cell_test_value. rewrite Hc. by apply Qgtb_false. Qed.

Lemma cell_test_value_above d cell :
  d !! CELL_KEY = Some cell → (cell_eps < sum_abs cell)%Q →
  cell_test_value d = true.
Proof. intros Hc Hs. unfold cell_test_value. rewrite Hc. by apply Qgtb_true. Qed.

Lemma all_zero_below (cell : ndarray) :
  Forall (fun q => q == 0)%Q (data cell) → (sum_abs cell <= cell_eps)%Q.
Proof. intros Hz. unfold sum_abs. rewrite Qsum_abs_zero by done. done. Qed.

(** C2, as amended.  Take a record that holds positions [(n_atom, 3)] and
    an edge index [(2, n_edge)] with entries in range, and no edge vectors
    yet.  If the cell is absent, or all-zero, or more generally if the
    absolute values of its entries sum to at most [1e-10], then
    [with_edge_vectors] succeeds and the vectors it stores are, for every
    edge, the plain difference [positions[target] - positions[source]].  If
    a single cell whose absolute entries sum to more than [1e-10] and an
    edge cell shift [(n_edge, 3)] are supplied, it succeeds and stores, for
    every edge, [positions[target] - positions[source] + shift · cell], the
    rows of the cell being the lattice vectors. *)
Theorem C2_edge_vectors_plain_or_single_cell (wl : bool) d n_atom n_edge pos index :
  d !! EDGE_VECTORS_KEY = None →
  d !! POSITIONS_KEY = Some pos →
  d !! EDGE_INDEX_KEY = Some index →
  pair_graph n_atom n_edge pos index →
  ((d !! CELL_KEY = None
    ∨ ∃ cell, d !! CELL_KEY = Some cell
              ∧ (Forall (fun q => q == 0)%Q (data cell)
                 ∨ (sum_abs cell <= cell_eps)%Q)) →
   stores_per_pair (with_edge_vectors sqrt wl d) EDGE_VECTORS_KEY n_edge
                   (plain n_atom n_edge pos index))
  ∧ (∀ cell cell_shift,
       d !! CELL_KEY = Some cell →
       d !! EDGE_CELL_SHIFT_KEY = Some cell_shift →
       length (data cell) = 9 →
       shape cell_shift = [n_edge; 3] →
       (cell_eps < sum_abs cell)%Q →
       stores_per_pair (with_edge_vectors sqrt wl d) EDGE_VECTORS_KEY n_edge
         (fun e j => (plain n_atom n_edge pos index e j
                      + shift_dot_cell cell_shift (data cell) 0 e j)%Q)).
Proof.
  intros Hv Hp Hi G.
  pose proof (pair_difference_plain _ _ _ _ G) as Hd.
  pose proof (with_vectors_absent edge wl d pos index _ Hv Hp Hi Hd) as Hrun.
  unfold with_edge_vectors. split.
  - intros Hcell. rewrite Hrun.
    replace (cell_test_value d) with false.
    + apply (stores_per_pair_axis edge); [done | cbn; key_ne].
    + symmetry. destruct Hcell as [Hc | (cell & Hc & [Hz | Hs])].
      * unfold cell_test_value. by rewrite Hc.
      * eauto using cell_test_value_below, all_zero_below.
      * eauto using cell_test_value_below.
  - intros cell cell_shift Hc Hs Hl Hss Hgt. rewrite Hrun.
    rewrite (cell_test_value_above d cell) by done.
    rewrite run_bind.
    rewrite (periodic_correction_single edge index _ d cell cell_shift _ n_edge
               (plain n_atom n_edge pos index)) by done.
    apply (stores_per_pair_axis edge); [done | cbn; key_ne].
Qed.

(** C1, as amended.  Take a record that holds positions, an edge index, an
    edge cell shift, a batch index and a stack of more than one cell, all
    shaped as the data model says, that holds no edge vectors yet and whose
    cell entries' absolute values sum to more than [1e-10].  Then
    [with_edge_vectors] succeeds and stores, for every edge,
    [positions[target] - positions[source] + shift · cell[batch[source]]]:
    the correction of an edge is computed with the cell of the batch of its
    source atom, never with the cell of another sub-structure. *)
Theorem C1_edge_vectors_batched_cells (wl : bool) d n_atom n_edge n_cell
    pos index cell cell_shift batch :
  d !! EDGE_VECTORS_KEY = None →
  d !! POSITIONS_KEY = Some pos →
  d !! EDGE_INDEX_KEY = Some index →
  d !! EDGE_CELL_SHIFT_KEY = Some cell_shift →
  d !! BATCH_KEY = Some batch →
  d !! CELL_KEY = Some cell →
  pair_graph n_atom n_edge pos index →
  shape cell_shift = [n_edge; 3] →
  batch_index n_atom n_cell batch →
  length (data cell) = n_cell * 9 → 1 < n_cell →
  (cell_eps < sum_abs cell)%Q →
  stores_per_pair (with_edge_vectors sqrt wl d) EDGE_VECTORS_KEY n_edge
    (fun e j =>
       (plain n_atom n_edge pos index e j
        + shift_dot_cell cell_shift (data cell)
            (batch_of_source n_atom index n_cell batch e) e j)%Q).
Proof.
  intros Hv Hp Hi Hs Hb Hc G Hss B Hl Hn Hgt.
  pose proof (pair_difference_plain _ _ _ _ G) as Hd.
  unfold with_edge_vectors.
  rewrite (with_vectors_absent edge wl d pos index _ Hv Hp Hi Hd).
  rewrite (cell_test_value_above d cell) by done.
  rewrite run_bind.
  rewrite (periodic_correction_batched edge pos index _ d cell cell_shift batch _
             n_atom n_edge n_cell (plain n_atom n_edge pos index)) by done.
  apply (stores_per_pair_axis edge); [done | cbn; key_ne].
Qed.

End Ops.

Section Frame.
Context `{KeyRegistry} (sqrt : Q → Q).
Implicit Types d : gmap string ndarray.

Lemma with_vectors_absent_cases r wl d :
  d !! vectors_key r = None →
  with_vectors sqrt r wl d =
    match d !! POSITIONS_KEY with
    | None => (d, Raise (KeyError POSITIONS_KEY))
    | Some pos =>
        match d !! index_key r with
        | None => (d, Raise (KeyError (index_key r)))
        | Some index =>
            match pair_difference pos index with
            | Raise e => (d, Raise e)
            | Ok v =>
                if cell_test_value d then
                  (vec ← periodic_correction r index v;
                   store_vectors sqrt r wl vec) d
                else store_vectors sqrt r wl v d
            end
        end
    end.
Proof.
  intros Hv. destruct (d !! POSITIONS_KEY) as [pos|] eqn:Hp.
  2:{ unfold with_vectors. rewrite run_contains, Hv.
      rewrite bool_decide_false by (by intros [? ?]).
      by rewrite run_getitem_None. }
  destruct (d !! index_key r) as [index|] eqn:Hi.
  2:{ unfold with_vectors. rewrite run_contains, Hv.
      rewrite bool_decide_false by (by intros [? ?]).
      rewrite (run_getitem _ pos) by done. by rewrite run_getitem_None. }
  destruct (pair_difference pos index) as [v|e] eqn:Hd.
  - by apply (with_vectors_absent sqrt r wl d pos index v).
  - unfold with_vectors. rewrite run_contains, Hv.
    rewrite bool_decide_false by (by intros [? ?]).
    rewrite (run_getitem _ pos), (run_getitem _ index) by done.
    by rewrite Hd.
Qed.

Lemma periodic_correction_state r index v d :
  (periodic_correction r index v d).1 = d.
Proof.
  unfold periodic_correction.
  destruct (d !! CELL_KEY) as [c|] eqn:Hc;
    [rewrite (run_getitem _ c) by done | by rewrite run_getitem_None].
  destruct (reshape_m1_3_3 c) as [cell|e]; [rewrite run_lift_Ok | done].
  destruct (d !! cell_shift_key r) as [s|] eqn:Hs;
    [rewrite (run_getitem _ s) by done | by rewrite run_getitem_None].
  case_bool_decide; [|done].
  destruct (d !! BATCH_KEY) as [b|] eqn:Hb;
    [by rewrite (run_getitem _ b) | by rewrite run_getitem_None].
Qed.

Lemma store_vectors_frame r wl v d k :
  k ≠ vectors_key r → k ≠ length_key r →
  (store_vectors sqrt r wl v d).1 !! k = d !! k.
Proof.
  intros Hkv Hkl. rewrite store_vectors_run.
  destruct wl; [destruct (linalg_norm _ _ _)|]; cbn [fst];
    by rewrite ?lookup_insert_ne.
Qed.

(** A run of the build branch ends in [store_vectors], or raises before
    anything is stored. *)
Lemma with_vectors_absent_inv r wl d :
  d !! vectors_key r = None →
  (∃ e, with_vectors sqrt r wl d = (d, Raise e))
  ∨ (∃ v, with_vectors sqrt r wl d = store_vectors sqrt r wl v d).
Proof.
  intros Hv. rewrite (with_vectors_absent_cases r wl d Hv).
  destruct (d !! POSITIONS_KEY) as [pos|]; [|eauto].
  destruct (d !! index_key r) as [index|]; [|eauto].
  destruct (pair_difference pos index) as [v|e]; [|eauto].
  destruct (cell_test_value d); [|eauto].
  rewrite run_bind.
  pose proof (periodic_correction_state r index v d) as Hst.
  destruct (periodic_correction r index v d) as [d1 [v'|e]]; cbn in Hst; subst d1; eauto.
Qed.

Lemma with_vectors_frame r wl d k :
  k ≠ vectors_key r → k ≠ length_key r →
  (with_vectors sqrt r wl d).1 !! k = d !! k.
Proof.
  intros Hkv Hkl. destruct (d !! vectors_key r) as [vec|] eqn:Hv.
  - rewrite (with_vectors_present sqrt r wl d vec Hv).
    destruct (wl && _); [destruct (linalg_norm _ _ _)|]; cbn [fst];
      by rewrite ?lookup_insert_ne.
  - destruct (with_vectors_absent_inv r wl d Hv) as [[e ->] | [v ->]]; [done|].
    by apply store_vectors_frame.
Qed.

Lemma with_vectors_idem r wl d d' :
  with_vectors sqrt r wl d = (d', Ok tt) →
  with_vectors sqrt r wl d' = (d', Ok tt).
Proof.
  intros Hrun.
  assert (is_Some (d' !! vectors_key r)
          ∧ (wl = true → is_Some (d' !! length_key r) ∨ d' = d)) as [[vec' Hv'] Hl'].
  { destruct (d !! vectors_key r) as [vec|] eqn:Hv.
    - rewrite (with_vectors_present sqrt r wl d vec Hv) in Hrun.
      destruct (wl && negb (bool_decide (is_Some (d !! length_key r)))) eqn:Hc.
      + destruct (linalg_norm sqrt kw_axis vec) as [l|e]; [|done].
        injection Hrun as <-. split.
        * destruct (decide (length_key r = vectors_key r)) as [->|Hne].
          -- rewrite lookup_insert_eq. eauto.
          -- rewrite lookup_insert_ne by done. eauto.
        * intros _. left. rewrite lookup_insert_eq. eauto.
      + injection Hrun as <-. split; [eauto|]. by right.
    - destruct (with_vectors_absent_inv r wl d Hv) as [[e He] | [v Hs]];
        [congruence|].
      rewrite Hs, store_vectors_run in Hrun. destruct wl.
      + destruct (linalg_norm sqrt (build_norm_kw r) v) as [l|e]; [|done].
        injection Hrun as <-. split.
        * destruct (decide (length_key r = vectors_key r)) as [->|Hne].
          -- rewrite lookup_insert_eq. eauto.
          -- rewrite lookup_insert_ne, lookup_insert_eq by done. eauto.
        * intros _. left. rewrite lookup_insert_eq. eauto.
      + injection Hrun as <-. split; [|done]. rewrite lookup_insert_eq. eauto. }
  rewrite (with_vectors_present sqrt r wl d' vec' Hv').
  destruct wl; [|done].
  destruct (Hl' eq_refl) as [Hsome | ->].
  - by rewrite bool_decide_true.
  - destruct (d !! vectors_key r) as [vec|] eqn:Hv; [|congruence].
    rewrite (with_vectors_present sqrt r true d vec Hv) in Hrun.
    assert (vec' = vec) as -> by congruence. exact Hrun.
Qed.

End Frame.

Section Heap.
Implicit Types h : gmap loc (gmap string ndarray).

Lemma py_call_Some body h data d :
  h !! data = Some d →
  py_call body h data
  = Some (<[data := (body d).1]> h, _ ← (body d).2; Ok data).
Proof. intros Hd. unfold py_call. rewrite Hd. by destruct (body d). Qed.

Lemma py_call_inv body h data h' res :
  py_call body h data = Some (h', res) →
  ∃ d, h !! data = Some d ∧ h' = <[data := (body d).1]> h
       ∧ res = (_ ← (body d).2; Ok data).
Proof.
  unfold py_call. destruct (h !! data) as [d|]; [|done].
  intros Hcall. exists d. destruct (body d) as [d' r].
  injection Hcall as <- <-. done.
Qed.

Lemma py_call_idem body h data h' data' :
  (∀ d d', body d = (d', Ok tt) → body d' = (d', Ok tt)) →
  py_call body h data = Some (h', Ok data') →
  py_call body h' data' = Some (h', Ok data').
Proof.
  intros Hidem Hcall. apply py_call_inv in Hcall as (d & Hd & -> & Hres).
  destruct (body d) as [d' [[]|e]] eqn:Hb; [|done]. injection Hres as ->.
  cbn [fst]. rewrite (py_call_Some body _ data d') by apply lookup_insert_eq.
  rewrite (Hidem d d' Hb). cbn. by rewrite insert_insert_eq.
Qed.

Lemma py_call_in_place body targets :
  (∀ d k, k ∉ targets → (body d).1 !! k = d !! k) →
  in_place body targets.
Proof.
  intros Hframe h data h' res Hcall.
  apply py_call_inv in Hcall as (d & Hd & -> & ->). split; [|split].
  - intros data'. destruct (body d).2; cbn; congruence.
  - intros l Hl. by rewrite lookup_insert_ne.
  - exists d, (body d).1. rewrite lookup_insert_eq. eauto.
Qed.
End Heap.

Section Claims.
Context `{KeyRegistry} (sqrt : Q → Q).
Implicit Types d : gmap string ndarray.

Lemma with_batch_present d :
  is_Some (d !! BATCH_KEY) → with_batch d = (d, Ok tt).
Proof.
  intros Hb. unfold with_batch. rewrite run_contains. by rewrite bool_decide_true.
Qed.

Lemma arange_pointer (n : nat) :
  0 < n →
  arange 0 (Z.of_nat n + 1) (Z.of_nat n) int64
  = Ok (NdArray int64 [2] [inject_Z 0; inject_Z (Z.of_nat n)]).
Proof.
  intros Hn. unfold arange. rewrite decide_False by lia.
  assert ((0 - (Z.of_nat n + 1)) `div` Z.of_nat n = -2)%Z as ->.
  { symmetry. apply (Z.div_unique_pos _ _ _ (Z.of_nat n - 1)); lia. }
  change (Z.to_nat (- (-2))) with 2. cbn [seq map].
  repeat f_equal; lia.
Qed.

Lemma with_batch_absent d pos n rest :
  d !! BATCH_KEY = None → d !! POSITIONS_KEY = Some pos →
  shape pos = n :: rest → 0 < n →
  with_batch d
  = (<[BATCH_PTR_KEY := NdArray int64 [2] [inject_Z 0; inject_Z (Z.of_nat n)]]>
       (<[BATCH_KEY := NdArray int64 [n] (replicate n 0%Q)]> d),
     Ok tt).
Proof.
  intros Hb Hp Hs Hn. unfold with_batch. rewrite run_contains, Hb.
  rewrite bool_decide_false by (by intros [? ?]).
  rewrite (run_getitem _ pos) by done.
  unfold len. rewrite Hs, run_lift_Ok, run_setitem.
  by rewrite arange_pointer, run_lift_Ok.
Qed.

(** C6, the code on a record without atoms.  When the record has no batch
    index and its positions have extent zero along the first axis,
    [with_batch] stores an empty batch index and then raises the
    [ZeroDivisionError] of [np.arange] with step [len(pos) = 0]: it does not
    return, and no batch pointer is stored. *)
Theorem C6_with_batch_without_atoms d pos rest :
  d !! BATCH_KEY = None → d !! POSITIONS_KEY = Some pos →
  shape pos = 0 :: rest →
  with_batch d
  = (<[BATCH_KEY := NdArray int64 [0] []]> d, Raise ZeroDivisionError).
Proof.
  intros Hb Hp Hs. unfold with_batch. rewrite run_contains, Hb.
  rewrite bool_decide_false by (by intros [? ?]).
  rewrite (run_getitem _ pos) by done.
  unfold len. rewrite Hs, run_lift_Ok, run_setitem.
  unfold arange. by rewrite decide_True.
Qed.

Lemma with_batch_frame d k :
  k ≠ BATCH_KEY → k ≠ BATCH_PTR_KEY → (with_batch d).1 !! k = d !! k.
Proof.
  intros Hk1 Hk2. unfold with_batch. rewrite run_contains.
  case_bool_decide; [done|].
  destruct (d !! POSITIONS_KEY) as [pos|] eqn:Hp;
    [rewrite (run_getitem _ pos) by done | by rewrite run_getitem_None].
  destruct (len pos) as [n|e]; [rewrite run_lift_Ok, run_setitem | done].
  destruct (arange _ _ _ _) as [ptr|e];
    [rewrite run_lift_Ok | rewrite run_lift_Raise]; cbn [fst setitem];
    by rewrite ?lookup_insert_ne.
Qed.

(** C3.  Displacement-vector derivation is idempotent and memoizing: when a
    call on the dictionary [data] succeeds, a second call on its result
    succeeds too, returns the same reference and leaves the heap as the
    first call left it.  If the vectors field was already there, the first
    call changes nothing, except that it completes the length field, with
    the norms of the stored vectors, when lengths are requested and the
    length field is absent.  This holds for the edge, environment and
    on-site-environment relations (any [r]). *)
Theorem C3_displacement_derivation_idempotent (r : relation) (wl : bool)
    (h h' : gmap loc (gmap string ndarray)) (data data' : loc) :
  py_call (with_vectors sqrt r wl) h data = Some (h', Ok data') →
  py_call (with_vectors sqrt r wl) h' data' = Some (h', Ok data')
  ∧ data' = data
  ∧ ∀ d vec, h !! data = Some d → d !! vectors_key r = Some vec →
      (wl && negb (bool_decide (is_Some (d !! length_key r))) = false → h' = h)
      ∧ (wl && negb (bool_decide (is_Some (d !! length_key r))) = true →
         ∃ length, linalg_norm_last sqrt vec = Ok length
                   ∧ h' = <[data := <[length_key r := length]> d]> h).
Proof.
  intros Hcall. split; [|split].
  - eapply py_call_idem; [|exact Hcall]. apply with_vectors_idem.
  - apply py_call_inv in Hcall as (d & _ & _ & Hres).
    destruct (with_vectors sqrt r wl d).2; cbn in Hres; congruence.
  - intros d vec Hd Hv. rewrite (py_call_Some _ h data d Hd) in Hcall.
    rewrite (with_vectors_present sqrt r wl d vec Hv) in Hcall.
    destruct (wl && negb _); split; try done.
    + intros _. cbn [linalg_norm] in Hcall.
      destruct (linalg_norm_last sqrt vec) as [l|e]; [|done].
      injection Hcall as <- _. eauto.
    + intros _. injection Hcall as <- _. cbn [fst]. by apply insert_id.
Qed.

(** C5, as amended.  Every operation of the data model works in place on
    the dictionary it receives and returns that very dictionary, not a
    copy: the reference returned is the reference received, no other object
    of the heap changes, and in the dictionary itself every field other
    than the operation's own target fields (the vectors and length fields
    of the relation; the batch index and batch pointer) is what it was
    before the call, also when the call raises. *)
Theorem C5_operations_update_in_place (wl : bool) :
  in_place (with_edge_vectors sqrt wl) [EDGE_VECTORS_KEY; EDGE_LENGTH_KEY]
  ∧ in_place (with_env_vectors sqrt wl) [ENV_VECTORS_KEY; ENV_LENGTH_KEY]
  ∧ in_place (with_onsitenv_vectors sqrt wl)
             [ONSITENV_VECTORS_KEY; ONSITENV_LENGTH_KEY]
  ∧ in_place with_batch [BATCH_KEY; BATCH_PTR_KEY].
Proof.
  split; [|split; [|split]]; apply py_call_in_place; intros d k Hk;
    first [apply with_vectors_frame | apply with_batch_frame];
    intros ->; apply Hk; cbn; set_solver.
Qed.

End Claims.

Section Gate.
Context `{KeyRegistry} (sqrt : Q → Q).
Implicit Types d : gmap string ndarray.

Lemma lookup_set_field_ne k k' o d : k ≠ k' → set_field k o d !! k' = d !! k'.
Proof.
  intros Hk. destruct o; cbn; [by rewrite lookup_insert_ne | by rewrite lookup_delete_ne].
Qed.

Lemma insert_set_field k k' o v d :
  k ≠ k' → <[k' := v]> (set_field k o d) = set_field k o (<[k' := v]> d).
Proof.
  intros Hk. destruct o; cbn; [by apply insert_insert_ne | by rewrite delete_insert_ne].
Qed.



Lemma three_relations_distinct r :
  r = edge ∨ r = env ∨ r = onsitenv →
  vectors_key r ≠ length_key r
  ∧ Forall (fun k' => cell_shift_key r ≠ k') (other_fields r)
  ∧ Forall (fun k' => BATCH_KEY ≠ k') (other_fields r).
Proof.
  intros [-> | [-> | ->]]; (split; [cbn; key_ne|]);
    split; unfold other_fields; cbn; repeat constructor; key_ne.
Qed.




(** C4, the code on the fresh-build path.  For the environment and the
    on-site-environment relation, a call that requests lengths on a record
    without the vectors field never returns: it raises, and it never writes
    the length field.  When the positions and the index are there and no
    periodic correction applies, it stores the vectors and then raises the
    [TypeError] of [np.linalg.norm(..., dim=-1)].  (The edge function, and
    the branch of all three functions that finds the vectors present, call
    the norm with [axis=-1] and store the lengths.) *)
Theorem C4_environment_lengths_raise (r : relation) d :
  r = env ∨ r = onsitenv →
  d !! vectors_key r = None →
  (∃ e, (with_vectors sqrt r true d).2 = Raise e)
  ∧ (with_vectors sqrt r true d).1 !! length_key r = d !! length_key r
  ∧ (∀ pos index v,
       d !! POSITIONS_KEY = Some pos → d !! index_key r = Some index →
       pair_difference pos index = Ok v → cell_test_value d = false →
       with_vectors sqrt r true d
       = (<[vectors_key r := v]> d,
          Raise (TypeError "norm() got an unexpected keyword argument 'dim'"))).
Proof.
  intros Hr Hv.
  assert (build_norm_kw r = kw_dim ∧ vectors_key r ≠ length_key r) as [Hkw Hne].
  { destruct Hr as [-> | ->]; (split; [done | cbn; key_ne]). }
  split; [|split].
  - destruct (with_vectors_absent_inv sqrt r true d Hv) as [[e ->] | [v ->]];
      [eauto|].
    rewrite store_vectors_run, Hkw. cbn. eauto.
  - destruct (with_vectors_absent_inv sqrt r true d Hv) as [[e ->] | [v ->]];
      [done|].
    rewrite store_vectors_run, Hkw. cbn. by rewrite lookup_insert_ne.
  - intros pos index v Hp Hi Hd Hgate.
    rewrite (with_vectors_absent sqrt r true d pos index v Hv Hp Hi Hd), Hgate.
    by rewrite store_vectors_run, Hkw.
Qed.

(** The edge relation on the same path: the lengths are the norms of the
    vectors just built. *)
Lemma edge_fresh_build_lengths t n l d :
  store_vectors sqrt edge true (NdArray t [n; 3] l) d
  = (<[EDGE_LENGTH_KEY := NdArray (float_type t) [n]
         (map (fun e => norm2 sqrt (block 3 l e)) (seq 0 n))]>
       (<[EDGE_VECTORS_KEY := NdArray t [n; 3] l]> d), Ok tt).
Proof.
  rewrite store_vectors_run. cbn [build_norm_kw edge linalg_norm].
  by rewrite linalg_norm_last_matrix.
Qed.

End Gate.

Section Runs.
#[local] Existing Instance default_keys.

Ltac run := vm_compute; reflexivity.

Ltac in_axis_list :=
  cbn; repeat (apply Forall_cons_2;
               [unfold in_axis; vm_compute; split; [discriminate | reflexivity]|]);
  apply Forall_nil_2.

Lemma cubic_graph : pair_graph 2 2 cubic_pos cubic_index.
Proof. split; try reflexivity; [discriminate | in_axis_list]. Defined.

Lemma pair_graph_batched : pair_graph 2 2 pair_pos pair_index.
Proof. split; try reflexivity; [discriminate | in_axis_list]. Defined.

Lemma pair_batch_index : batch_index 2 2 pair_batch.
Proof. split; try reflexivity. in_axis_list. Defined.

(** C2, witness: the two-atom molecule without a cell, and the same graph
    in a cubic cell of side 10. *)
Lemma C2_witness :
  stores_per_pair (with_edge_vectors sqrt_floor true molecule) "edge_vectors" 2
    (plain 2 2 cubic_pos cubic_index)
  ∧ stores_per_pair (with_edge_vectors sqrt_floor true cubic) "edge_vectors" 2
      (fun e j => (plain 2 2 cubic_pos cubic_index e j
                   + shift_dot_cell cubic_shift (data cubic_cell) 0 e j)%Q).
Proof.
  split.
  - apply (proj1 (C2_edge_vectors_plain_or_single_cell (H:=default_keys) sqrt_floor true molecule
                    2 2 cubic_pos cubic_index ltac:(run) ltac:(run) ltac:(run) cubic_graph)).
    left. run.
  - apply (proj2 (C2_edge_vectors_plain_or_single_cell (H:=default_keys) sqrt_floor true cubic
                    2 2 cubic_pos cubic_index ltac:(run) ltac:(run) ltac:(run) cubic_graph)
                 cubic_cell cubic_shift); run.
Defined.

(** C2, counterexample to the claim as stated: a single cell that is not
    all-zero (one entry [1e-11]) with a cell shift along its first lattice
    vector.  The derivation succeeds and stores the plain difference, which
    is not [positions[target] - positions[source] + shift · cell]. *)
Lemma C2_counterexample :
  tiny !! "edge_vectors" = None
  ∧ tiny !! "cell" = Some tiny_cell
  ∧ tiny !! "edge_cell_shift" = Some tiny_shift
  ∧ size tiny_cell = 9
  ∧ ¬ Forall (fun q => q == 0)%Q (data tiny_cell)
  ∧ ∃ d' vec,
      with_edge_vectors sqrt_floor true tiny = (d', Ok tt)
      ∧ d' !! "edge_vectors" = Some vec
      ∧ ¬ (getq (data vec) 0
           == plain 1 1 tiny_pos tiny_index 0 0
              + shift_dot_cell tiny_shift (data tiny_cell) 0 0 0)%Q.
Proof.
  repeat (split; [run|]). split.
  { intros Hz. apply Forall_cons in Hz as [Hz _]. discriminate Hz. }
  eexists _, _. split; [run|]. split; [run|].
  vm_compute. discriminate.
Qed.

(** C1, witness: a batch of two structures with cells of sides 10 and 20. *)
Lemma C1_witness :
  stores_per_pair (with_edge_vectors sqrt_floor true batched) "edge_vectors" 2
    (fun e j =>
       (plain 2 2 pair_pos pair_index e j
        + shift_dot_cell pair_shift (data pair_cell)
            (batch_of_source 2 pair_index 2 pair_batch e) e j)%Q).
Proof.
  apply (C1_edge_vectors_batched_cells (H:=default_keys) sqrt_floor true batched 2 2 2
           pair_pos pair_index pair_cell pair_shift pair_batch);
    [run | run | run | run | run | run
    | exact pair_graph_batched | run | exact pair_batch_index
    | run | lia | run].
Defined.

(** C1, counterexample to the claim as stated: the same batch with cells
    of sides [1e-11] and [2e-11].  All the fields of the claim are there and
    the cell has two leading entries, yet the vector stored for edge 0 is
    not [positions[target] - positions[source] + shift · cell[batch[source]]]:
    no correction is applied. *)
Lemma C1_counterexample :
  tiny_batched !! "edge_vectors" = None
  ∧ tiny_batched !! "cell" = Some tiny_pair_cell
  ∧ tiny_batched !! "batch" = Some pair_batch
  ∧ tiny_batched !! "edge_cell_shift" = Some pair_shift
  ∧ shape tiny_pair_cell = [2; 3; 3]
  ∧ ∃ d' vec,
      with_edge_vectors sqrt_floor true tiny_batched = (d', Ok tt)
      ∧ d' !! "edge_vectors" = Some vec
      ∧ ¬ (getq (data vec) 0
           == plain 2 2 pair_pos pair_index 0 0
              + shift_dot_cell pair_shift (data tiny_pair_cell)
                  (batch_of_source 2 pair_index 2 pair_batch 0) 0 0)%Q.
Proof.
  repeat (split; [run|]).
  eexists _, _. split; [run|]. split; [run|].
  vm_compute. discriminate.
Qed.

(** C3, witness: the cubic record, lengths requested. *)
Lemma C3_witness :
  ∃ h', py_call (with_vectors sqrt_floor edge true) {[0 := cubic]} 0 = Some (h', Ok 0)
        ∧ py_call (with_vectors sqrt_floor edge true) h' 0 = Some (h', Ok 0).
Proof.
  eexists. split; [vm_compute; reflexivity|].
  apply (C3_displacement_derivation_idempotent (H:=default_keys) sqrt_floor edge true {[0 := cubic]} _ 0 0).
  vm_compute; reflexivity.
Defined.

(** C5, counterexample to the claim as stated: after [with_batch] on the
    caller's dictionary of five atoms, that same dictionary holds a batch
    index it did not hold before. *)
Lemma C5_counterexample :
  ∃ h' d',
    py_call with_batch {[0 := five_atoms]} 0 = Some (h', Ok 0)
    ∧ h' !! 0 = Some d'
    ∧ five_atoms !! "batch" = None
    ∧ d' !! "batch" = Some (int_array [5] [0; 0; 0; 0; 0]%Z).
Proof.
  eexists _, _. split; [run|]. split; [run|]. split; run.
Qed.

(** The three functions on the two-atom graph, lengths requested. *)
Example fresh_build_runs :
  with_env_vectors sqrt_floor true env_molecule
  = (<["env_vectors" := float_array [2; 3] [3; 4; 0; -3; -4; 0]%Q]> env_molecule,
     Raise (TypeError "norm() got an unexpected keyword argument 'dim'"))
  ∧ with_onsitenv_vectors sqrt_floor true onsitenv_molecule
    = (<["onsitenv_vectors" := float_array [2; 3] [3; 4; 0; -3; -4; 0]%Q]>
         onsitenv_molecule,
       Raise (TypeError "norm() got an unexpected keyword argument 'dim'"))
  ∧ with_edge_vectors sqrt_floor true molecule
    = (<["edge_lengths" := float_array [2] [5; 5]%Q]>
         (<["edge_vectors" := float_array [2; 3] [3; 4; 0; -3; -4; 0]%Q]> molecule),
       Ok tt).
Proof. split; [|split]; vm_compute; reflexivity. Qed.

(** [with_batch] on a record without atoms. *)
Example with_batch_no_atoms :
  with_batch no_atoms
  = (<["batch" := int_array [0] []]> no_atoms, Raise ZeroDivisionError).
Proof. vm_compute; reflexivity. Qed.

Example with_batch_five_atoms :
  with_batch five_atoms
  = (<["ptr" := int_array [2] [0; 5]%Z]>
       (<["batch" := int_array [5] [0; 0; 0; 0; 0]%Z]> five_atoms), Ok tt).
Proof. vm_compute; reflexivity. Qed.


(** C4, witness: the environment function on the two-atom graph. *)
Lemma C4_witness :
  with_env_vectors sqrt_floor true env_molecule
  = (<["env_vectors" := float_array [2; 3] [3; 4; 0; -3; -4; 0]%Q]> env_molecule,
     Raise (TypeError "norm() got an unexpected keyword argument 'dim'")).
Proof.
  apply (proj2 (proj2 (C4_environment_lengths_raise (H:=default_keys) sqrt_floor
                         env env_molecule (or_introl eq_refl) ltac:(run)))
          cubic_pos cubic_index); run.
Defined.

(** C6, witness: the record without atoms. *)
Lemma C6_witness :
  with_batch no_atoms
  = (<["batch" := NdArray int64 [0] []]> no_atoms, Raise ZeroDivisionError).
Proof.
  apply (C6_with_batch_without_atoms (H:=default_keys) no_atoms
           (float_array [0; 3] []) [3]); run.
Defined.

(** C5, witness: [with_batch] on the dictionary of five atoms. *)
Lemma C5_witness :
  ∃ h', py_call (with_batch (H:=default_keys)) {[0 := five_atoms]} 0 = Some (h', Ok 0)
        ∧ ∃ d d', ({[0 := five_atoms]} : gmap loc _) !! 0 = Some d
                  ∧ h' !! 0 = Some d'
                  ∧ ∀ k, k ∉ ["batch"; "ptr"] → d' !! k = d !! k.
Proof.
  eexists. split; [run|].
  apply (proj2 (proj2 (proj2 (C5_operations_update_in_place (H:=default_keys)
                                sqrt_floor true)))
          {[0 := five_atoms]} 0 _ (Ok 0)).
  run.
Defined.


End Runs.

End AtomicDataDict_facts.

(** ** Facts about [parse] *)

Module parse_facts.
Import np state_exn_facts np_facts parse Examples BackendExamples.

Ltac run := vm_compute; reflexivity.

Section Validation.
Context `{KeyRegistry} `{Parser}.
Implicit Types s : gmap string ndarray.

Lemma shape_rank3 (l : list nat) :
  length l = 3 → l = [nth 0 l 0; nth 1 l 0; nth 2 l 0].
Proof. by destruct l as [|? [|? [|? [|? ?]]]]. Qed.

Lemma shape_rank1 (l : list nat) : length l = 1 → l = [nth 0 l 0].
Proof. by destruct l as [|? [|? ?]]. Qed.

Lemma check_structure_accepts idx s :
  check_structure idx (Some s) = Ok true ↔ valid_structure s.
Proof.
  unfold check_structure, j_must_have, valid_structure. cbn [mbind result_bind].
  split.
  - intros Hrun.
    destruct (s !! ATOMIC_NUMBERS_KEY) as [an|]; [|done].
    destruct (s !! POSITIONS_KEY) as [pos|]; [|done].
    destruct (s !! CELL_KEY) as [cell|]; [|done].
    destruct (s !! PBC_KEY) as [pbc|]; [|done].
    cbn [mbind result_bind] in Hrun.
    repeat match type of Hrun with
           | context [assert_ ?c ?m] =>
               let E := fresh "E" in
               destruct c eqn:E; [cbn [assert_ mbind result_bind] in Hrun | discriminate Hrun]
           end.
    repeat match goal with
           | E : _ && _ = true |- _ => apply andb_true_iff in E as [? ?]
           | E : bool_decide _ = true |- _ => apply bool_decide_eq_true in E
           end.
    exists an, pos, cell, pbc, (nth 0 (shape pos) 0), (nth 1 (shape pos) 0).
    repeat split; try done.
    + rewrite (shape_rank3 (shape pos)) at 1 by done. congruence.
    + rewrite (shape_rank3 (shape cell)) by done. congruence.
    + rewrite (shape_rank1 (shape an)) by done. congruence.
    + rewrite (shape_rank1 (shape pbc)) by done. congruence.
  - intros (an & pos & cell & pbc & n_frame & natom & -> & -> & -> & ->
            & Hp & Hc & Ha & Hb & Hd1 & Hd2 & Hd3 & Hd4).
    cbn [mbind result_bind].
    rewrite Hp, Hc, Ha, Hb, Hd1, Hd2, Hd3, Hd4. cbn. by rewrite !bool_decide_true.
Qed.

Lemma check_structure_total idx s :
  check_structure idx (Some s) = Ok true ∨ ∃ e, check_structure idx (Some s) = Raise e.
Proof.
  unfold check_structure, j_must_have. cbn [mbind result_bind].
  destruct (s !! ATOMIC_NUMBERS_KEY) as [an|]; [|eauto].
  destruct (s !! POSITIONS_KEY) as [pos|]; [|eauto].
  destruct (s !! CELL_KEY) as [cell|]; [|eauto].
  destruct (s !! PBC_KEY) as [pbc|]; [|eauto].
  cbn [mbind result_bind].
  repeat match goal with
         | |- context [assert_ ?c ?m] =>
             destruct c; cbn [assert_ mbind result_bind]
         end; eauto.
Qed.

(** C7.  Structure validation accepts a record exactly when it is a valid
    structure in the words of the spec: the four fields are present,
    positions have shape [(n_frame, natom, 3)], the cell [(n_frame, 3, 3)],
    the atomic numbers [(natom,)], the periodic flags [(3,)], and the
    dtypes are int32, float32, float32 and bool.  Validation never yields
    anything but [True] or an exception.  Positions of rank 2 are rejected
    with the shape error of the positions; 64-bit atomic numbers are always
    rejected, with the dtype error of the atomic numbers once the shapes
    are right. *)
Theorem C7_structure_validation idx s :
  (check_structure idx (Some s) = Ok true ↔ valid_structure s)
  ∧ (check_structure idx (Some s) = Ok true
     ∨ ∃ e, check_structure idx (Some s) = Raise e)
  ∧ (∀ atomic_number pos cell pbc,
       s !! ATOMIC_NUMBERS_KEY = Some atomic_number →
       s !! POSITIONS_KEY = Some pos →
       s !! CELL_KEY = Some cell →
       s !! PBC_KEY = Some pbc →
       (length (shape pos) = 2 →
        check_structure idx (Some s)
        = Raise (AssertionError "The shape of structure should be (n_frame, natom, 3)"))
       ∧ (dtype_of atomic_number = int64 →
          check_structure idx (Some s) ≠ Ok true
          ∧ (∀ n_frame natom,
               shape pos = [n_frame; natom; 3] → shape cell = [n_frame; 3; 3] →
               shape atomic_number = [natom] → shape pbc = [3] →
               check_structure idx (Some s)
               = Raise (AssertionError "The dtype of atomic_number should be int")))).
Proof.
  split; [apply check_structure_accepts|]. split; [apply check_structure_total|].
  intros an pos cell pbc Ha Hp Hc Hb. split.
  - intros Hrank. unfold check_structure, j_must_have. cbn [mbind result_bind].
    rewrite Ha, Hp, Hc, Hb. cbn [mbind result_bind].
    rewrite Hrank. rewrite (bool_decide_false (2 = 3)) by lia. reflexivity.
  - intros Hdt. split.
    + rewrite check_structure_accepts.
      intros (an' & ? & ? & ? & ? & ? & Ha' & _ & _ & _ & _ & _ & _ & _ & Hdt' & _).
      rewrite Ha in Ha'. injection Ha' as <-. congruence.
    + intros n_frame natom Hps Hcs Has Hbs.
      unfold check_structure, j_must_have. cbn [mbind result_bind].
      rewrite Ha, Hp, Hc, Hb. cbn [mbind result_bind].
      rewrite Hps, Hcs, Has, Hbs, Hdt. cbn.
      rewrite !(bool_decide_true (_ = _ :> nat)) by done. reflexivity.
Qed.
End Validation.

Section Dispatch.
Context `{KeyRegistry} `{Parser}.

(** C9.  For every format name outside hdf5, dat, ase and lmdb, [write]
    raises a [NotImplementedError] whose message carries the requested
    format and leaves the world as it was, whatever [write_dat] does; and
    for every mode that is not a key of the registry, [ParserRegister]
    raises an exception whose message carries the requested mode, runs no
    constructor and leaves the state as it was. *)
Theorem C9_unknown_names_fail :
  (∀ pid write_dat idx outroot format eigenvalue hamiltonian overlap
     density_matrix band_index_min (w : world),
     format ∉ ["hdf5"; "dat"; "ase"; "lmdb"] →
     write pid write_dat idx outroot format eigenvalue hamiltonian overlap
           density_matrix band_index_min w
     = (w, Raise (NotImplementedError
                    ("Format: " +:+ format +:+ " is not implemented!"))))
  ∧ (∀ (K P W : Type) (_register : Register (K:=K) (P:=P) (W:=W))
       (mode : string) (kwargs : K) (w : W),
       mode ∉ Register_keys _register →
       ParserRegister _register mode kwargs w
       = (w, Raise (Exception
                      ("Descriptor mode: " +:+ mode +:+ " is not registered!")))).
Proof.
  split.
  - intros pid write_dat idx outroot format ???? band w Hfmt. unfold write.
    rewrite (bool_decide_false (format = "hdf5"))
      by (intros ->; apply Hfmt; repeat constructor).
    rewrite (bool_decide_false (format ∈ ["dat"; "ase"])).
    2:{ intros Hin. apply Hfmt.
        inversion Hin as [|? ? ? Hin']; subst; [repeat constructor|].
        inversion Hin' as [|? ? ? Hin'']; subst; [repeat constructor|].
        inversion Hin''. }
    rewrite (bool_decide_false (format = "lmdb"))
      by (intros ->; apply Hfmt; repeat constructor).
    done.
  - intros K P W reg mode kwargs w Hreg. unfold ParserRegister.
    by rewrite bool_decide_false.
Qed.
End Dispatch.

Lemma byte_at_to_N n s :
  Byte.to_N (byte_at n s) = ((n / 2 ^ s) mod 256)%N.
Proof.
  unfold byte_at. rewrite N.shiftr_div_pow2.
  change 255%N with (N.ones 8). rewrite N.land_ones. change (2 ^ 8)%N with 256%N.
  destruct (Byte.of_N _) as [b|] eqn:E; cbn.
  - by apply Byte.to_of_N.
  - apply Byte.of_N_None_iff in E.
    pose proof (N.mod_upper_bound (n / 2 ^ s) 256). lia.
Qed.

Lemma from_bytes_key (n : nat) :
  (N.of_nat n < 2 ^ 32)%N → from_bytes_big (key_bytes n) = N.of_nat n.
Proof.
  intros Hn. unfold from_bytes_big, key_bytes. cbn [foldl].
  rewrite !byte_at_to_N.
  change (2 ^ 24)%N with 16777216%N. change (2 ^ 16)%N with 65536%N.
  change (2 ^ 8)%N with 256%N. change (2 ^ 0)%N with 1%N.
  change (2 ^ 32)%N with 4294967296%N in Hn.
  generalize dependent (N.of_nat n). intros x Hx.
  zify. Z.to_euclidean_division_equations. lia.
Qed.

Lemma key_bytes_inj (n m : nat) :
  (N.of_nat n < 2 ^ 32)%N → (N.of_nat m < 2 ^ 32)%N →
  key_bytes n = key_bytes m → n = m.
Proof.
  intros Hn Hm E. apply (f_equal from_bytes_big) in E.
  rewrite !from_bytes_key in E by done. lia.
Qed.

Lemma to_bytes4_big_key (n : nat) :
  (N.of_nat n < 2 ^ 32)%N → to_bytes4_big n = Ok (key_bytes n).
Proof. intros Hn. unfold to_bytes4_big. by rewrite decide_True. Qed.

Lemma to_bytes4_big_overflow (n : nat) :
  (2 ^ 32 <= N.of_nat n)%N → to_bytes4_big n = Raise OverflowError.
Proof. intros Hn. unfold to_bytes4_big. rewrite decide_False; [done | lia]. Qed.

Lemma sequential_store_empty value : sequential_store ∅ 0 value.
Proof.
  split; [done|]. split; [lia|].
  intros k [v Hv]. by rewrite lookup_empty in Hv.
Qed.

Lemma sequential_store_append store n value :
  (N.of_nat n < 2 ^ 32)%N →
  sequential_store store n value →
  sequential_store (<[key_bytes n := value n]> store) (S n) value.
Proof.
  intros Hn (Hsize & Hval & Hkeys).
  assert (store !! key_bytes n = None) as Hfresh.
  { destruct (store !! key_bytes n) as [v|] eqn:Hv; [|done].
    destruct (Hkeys (key_bytes n)) as (i & Hi & Hk); [eauto|].
    apply key_bytes_inj in Hk; lia. }
  split; [|split].
  - rewrite map_size_insert_None by done. by rewrite Hsize.
  - intros i Hi. destruct (decide (i = n)) as [->|Hne].
    + by rewrite lookup_insert_eq.
    + rewrite lookup_insert_ne.
      * apply Hval. lia.
      * intros Hk. apply key_bytes_inj in Hk; lia.
  - intros k Hk. destruct (decide (k = key_bytes n)) as [->|Hne].
    + exists n. split; [lia | done].
    + rewrite lookup_insert_ne in Hk by done.
      destruct (Hkeys k Hk) as (i & Hi & ->). exists i. split; [lia | done].
Qed.

Lemma lmdb_append_run env v w :
  (N.of_nat (base.size (entries_of w env)) < 2 ^ 32)%N →
  lmdb_append env v w
  = (World (directories w) (files w)
       (<[env := <[key_bytes (base.size (entries_of w env)) := v]> (entries_of w env)]>
          (lmdb_envs w)),
     Ok tt).
Proof.
  intros Hn. unfold lmdb_append. rewrite run_bind.
  unfold lmdb_stat_entries at 1. cbv beta iota.
  by rewrite to_bytes4_big_key, run_lift_Ok.
Qed.

Lemma lmdb_append_overflow env v w :
  (2 ^ 32 <= N.of_nat (base.size (entries_of w env)))%N →
  lmdb_append env v w = (w, Raise OverflowError).
Proof.
  intros Hn. unfold lmdb_append. rewrite run_bind.
  unfold lmdb_stat_entries at 1. cbv beta iota.
  by rewrite to_bytes4_big_overflow, run_lift_Raise.
Qed.

Lemma entries_of_put w env store :
  entries_of (World (directories w) (files w) (<[env := store]> (lmdb_envs w))) env
  = store.
Proof. unfold entries_of. cbn. by rewrite lookup_insert_eq. Qed.

(** The loop over the frames, from a store that holds the frames before
    [a]. *)
Lemma for_each_frames env (frame : nat → result (gmap string pyvalue))
    (frames : nat → gmap string pyvalue) k :
  ∀ a w,
    sequential_store (entries_of w env) a (fun i => pickle_dumps (frames i)) →
    (N.of_nat (a + k) <= 2 ^ 32)%N →
    (∀ i, a ≤ i < a + k → frame i = Ok (frames i)) →
    ∃ w', for_each (seq a k)
            (fun nf => data_dict ← lift (frame nf);
                       lmdb_append env (pickle_dumps data_dict)) w
          = (w', Ok tt)
          ∧ sequential_store (entries_of w' env) (a + k)
                             (fun i => pickle_dumps (frames i)).
Proof.
  induction k as [|k IH]; intros a w Hst Hbound Hframes.
  - exists w. rewrite Nat.add_0_r. done.
  - cbn [seq for_each]. rewrite run_bind.
    rewrite (Hframes a), run_lift_Ok by lia.
    pose proof Hst as (Hsize & _).
    rewrite lmdb_append_run by (rewrite Hsize; lia).
    rewrite Hsize.
    set (w1 := World _ _ _).
    destruct (IH (S a) w1) as (w' & Hrun & Hst').
    + unfold w1. rewrite entries_of_put.
      apply (sequential_store_append _ a (fun i => pickle_dumps (frames i)));
        [lia | done].
    + lia.
    + intros i Hi. apply Hframes. lia.
    + exists w'. rewrite Hrun. split; [done|].
      by replace (a + S k) with (S a + k) by lia.
Qed.

Section Writer.
Context `{KeyRegistry} `{Parser}.

Lemma frame_dict_tags structure eigstatus ham ovp dm
    (eigenvalue hamiltonian overlap density_matrix : bool) idx nf dd :
  frame_dict structure eigstatus ham ovp dm eigenvalue hamiltonian overlap
             density_matrix idx nf = Ok dd →
  dd !! "idx" = Some (PyInt idx) ∧ dd !! "nf" = Some (PyInt (Z.of_nat nf)).
Proof.
  unfold frame_dict. intros Hrun.
  repeat match type of Hrun with
         | (?m ≫= _) = Ok _ =>
             let E := fresh "E" in
             destruct m eqn:E; cbn [mbind result_bind] in Hrun; [|discriminate Hrun]
         end.
  injection Hrun as <-. split.
  - by rewrite lookup_insert_ne, lookup_insert_eq.
  - by rewrite lookup_insert_eq.
Qed.

(** A validated structure yields a mapping for each of its frames. *)
Lemma valid_structure_frames s idx :
  valid_structure s →
  ∃ pos n rest, s !! POSITIONS_KEY = Some pos ∧ shape pos = n :: rest
    ∧ ∀ nf, nf < n →
        ∃ dd, frame_dict s ∅ None None None false false false false idx nf = Ok dd.
Proof.
  intros (an & pos & cell & pbc & n_frame & natom & Ha & Hp & Hc & Hb
          & Hps & Hcs & _).
  exists pos, n_frame, [natom; 3]. split; [done|]. split; [done|].
  intros nf Hnf. unfold frame_dict, dict_get. rewrite Ha, Hc, Hp, Hb.
  cbn [mbind result_bind].
  rewrite (getitem_int_nat cell n_frame [3; 3]) by done. cbn [mbind result_bind].
  rewrite (getitem_int_nat pos n_frame [natom; 3]) by done. cbn [mbind result_bind].
  eauto.
Qed.

(** C8.  Writing a structure of [n] frames (at most [2^32], the range of
    a 4-byte key) with [write_lmdb] into an environment without entries
    succeeds when the per-frame mappings can be built, and leaves exactly
    [n] entries, the [i]-th under the 4-byte big-endian encoding of [i].
    The value of entry [i] unpickles to the mapping of frame [i], whose
    ["idx"] field is the source index given to the writer and whose
    ["nf"] field is [i].  Each append uses as its key the encoding of the
    number of entries the environment holds at that moment. *)
Theorem C8_lmdb_sequential_keys (pid : nat) (idx : Z) (outroot : string)
    (eigenvalue hamiltonian overlap density_matrix : bool) (band_index_min : Z)
    (w : world) (structure eigstatus : gmap string ndarray) (ham ovp dm : blocks)
    (pos : ndarray) (n : nat) (rest : list nat)
    (frames : nat → gmap string pyvalue) :
  let out_dir := path_join outroot ("data." +:+ pretty pid +:+ ".lmdb") in
  get_structure idx = Ok structure →
  (if hamiltonian || overlap || density_matrix
   then get_blocks idx hamiltonian overlap density_matrix
   else Ok (None, None, None)) = Ok (ham, ovp, dm) →
  (if eigenvalue then get_eigenvalue idx band_index_min else Ok ∅)
  = Ok eigstatus →
  structure !! POSITIONS_KEY = Some pos →
  shape pos = n :: rest →
  (∀ nf, nf < n →
     frame_dict structure eigstatus ham ovp dm eigenvalue hamiltonian overlap
                density_matrix idx nf = Ok (frames nf)) →
  entries_of w out_dir = ∅ →
  (N.of_nat n <= 2 ^ 32)%N →
  (∃ w',
     write_lmdb pid idx outroot eigenvalue hamiltonian overlap density_matrix
                band_index_min w = (w', Ok tt)
     ∧ sequential_store (entries_of w' out_dir) n
                        (fun i => pickle_dumps (frames i)))
  ∧ (∀ i, i < n →
       to_bytes4_big i = Ok (key_bytes i)
       ∧ from_bytes_big (key_bytes i) = N.of_nat i
       ∧ pickle_loads (pickle_dumps (frames i)) !! "idx" = Some (PyInt idx)
       ∧ pickle_loads (pickle_dumps (frames i)) !! "nf" = Some (PyInt (Z.of_nat i)))
  ∧ (∀ env v w0,
       (N.of_nat (base.size (entries_of w0 env)) < 2 ^ 32)%N →
       lmdb_append env v w0
       = (World (directories w0) (files w0)
            (<[env := <[key_bytes (base.size (entries_of w0 env)) := v]>
                        (entries_of w0 env)]> (lmdb_envs w0)),
          Ok tt)).
Proof.
  intros out_dir Hs Hb He Hp Hsh Hframes Hfresh Hn. split; [|split].
  - unfold write_lmdb. rewrite run_bind. unfold makedirs at 1. cbv beta iota.
    rewrite Hs, run_lift_Ok.
    assert ((if hamiltonian || overlap || density_matrix
             then lift (get_blocks idx hamiltonian overlap density_matrix)
             else mret (None, None, None))
            = (lift (Ok (ham, ovp, dm)) : state_exn world _)) as ->.
    { destruct (hamiltonian || overlap || density_matrix);
        [by rewrite Hb | by injection Hb as <- <- <-]. }
    rewrite run_lift_Ok.
    assert ((if eigenvalue then lift (get_eigenvalue idx band_index_min) else mret ∅)
            = (lift (Ok eigstatus) : state_exn world _)) as ->.
    { destruct eigenvalue; [by rewrite He | by injection He as <-]. }
    rewrite run_lift_Ok.
    unfold dict_get at 1. rewrite Hp, run_lift_Ok, Hsh, run_lift_Ok.
    rewrite run_bind. unfold lmdb_open at 1. cbv beta iota.
    cbn [directories files lmdb_envs]. fold out_dir.
    set (w1 := World _ _ _).
    assert (entries_of w1 out_dir = ∅) as Hfresh1.
    { unfold w1, entries_of in *. cbn [lmdb_envs].
      destruct (lmdb_envs w !! out_dir) as [st|] eqn:Hst.
      - by rewrite Hst.
      - by rewrite lookup_insert_eq. }
    destruct (for_each_frames out_dir
                (fun nf => frame_dict structure eigstatus ham ovp dm eigenvalue
                             hamiltonian overlap density_matrix idx nf)
                frames n 0 w1) as (w' & Hrun & Hst).
    + rewrite Hfresh1. apply sequential_store_empty.
    + done.
    + intros i Hi. apply Hframes. lia.
    + exists w'. split; [exact Hrun | exact Hst].
  - intros i Hi.
    assert (N.of_nat i < 2 ^ 32)%N as Hlt by lia.
    split; [by apply to_bytes4_big_key|]. split; [by apply from_bytes_key|].
    cbn [pickle_loads pickle_dumps]. eapply frame_dict_tags, Hframes, Hi.
  - intros env v w0. apply lmdb_append_run.
Qed.
End Writer.

Section Runs.
#[local] Existing Instance default_keys.
#[local] Existing Instance structure_backend.

Lemma two_frames_valid : valid_structure two_frames.
Proof.
  exists (NdArray int32 [1] [6%Q]), (float_array [2; 1; 3] [0; 0; 0; 1; 2; 3]%Q),
         (float_array [2; 3; 3] (replicate 18 1%Q)), (NdArray bool8 [3] [1; 1; 1]%Q),
         2, 1.
  repeat split; run.
Defined.

(** C7, witness: a valid record of two frames, the same with positions of
    rank 2, and the same with 64-bit atomic numbers. *)
Lemma C7_witness :
  check_structure 0 (Some two_frames) = Ok true
  ∧ check_structure 0 (Some rank2_positions)
    = Raise (AssertionError "The shape of structure should be (n_frame, natom, 3)")
  ∧ check_structure 0 (Some int64_numbers)
    = Raise (AssertionError "The dtype of atomic_number should be int").
Proof.
  split; [|split].
  - apply (proj1 (C7_structure_validation 0 two_frames)). exact two_frames_valid.
  - refine (proj1 (proj2 (proj2 (C7_structure_validation 0 rank2_positions))
                     _ _ _ _ _ _ _ _) _); run.
  - refine (proj2 (proj2 (proj2 (proj2 (C7_structure_validation 0 int64_numbers))
                            _ _ _ _ _ _ _ _) _) 2 1 _ _ _ _); run.
Defined.

(** C8, witness: two frames written for source index 7 by process 42. *)
Lemma C8_witness :
  ∃ w',
    write_lmdb 42 7 "out" false false false false 0 empty_world = (w', Ok tt)
    ∧ sequential_store (entries_of w' "out/data.42.lmdb") 2
                       (fun i => pickle_dumps (two_frame_dicts i)).
Proof.
  refine (proj1 (C8_lmdb_sequential_keys 42 7 "out" false false false false 0
                   empty_world two_frames ∅ None None None
                   (float_array [2; 1; 3] [0; 0; 0; 1; 2; 3]%Q) 2 [1; 3]
                   two_frame_dicts _ _ _ _ _ _ _ _)); try run.
  - intros [|[|nf]] Hnf; [run | run | lia].
  - vm_compute. discriminate.
Defined.

(** C9, witness: the format xyz, and the mode abacus in a registry that
    knows vasp only. *)
Lemma C9_witness :
  write 42 no_write_dat 7 "out" "xyz" false false false false 0 empty_world
  = (empty_world, Raise (NotImplementedError "Format: xyz is not implemented!"))
  ∧ ParserRegister (K:=unit) (P:=Parser) (W:=world)
      {[ "vasp" := fun _ => mret structure_backend ]} "abacus" tt empty_world
    = (empty_world, Raise (Exception "Descriptor mode: abacus is not registered!")).
Proof.
  split.
  - apply (proj1 C9_unknown_names_fail).
    apply (bool_decide_unpack _). vm_compute. exact I.
  - apply (proj2 C9_unknown_names_fail).
    apply (bool_decide_unpack _). vm_compute. exact I.
Defined.

End Runs.

End parse_facts.

(** ** More on the record operations: errors, edge cases, composition *)

Module AtomicDataDict_more.
Import np state_exn_facts np_facts Dict AtomicDataDict Reference Examples.
Import AtomicDataDict_facts AtomicDataDict_keys Comparison MoreExamples.

Ltac evaluate := vm_compute; reflexivity.

(** ** More on [AtomicDataDict]: errors, edge cases, composition *)

Lemma norm_index_outside n q :
  ¬ in_axis n q → norm_index n (Qfloor q) = Raise IndexError.
Proof.
  unfold in_axis, norm_index. intros Hq.
  destruct ((0 <=? Qfloor q) && (Qfloor q <? Z.of_nat n))%Z eqn:E1.
  { apply andb_true_iff in E1. lia. }
  destruct ((- Z.of_nat n <=? Qfloor q) && (Qfloor q <? 0))%Z eqn:E2; [|done].
  apply andb_true_iff in E2. lia.
Qed.

#[local] Instance in_axis_dec n q : Decision (in_axis n q).
Proof. unfold in_axis. apply _. Defined.

Lemma rmap_index_outside (a : ndarray) n (l : list Q) :
  ¬ Forall (in_axis n) l →
  rmap (fun q => i ← norm_index n (Qfloor q); Ok (row a i)) l = Raise IndexError.
Proof.
  induction l as [|q l IH]; intros Hl.
  - destruct Hl. constructor.
  - cbn [rmap]. destruct (decide (in_axis n q)) as [Hq|Hq].
    + rewrite norm_index_in_axis by done. cbn [mbind result_bind].
      rewrite IH; [done|]. intros Hl'. apply Hl. by constructor.
    + by rewrite norm_index_outside.
Qed.

Lemma getitem_array_outside (a idx : ndarray) n rest :
  is_integer (dtype_of idx) = true → shape a = n :: rest →
  ¬ Forall (in_axis n) (data idx) →
  getitem_array a idx = Raise IndexError.
Proof.
  intros Hint Hs Hr. unfold getitem_array. rewrite Hint, Hs.
  by rewrite rmap_index_outside.
Qed.

Lemma block_halves (l : list Q) n :
  length l = 2 * n → l = block n l 0 ++ block n l 1.
Proof.
  intros Hl. unfold block. cbn [Nat.mul Nat.add]. rewrite Nat.add_0_r.
  cbn [drop]. rewrite <- (take_drop n l) at 1. f_equal.
  rewrite take_ge; [done|]. rewrite length_drop. lia.
Qed.

Lemma pair_difference_outside (pos index : ndarray) n_atom n_edge rest :
  shape pos = n_atom :: rest →
  is_integer (dtype_of index) = true →
  shape index = [2; n_edge] → length (data index) = 2 * n_edge →
  ¬ Forall (in_axis n_atom) (data index) →
  pair_difference pos index = Raise IndexError.
Proof.
  intros Hps Hint His Hil Hbad. unfold pair_difference.
  change 1%Z with (Z.of_nat 1). change 0%Z with (Z.of_nat 0).
  rewrite (getitem_int_nat index 2 [n_edge] 1), bind_Ok by (done || lia).
  destruct (decide (Forall (in_axis n_atom) (row index 1))) as [Htgt|Htgt].
  - rewrite (getitem_array_gather pos _ n_atom rest), bind_Ok by done.
    rewrite (getitem_int_nat index 2 [n_edge] 0), bind_Ok by (done || lia).
    rewrite (getitem_array_outside pos _ n_atom rest); [done..|].
    cbn [data]. intros Hsrc. apply Hbad.
    rewrite (block_halves (data index) n_edge) by done.
    apply Forall_app. unfold row in *. rewrite His in *. cbn in Htgt, Hsrc.
    rewrite Nat.mul_1_r in *. done.
  - by rewrite (getitem_array_outside pos _ n_atom rest).
Qed.

Lemma block_as_map k (l : list Q) e :
  (e + 1) * k ≤ length l →
  block k l e = map (fun j => getq l (e * k + j)) (seq 0 k).
Proof.
  intros Hl. apply list_eq. intros j. destruct (decide (j < k)) as [Hj|Hj].
  - rewrite lookup_block, list_lookup_fmap, lookup_seq_lt by done. cbn.
    apply lookup_getq. nia.
  - rewrite !lookup_ge_None_2; [done | |].
    + rewrite length_map, length_seq. lia.
    + rewrite length_block by done. lia.
Qed.

Section Errors.
Context `{KeyRegistry} (sqrt : Q → Q).
Implicit Types d : gmap string ndarray.

(** X1.  The fields a derivation needs, in the order the code asks for
    them.  On a record without the vectors of relation [r]: without
    positions the call raises the [KeyError] of the positions; with
    positions but without the pair index, the [KeyError] of the index; when
    the cell holds 3x3 matrices and passes the cell test, without the cell
    shift, the [KeyError] of the cell shift; and with a cell shift and two
    or more matrices but without a batch index, the [KeyError] of the batch
    index.
    In each case the record is left as it was. *)
Theorem missing_fields_are_KeyErrors (r : relation) (wl : bool) d :
  d !! vectors_key r = None →
  (d !! POSITIONS_KEY = None →
   with_vectors sqrt r wl d = (d, Raise (KeyError POSITIONS_KEY)))
  ∧ (is_Some (d !! POSITIONS_KEY) → d !! index_key r = None →
     with_vectors sqrt r wl d = (d, Raise (KeyError (index_key r))))
  ∧ (∀ pos index v cell,
       d !! POSITIONS_KEY = Some pos → d !! index_key r = Some index →
       pair_difference pos index = Ok v →
       d !! CELL_KEY = Some cell → (cell_eps < sum_abs cell)%Q →
       size cell `mod` 9 = 0 →
       (d !! cell_shift_key r = None →
        with_vectors sqrt r wl d = (d, Raise (KeyError (cell_shift_key r))))
       ∧ (is_Some (d !! cell_shift_key r) → 18 ≤ size cell →
          d !! BATCH_KEY = None →
          with_vectors sqrt r wl d = (d, Raise (KeyError BATCH_KEY)))).
Proof.
  intros Hv. split; [|split].
  - rewrite (with_vectors_absent_cases sqrt r wl d Hv). by intros ->.
  - rewrite (with_vectors_absent_cases sqrt r wl d Hv). intros [pos ->] ->. done.
  - intros pos index v cell Hp Hi Hd Hc Hgt Hsz.
    rewrite (with_vectors_absent sqrt r wl d pos index v Hv Hp Hi Hd).
    rewrite (cell_test_value_above d cell) by done.
    rewrite run_bind. unfold periodic_correction.
    rewrite (run_getitem _ cell) by done.
    unfold reshape_m1_3_3. rewrite decide_True, run_lift_Ok by done.
    split.
    + intros Hs. by rewrite run_getitem_None.
    + intros [shift Hs] Hbig Hb. rewrite (run_getitem _ shift) by done.
      cbn [shape nth]. rewrite bool_decide_true.
      * by rewrite run_getitem_None.
      * apply (Nat.Div0.div_le_mono _ _ 9) in Hbig.
        change (18 `div` 9) with 2 in Hbig. lia.
Qed.

(** X2.  A pair index that names an atom outside the positions (an entry
    outside [-n_atom, n_atom)) makes the derivation raise [IndexError],
    whatever the relation and the cell, and leaves the record as it
    was. *)
Theorem index_out_of_range_is_IndexError (r : relation) (wl : bool) d
    pos index n_atom n_edge rest :
  d !! vectors_key r = None →
  d !! POSITIONS_KEY = Some pos → d !! index_key r = Some index →
  shape pos = n_atom :: rest →
  is_integer (dtype_of index) = true →
  shape index = [2; n_edge] → length (data index) = 2 * n_edge →
  ¬ Forall (in_axis n_atom) (data index) →
  with_vectors sqrt r wl d = (d, Raise IndexError).
Proof.
  intros Hv Hp Hi Hps Hint His Hil Hbad.
  rewrite (with_vectors_absent_cases sqrt r wl d Hv), Hp, Hi.
  by rewrite (pair_difference_outside pos index n_atom n_edge rest).
Qed.

(** X3.  A derivation that raises has changed nothing, with one exception:
    when lengths were requested on a record without vectors, the vectors
    may have been stored before the norm raised; nothing else was
    written. *)
Theorem failed_derivation_leaves_record (r : relation) (wl : bool) d d' e :
  with_vectors sqrt r wl d = (d', Raise e) →
  d' = d
  ∨ (wl = true ∧ d !! vectors_key r = None
     ∧ ∃ v, d' = <[vectors_key r := v]> d
            ∧ linalg_norm sqrt (build_norm_kw r) v = Raise e).
Proof.
  intros Hrun. destruct (d !! vectors_key r) as [vec|] eqn:Hv.
  - rewrite (with_vectors_present sqrt r wl d vec Hv) in Hrun.
    destruct (wl && _); [|done].
    destruct (linalg_norm sqrt kw_axis vec); [done|].
    injection Hrun as <- _. by left.
  - destruct (with_vectors_absent_inv sqrt r wl d Hv) as [[e' He] | [v Hs]].
    + rewrite He in Hrun. injection Hrun as <- _. by left.
    + rewrite Hs, store_vectors_run in Hrun. destruct wl; [|done].
      destruct (linalg_norm sqrt (build_norm_kw r) v) as [l|e'] eqn:Hn; [done|].
      injection Hrun as <- <-. right. eauto.
Qed.

(** X4.  After a successful call with lengths requested, on a record that
    lacked the lengths or the vectors, the record holds both, and the
    lengths are [np.linalg.norm(vectors, axis=-1)]: for vectors of shape
    [(n, 3)] the lengths have shape [(n,)] and entry [e] is the square root
    of the sum of the squares of the three components of vector [e]. *)
Theorem lengths_are_norms_of_vectors (r : relation) d d' :
  r = edge ∨ r = env ∨ r = onsitenv →
  with_vectors sqrt r true d = (d', Ok tt) →
  d !! length_key r = None ∨ d !! vectors_key r = None →
  ∃ vec length,
    d' !! vectors_key r = Some vec
    ∧ d' !! length_key r = Some length
    ∧ linalg_norm_last sqrt vec = Ok length
    ∧ ∀ n, shape vec = [n; 3] → base.length (data vec) = n * 3 →
        shape length = [n]
        ∧ ∀ e, e < n →
            getq (data length) e
            = sqrt (Qsum (map (fun j => (getq (data vec) (e * 3 + j)
                                         * getq (data vec) (e * 3 + j))%Q)
                              (seq 0 3))).
Proof.
  intros Hr Hrun Habsent.
  destruct (three_relations_distinct r Hr) as (Hne & _ & _).
  assert (∃ vec length, d' !! vectors_key r = Some vec
            ∧ d' !! length_key r = Some length
            ∧ linalg_norm_last sqrt vec = Ok length) as (vec & len & Hv' & Hl' & Hn).
  { destruct (d !! vectors_key r) as [vec|] eqn:Hv.
    - destruct Habsent as [Hl|?]; [|done].
      rewrite (with_vectors_present sqrt r true d vec Hv), Hl in Hrun.
      rewrite bool_decide_false in Hrun by (by intros [? ?]). cbn in Hrun.
      destruct (linalg_norm_last sqrt vec) as [l|] eqn:Hn; [|done].
      injection Hrun as <-. exists vec, l.
      by rewrite lookup_insert_ne, lookup_insert_eq.
    - destruct (with_vectors_absent_inv sqrt r true d Hv) as [[e' He] | [v Hs]];
        [congruence|].
      rewrite Hs, store_vectors_run in Hrun.
      destruct (linalg_norm sqrt (build_norm_kw r) v) as [l|] eqn:Hn; [|done].
      injection Hrun as <-. exists v, l.
      rewrite lookup_insert_ne, !lookup_insert_eq by done.
      repeat split; try done.
      destruct (build_norm_kw r); [done | discriminate Hn]. }
  exists vec, len. split; [done|]. split; [done|]. split; [done|].
  intros n Hs Hlen. destruct vec as [t s l]. cbn in Hs, Hlen. subst s.
  rewrite linalg_norm_last_matrix in Hn. injection Hn as <-. cbn [shape data].
  split; [done|]. intros e He. apply getq_lookup.
  rewrite list_lookup_fmap, lookup_seq_lt by done. cbn -[block seq].
  unfold norm2. rewrite (block_as_map 3 l e) by lia.
  by rewrite map_map.
Qed.
End Errors.




Section Formulas.
Context `{KeyRegistry} (sqrt : Q → Q).
Implicit Types d : gmap string ndarray.

Lemma stores_per_pair_no_lengths r t n g d :
  stores_per_pair
    (store_vectors sqrt r false (NdArray t [n; 3] (per_item n 3 g)) d)
    (vectors_key r) n g.
Proof.
  rewrite store_vectors_run.
  exists (<[vectors_key r := NdArray t [n; 3] (per_item n 3 g)]> d),
         (NdArray t [n; 3] (per_item n 3 g)).
  split; [done|]. split; [by rewrite lookup_insert_eq|]. split; [done|].
  intros e j He Hj. cbn [data]. apply getq_lookup. by apply lookup_per_item.
Qed.

(** X5.  Without lengths requested, the environment and the
    on-site-environment functions build their vectors as the edge function
    does: the plain differences when the cell test fails, the differences
    plus [shift · cell] for a single cell, and plus
    [shift · cell[batch[source]]] for a stack of cells; the length field is
    left as it was. *)
Theorem vectors_of_any_relation_without_lengths (r : relation) d
    n_atom n_edge pos index :
  r = edge ∨ r = env ∨ r = onsitenv →
  d !! vectors_key r = None →
  d !! POSITIONS_KEY = Some pos →
  d !! index_key r = Some index →
  pair_graph n_atom n_edge pos index →
  (with_vectors sqrt r false d).1 !! length_key r = d !! length_key r
  ∧ (cell_test_value d = false →
     stores_per_pair (with_vectors sqrt r false d) (vectors_key r) n_edge
                     (plain n_atom n_edge pos index))
  ∧ (∀ cell cell_shift,
       d !! CELL_KEY = Some cell → d !! cell_shift_key r = Some cell_shift →
       (cell_eps < sum_abs cell)%Q → shape cell_shift = [n_edge; 3] →
       (base.length (data cell) = 9 →
        stores_per_pair (with_vectors sqrt r false d) (vectors_key r) n_edge
          (fun e j => (plain n_atom n_edge pos index e j
                       + shift_dot_cell cell_shift (data cell) 0 e j)%Q))
       ∧ (∀ n_cell batch,
            d !! BATCH_KEY = Some batch → batch_index n_atom n_cell batch →
            base.length (data cell) = n_cell * 9 → 1 < n_cell →
            stores_per_pair (with_vectors sqrt r false d) (vectors_key r) n_edge
              (fun e j =>
                 (plain n_atom n_edge pos index e j
                  + shift_dot_cell cell_shift (data cell)
                      (batch_of_source n_atom index n_cell batch e) e j)%Q))).
Proof.
  intros Hr Hv Hp Hi G.
  destruct (three_relations_distinct r Hr) as (Hne & _ & _).
  pose proof (pair_difference_plain _ _ _ _ G) as Hd.
  pose proof (with_vectors_absent sqrt r false d pos index _ Hv Hp Hi Hd) as Hrun.
  split; [|split].
  - destruct (with_vectors_absent_inv sqrt r false d Hv) as [[e ->] | [v ->]];
      [done|].
    rewrite store_vectors_run. cbn [fst]. by rewrite lookup_insert_ne.
  - intros Hgate. rewrite Hrun, Hgate. apply stores_per_pair_no_lengths.
  - intros cell cell_shift Hc Hs Hgt Hss. rewrite Hrun.
    rewrite (cell_test_value_above d cell) by done. rewrite run_bind. split.
    + intros Hsz.
      rewrite (periodic_correction_single r index _ d cell cell_shift _ n_edge
                 (plain n_atom n_edge pos index)) by done.
      apply stores_per_pair_no_lengths.
    + intros n_cell batch Hb B Hsz Hn.
      rewrite (periodic_correction_batched r pos index _ d cell cell_shift batch _
                 n_atom n_edge n_cell (plain n_atom n_edge pos index)) by done.
      apply stores_per_pair_no_lengths.
Qed.
End Formulas.

Section Ignore.
Context `{KeyRegistry} (sqrt : Q → Q).
Implicit Types d : gmap string ndarray.

Lemma periodic_correction_ignores r index v d k o :
  k ≠ CELL_KEY → k ≠ cell_shift_key r →
  (k = BATCH_KEY → ∀ cell, d !! CELL_KEY = Some cell → size cell < 18) →
  periodic_correction r index v (set_field k o d)
  = (set_field k o d, (periodic_correction r index v d).2).
Proof.
  intros Hkc Hks Hkb. unfold periodic_correction.
  destruct (d !! CELL_KEY) as [c|] eqn:Hc.
  - rewrite (run_getitem _ c _ d) by done.
    rewrite (run_getitem _ c) by (by rewrite lookup_set_field_ne).
    unfold reshape_m1_3_3. case_decide as Hm; [|done]. rewrite !run_lift_Ok.
    destruct (d !! cell_shift_key r) as [s|] eqn:Hs.
    + rewrite (run_getitem _ s _ d) by done.
      rewrite (run_getitem _ s) by (by rewrite lookup_set_field_ne).
      cbn [shape nth]. case_bool_decide as Hn; [|done].
      destruct (decide (k = BATCH_KEY)) as [->|Hne].
      * specialize (Hkb eq_refl c eq_refl).
        assert (size c `div` 9 < 2); [|lia].
        apply Nat.Div0.div_lt_upper_bound. lia.
      * destruct (d !! BATCH_KEY) as [b|] eqn:Hb.
        -- rewrite (run_getitem _ b _ d) by done.
           by rewrite (run_getitem _ b) by (by rewrite lookup_set_field_ne).
        -- rewrite (run_getitem_None _ _ d) by done.
           by rewrite run_getitem_None by (by rewrite lookup_set_field_ne).
    + rewrite (run_getitem_None _ _ d) by done.
      by rewrite run_getitem_None by (by rewrite lookup_set_field_ne).
  - rewrite (run_getitem_None _ _ d) by done.
    by rewrite run_getitem_None by (by rewrite lookup_set_field_ne).
Qed.

Lemma store_vectors_set_field r wl v d k o :
  k ≠ vectors_key r → k ≠ length_key r →
  store_vectors sqrt r wl v (set_field k o d)
  = (set_field k o (store_vectors sqrt r wl v d).1, (store_vectors sqrt r wl v d).2).
Proof.
  intros Hkv Hkl. rewrite !store_vectors_run.
  destruct wl; [destruct (linalg_norm _ _ _)|]; cbn [fst snd];
    by rewrite ?insert_set_field.
Qed.

Lemma with_vectors_ignores_field r wl d k o :
  Forall (fun k' => k ≠ k') (other_fields r) →
  k ≠ cell_shift_key r →
  (k = BATCH_KEY → ∀ cell, d !! CELL_KEY = Some cell → size cell < 18) →
  with_vectors sqrt r wl (set_field k o d)
  = (set_field k o (with_vectors sqrt r wl d).1, (with_vectors sqrt r wl d).2).
Proof.
  intros Hk Hks Hkb.
  apply Forall_cons in Hk as [Hkv Hk]. apply Forall_cons in Hk as [Hkl Hk].
  apply Forall_cons in Hk as [Hkp Hk]. apply Forall_cons in Hk as [Hki Hk].
  apply Forall_cons in Hk as [Hkc _].
  assert (cell_test_value (set_field k o d) = cell_test_value d) as Hgate.
  { unfold cell_test_value. by rewrite lookup_set_field_ne. }
  destruct (d !! vectors_key r) as [vec|] eqn:Hv.
  - rewrite (with_vectors_present sqrt r wl d vec Hv).
    rewrite (with_vectors_present sqrt r wl (set_field k o d) vec)
      by (by rewrite lookup_set_field_ne).
    rewrite (lookup_set_field_ne k (length_key r)) by done.
    destruct (wl && _); [|done].
    destruct (linalg_norm sqrt kw_axis vec); cbn [fst snd]; [|done].
    by rewrite insert_set_field.
  - rewrite (with_vectors_absent_cases sqrt r wl d Hv).
    rewrite (with_vectors_absent_cases sqrt r wl (set_field k o d))
      by (by rewrite lookup_set_field_ne).
    rewrite !lookup_set_field_ne by done. rewrite Hgate.
    destruct (d !! POSITIONS_KEY) as [pos|]; [|done].
    destruct (d !! index_key r) as [index|]; [|done].
    destruct (pair_difference pos index) as [v|e]; [|done].
    destruct (cell_test_value d); [|by apply store_vectors_set_field].
    rewrite !run_bind, periodic_correction_ignores by done.
    pose proof (periodic_correction_state r index v d) as Hst.
    destruct (periodic_correction r index v d) as [d0 [v'|e]];
      cbn [fst snd] in *; subst d0; [|done].
    by apply store_vectors_set_field.
Qed.

(** X6.  On a record of at least one atom without a batch index, whose
    cell, if it has one, holds fewer than two 3x3 matrices, [with_batch] and
    a derivation commute: deriving the
    vectors after [with_batch] gives the same record and the same outcome
    as deriving them first and calling [with_batch] then, and both calls of
    [with_batch] succeed.  The derivation does not read the batch index or
    the batch pointer of such a record. *)
Theorem batch_then_vectors_commute (r : relation) (wl : bool) d pos n rest :
  r = edge ∨ r = env ∨ r = onsitenv →
  d !! BATCH_KEY = None →
  d !! POSITIONS_KEY = Some pos → shape pos = n :: rest → 0 < n →
  (∀ cell, d !! CELL_KEY = Some cell → size cell < 18) →
  with_vectors sqrt r wl (with_batch d).1
  = ((with_batch (with_vectors sqrt r wl d).1).1, (with_vectors sqrt r wl d).2)
  ∧ (with_batch d).2 = Ok tt
  ∧ (with_batch (with_vectors sqrt r wl d).1).2 = Ok tt.
Proof.
  intros Hr Hb Hp Hs Hn Hcell.
  assert (Forall (fun k' => BATCH_PTR_KEY ≠ k') (other_fields r)
          ∧ BATCH_PTR_KEY ≠ cell_shift_key r ∧ BATCH_KEY ≠ cell_shift_key r
          ∧ POSITIONS_KEY ≠ vectors_key r ∧ POSITIONS_KEY ≠ length_key r)
    as (Hptr & Hptrs & Hbs & Hpv & Hpl).
  { destruct Hr as [-> | [-> | ->]];
      (split; [unfold other_fields; cbn; repeat constructor; key_ne|]);
      repeat split; cbn; key_ne. }
  destruct (three_relations_distinct r Hr) as (_ & _ & Hbatch).
  pose proof Hbatch as Hbatch'.
  apply Forall_cons in Hbatch' as [Hbv Hbatch']. apply Forall_cons in Hbatch' as [Hbl _].
  rewrite (with_batch_absent d pos n rest) by done. cbn [fst snd].
  rewrite (with_batch_absent (with_vectors sqrt r wl d).1 pos n rest);
    [| by rewrite with_vectors_frame | by rewrite with_vectors_frame | done..].
  cbn [fst snd]. split; [|done].
  set (b := NdArray int64 [n] (replicate n 0%Q)).
  set (ptr := NdArray int64 [2] [inject_Z 0; inject_Z (Z.of_nat n)]).
  pose proof (with_vectors_ignores_field r wl d BATCH_KEY (Some b) Hbatch
                (fun E => Hbs E) (fun _ => Hcell)) as E1.
  assert (BATCH_PTR_KEY ≠ BATCH_KEY) as Hpb by key_ne.
  pose proof (with_vectors_ignores_field r wl (<[BATCH_KEY := b]> d)
                BATCH_PTR_KEY (Some ptr) Hptr Hptrs
                (fun E => match Hpb E with end)) as E2.
  cbn [set_field] in E1, E2. rewrite E2, E1. done.
Qed.
End Ignore.


Lemma source_lt n_atom n_edge pos index e :
  pair_graph n_atom n_edge pos index → e < n_edge → source n_atom index e < n_atom.
Proof.
  intros G He. apply axis_index_lt.
  pose proof (index_range _ _ _ _ G) as Hr. rewrite Forall_lookup in Hr.
  apply (Hr e). apply lookup_getq. rewrite (index_size _ _ _ _ G). lia.
Qed.



Section Stack.
Context `{KeyRegistry} (sqrt : Q → Q).
Implicit Types d : gmap string ndarray.


End Stack.

Section Batch.
Context `{KeyRegistry}.
Implicit Types d : gmap string ndarray.

(** X8.  On a record of [n > 0] atoms without a batch index, [with_batch]
    succeeds: it stores an int64 batch index of [n] zeros, which assigns
    every atom to structure 0 of one, and the pointer [[0, n]], and leaves
    every other field as it was. *)
Theorem with_batch_one_structure d pos n rest :
  d !! BATCH_KEY = None → d !! POSITIONS_KEY = Some pos →
  shape pos = n :: rest → 0 < n →
  ∃ d' batch,
    with_batch d = (d', Ok tt)
    ∧ d' !! BATCH_KEY = Some batch
    ∧ batch_index n 1 batch
    ∧ dtype_of batch = int64
    ∧ (∀ i, i < n → getq (data batch) i = 0%Q)
    ∧ d' !! BATCH_PTR_KEY
      = Some (NdArray int64 [2] [inject_Z 0; inject_Z (Z.of_nat n)])
    ∧ ∀ k, k ≠ BATCH_KEY → k ≠ BATCH_PTR_KEY → d' !! k = d !! k.
Proof.
  intros Hb Hp Hs Hn. rewrite (with_batch_absent d pos n rest) by done.
  assert (BATCH_KEY ≠ BATCH_PTR_KEY) as Hne by key_ne.
  eexists _, _. split; [done|].
  split; [by rewrite lookup_insert_ne, lookup_insert_eq by (by apply not_eq_sym)|].
  split; [|split; [done|split; [|split]]].
  - split; [done | done | apply length_replicate |].
    cbn [data]. apply Forall_replicate. unfold in_axis. vm_compute.
    split; [discriminate | reflexivity].
  - intros i Hi. cbn [data]. apply getq_lookup. by apply lookup_replicate_2.
  - by rewrite lookup_insert_eq.
  - intros k Hk1 Hk2. by rewrite !lookup_insert_ne by (by apply not_eq_sym).
Qed.

(** X9.  A second [with_batch] always succeeds and changes nothing, when
    the record had a batch index or positions with a first axis: also after
    a first call that failed.  On a record without atoms the first call
    raises [ZeroDivisionError] and leaves the batch pointer as it was; the
    second call then reports success although no pointer was stored. *)
Theorem with_batch_second_call d :
  (is_Some (d !! BATCH_KEY)
   ∨ ∃ pos n rest, d !! POSITIONS_KEY = Some pos ∧ shape pos = n :: rest) →
  with_batch (with_batch d).1 = ((with_batch d).1, Ok tt)
  ∧ (∀ pos rest, d !! BATCH_KEY = None → d !! POSITIONS_KEY = Some pos →
       shape pos = 0 :: rest →
       (with_batch d).2 = Raise ZeroDivisionError
       ∧ (with_batch d).1 !! BATCH_PTR_KEY = d !! BATCH_PTR_KEY).
Proof.
  intros Hd. assert (BATCH_PTR_KEY ≠ BATCH_KEY) as Hne by key_ne. split.
  - apply with_batch_present.
    destruct (d !! BATCH_KEY) as [b|] eqn:Hb.
    { rewrite with_batch_present by (by rewrite Hb). cbn. by rewrite Hb. }
    destruct Hd as [[? [=]] | (pos & n & rest & Hp & Hs)].
    unfold with_batch. rewrite run_contains, Hb.
    rewrite bool_decide_false by (by intros [? ?]).
    rewrite (run_getitem _ pos) by done.
    unfold len. rewrite Hs, run_lift_Ok, run_setitem.
    destruct (arange _ _ _ _) as [ptr|e];
      [rewrite run_lift_Ok | rewrite run_lift_Raise]; cbn [fst setitem].
    + by rewrite lookup_insert_ne, lookup_insert_eq.
    + by rewrite lookup_insert_eq.
  - intros pos rest Hb Hp Hs.
    unfold with_batch. rewrite run_contains, Hb.
    rewrite bool_decide_false by (by intros [? ?]).
    rewrite (run_getitem _ pos) by done.
    unfold len. rewrite Hs, run_lift_Ok, run_setitem.
    unfold arange. rewrite decide_True by done. rewrite run_lift_Raise.
    split; [done|]. cbn [fst]. by rewrite lookup_insert_ne by (by apply not_eq_sym).
Qed.

(** X10.  [with_batch] on a record without a batch index needs the
    positions: without them it raises their [KeyError], and with positions
    of rank 0 the [TypeError] of [len]; the record is left as it was. *)
Theorem with_batch_needs_positions d :
  d !! BATCH_KEY = None →
  (d !! POSITIONS_KEY = None →
   with_batch d = (d, Raise (KeyError POSITIONS_KEY)))
  ∧ (∀ pos, d !! POSITIONS_KEY = Some pos → shape pos = [] →
       with_batch d = (d, Raise (TypeError "len() of unsized object"))).
Proof.
  intros Hb. split.
  - intros Hp. unfold with_batch. rewrite run_contains, Hb.
    rewrite bool_decide_false by (by intros [? ?]).
    by rewrite run_getitem_None.
  - intros pos Hp Hs. unfold with_batch. rewrite run_contains, Hb.
    rewrite bool_decide_false by (by intros [? ?]).
    rewrite (run_getitem _ pos) by done.
    unfold len. rewrite Hs. by rewrite run_lift_Raise.
Qed.
End Batch.

Lemma Forall2_per_item n k f g :
  (∀ e j, e < n → j < k → (f e j == g e j)%Q) →
  Forall2 Qeq (per_item n k f) (per_item n k g).
Proof.
  intros Hfg. apply Forall2_same_length_lookup. split.
  - by rewrite !length_per_item.
  - intros i x y Hx Hy.
    assert (i < n * k) as Hi.
    { apply lookup_lt_Some in Hx. by rewrite length_per_item in Hx. }
    assert (k ≠ 0) as Hk by (intros ->; lia).
    assert (i = i `div` k * k + i `mod` k) as Hdm
      by (rewrite Nat.mul_comm; apply Nat.div_mod_eq).
    assert (i `div` k < n) as He by (apply Nat.Div0.div_lt_upper_bound; lia).
    assert (i `mod` k < k) as Hj by (by apply Nat.mod_upper_bound).
    rewrite Hdm in Hx, Hy.
    rewrite lookup_per_item in Hx, Hy by done.
    injection Hx as <-. injection Hy as <-. by apply Hfg.
Qed.

Lemma add_same_values (v v' corr : ndarray) :
  same_values v v' →
  match add v corr, add v' corr with
  | Ok w, Ok w' => same_values w w'
  | Raise e, Raise e' => e = e'
  | _, _ => False
  end.
Proof.
  intros (Ht & Hs & Hd). unfold add, elementwise. rewrite <- Hs.
  case_decide; [|done]. split; [cbn; by rewrite Ht|]. split; [done|]. cbn [data].
  revert Hd. generalize (data corr) as c, (data v) as l, (data v') as l'.
  intros c l l' Hd. revert c.
  induction Hd as [|x y l l' Hxy _ IH]; intros [|z c]; cbn; try constructor.
  - by rewrite Hxy.
  - apply IH.
Qed.

Section Translation.
Context `{KeyRegistry} (sqrt : Q → Q).
Implicit Types d : gmap string ndarray.

Lemma periodic_correction_adds r index d :
  ∃ rc : result ndarray,
    ∀ v, (periodic_correction r index v d).2 = (corr ← rc; add v corr).
Proof.
  unfold periodic_correction.
  destruct (d !! CELL_KEY) as [c|] eqn:Hc.
  2:{ exists (Raise (KeyError CELL_KEY)). intros v. by rewrite run_getitem_None. }
  destruct (reshape_m1_3_3 c) as [cell|e] eqn:Hre.
  2:{ exists (Raise e). intros v. rewrite (run_getitem _ c) by done.
      by rewrite Hre, run_lift_Raise. }
  destruct (d !! cell_shift_key r) as [s|] eqn:Hs.
  2:{ exists (Raise (KeyError (cell_shift_key r))). intros v.
      rewrite (run_getitem _ c) by done. rewrite Hre, run_lift_Ok.
      by rewrite run_getitem_None. }
  destruct (bool_decide (1 < nth 0 (shape cell) 0)) eqn:Hn.
  - destruct (d !! BATCH_KEY) as [b|] eqn:Hb.
    2:{ exists (Raise (KeyError BATCH_KEY)). intros v.
        rewrite (run_getitem _ c) by done. rewrite Hre, run_lift_Ok.
        rewrite (run_getitem _ s) by done. rewrite Hn.
        by rewrite run_getitem_None. }
    exists (src ← getitem_int index 0; batch_src ← getitem_array b src;
            cells ← getitem_array cell batch_src; einsum_ni_nij_nj s cells).
    intros v. rewrite (run_getitem _ c) by done. rewrite Hre, run_lift_Ok.
    rewrite (run_getitem _ s) by done. rewrite Hn.
    rewrite (run_getitem _ b) by done. unfold lift, add_batched_correction.
    cbn [snd].
    destruct (getitem_int index 0) as [src|]; [|done]. cbn [mbind result_bind].
    destruct (getitem_array b src) as [bs|]; [|done]. cbn [mbind result_bind].
    destruct (getitem_array cell bs) as [cs|]; [|done]. done.
  - exists (cell0 ← squeeze0 cell; einsum_ni_ij_nj s cell0).
    intros v. rewrite (run_getitem _ c) by done. rewrite Hre, run_lift_Ok.
    rewrite (run_getitem _ s) by done. rewrite Hn.
    unfold lift, add_single_correction. cbn [snd].
    destruct (squeeze0 cell) as [c0|]; [|done]. done.
Qed.

Lemma plain_translated n_atom n_edge pos pos' index (t : nat → Q) e j :
  pair_graph n_atom n_edge pos index → e < n_edge → j < 3 →
  (∀ a j, a < n_atom → j < 3 →
     (getq (data pos') (a * 3 + j) == getq (data pos) (a * 3 + j) + t j)%Q) →
  (plain n_atom n_edge pos' index e j == plain n_atom n_edge pos index e j)%Q.
Proof.
  intros G He Hj Ht. unfold plain.
  rewrite !Ht; [ring | | done | | done].
  - by eapply source_lt.
  - apply axis_index_lt.
    pose proof (index_range _ _ _ _ G) as Hr. rewrite Forall_lookup in Hr.
    apply (Hr (n_edge + e)). apply lookup_getq. rewrite (index_size _ _ _ _ G). lia.
Qed.

(** X11.  The vectors do not depend on where the origin is.  Moving every
    atom by the same vector [t] leaves the outcome of a derivation without
    lengths as it was, and the vectors stored are equal, as rational
    numbers, to those stored for the atoms where they were; this holds with
    and without periodic correction. *)
Theorem vectors_invariant_under_translation (r : relation) d
    n_atom n_edge pos pos' index (t : nat → Q) :
  r = edge ∨ r = env ∨ r = onsitenv →
  d !! vectors_key r = None →
  d !! POSITIONS_KEY = Some pos →
  d !! index_key r = Some index →
  pair_graph n_atom n_edge pos index →
  pair_graph n_atom n_edge pos' index →
  dtype_of pos' = dtype_of pos →
  (∀ a j, a < n_atom → j < 3 →
     (getq (data pos') (a * 3 + j) == getq (data pos) (a * 3 + j) + t j)%Q) →
  let moved := with_vectors sqrt r false (<[POSITIONS_KEY := pos']> d) in
  let still := with_vectors sqrt r false d in
  moved.2 = still.2
  ∧ option_Forall2 same_values (moved.1 !! vectors_key r) (still.1 !! vectors_key r).
Proof.
  intros Hr Hv Hp Hi G G' Hdt Ht moved still. subst moved still.
  assert (POSITIONS_KEY ≠ vectors_key r ∧ POSITIONS_KEY ≠ index_key r
          ∧ POSITIONS_KEY ≠ CELL_KEY ∧ POSITIONS_KEY ≠ cell_shift_key r
          ∧ POSITIONS_KEY ≠ BATCH_KEY)
    as (Hpv & Hpi & Hpc & Hps & Hpb).
  { destruct Hr as [-> | [-> | ->]]; repeat split; cbn; key_ne. }
  set (d' := <[POSITIONS_KEY := pos']> d).
  assert (d' !! vectors_key r = None) as Hv'
    by (unfold d'; by rewrite lookup_insert_ne).
  assert (d' !! index_key r = Some index) as Hi'
    by (unfold d'; by rewrite lookup_insert_ne).
  assert (d' !! POSITIONS_KEY = Some pos') as Hp' by apply lookup_insert_eq.
  rewrite (with_vectors_absent sqrt r false d pos index _ Hv Hp Hi
             (pair_difference_plain _ _ _ _ G)).
  rewrite (with_vectors_absent sqrt r false d' pos' index _ Hv' Hp' Hi'
             (pair_difference_plain _ _ _ _ G')).
  assert (cell_test_value d' = cell_test_value d) as ->.
  { unfold cell_test_value, d'. by rewrite lookup_insert_ne. }
  set (v := NdArray _ _ (per_item n_edge 3 (plain n_atom n_edge pos index))).
  set (v' := NdArray _ _ (per_item n_edge 3 (plain n_atom n_edge pos' index))).
  assert (same_values v' v) as Hsame.
  { split; [cbn; by rewrite Hdt|]. split; [done|]. cbn [data v v'].
    apply Forall2_per_item. intros e j He Hj. by eapply plain_translated. }
  destruct (cell_test_value d).
  - rewrite !run_bind.
    pose proof (periodic_correction_ignores r index v' d POSITIONS_KEY (Some pos')
                  Hpc Hps (fun E => match Hpb E with end)) as E'.
    cbn [set_field] in E'. fold d' in E'. rewrite E'.
    pose proof (periodic_correction_state r index v d) as Hst.
    destruct (periodic_correction_adds r index d) as [rc Hrc].
    rewrite (Hrc v'). pose proof (Hrc v) as Hrv.
    destruct (periodic_correction r index v d) as [d0 res]. cbn [fst snd] in *.
    subst d0 res. destruct rc as [corr|e]; cbn [mbind result_bind].
    + pose proof (add_same_values v' v corr Hsame) as Hadd.
      destruct (add v' corr) as [w'|e'], (add v corr) as [w|e]; try done.
      * rewrite !store_vectors_run. cbn [fst snd]. split; [done|].
        rewrite !lookup_insert_eq. by constructor.
      * subst e'. cbn [fst snd]. split; [done|]. rewrite Hv, Hv'. constructor.
    + cbn [fst snd]. split; [done|]. rewrite Hv, Hv'. constructor.
  - rewrite !store_vectors_run. cbn [fst snd]. split; [done|].
    rewrite !lookup_insert_eq. by constructor.
Qed.

(** X12.  The environment functions return lengths on a second call.  When
    the first call with lengths requested has stored the vectors [v], it
    raised the [TypeError] of the norm; a second call finds the vectors,
    takes the branch that calls the norm with [axis=-1], and succeeds with
    the lengths of [v] stored. *)
Theorem environment_lengths_on_second_call (r : relation) d v :
  r = env ∨ r = onsitenv →
  d !! vectors_key r = None → d !! length_key r = None →
  (with_vectors sqrt r true d).1 !! vectors_key r = Some v →
  with_vectors sqrt r true d
  = (<[vectors_key r := v]> d,
     Raise (TypeError "norm() got an unexpected keyword argument 'dim'"))
  ∧ ∀ length, linalg_norm_last sqrt v = Ok length →
      with_vectors sqrt r true (with_vectors sqrt r true d).1
      = (<[length_key r := length]> (<[vectors_key r := v]> d), Ok tt).
Proof.
  intros Hr Hv Hl Hstored.
  assert (build_norm_kw r = kw_dim ∧ vectors_key r ≠ length_key r) as [Hkw Hne].
  { destruct Hr as [-> | ->]; (split; [done | cbn; key_ne]). }
  destruct (with_vectors_absent_inv sqrt r true d Hv) as [[e Hrun] | [v0 Hrun]].
  { rewrite Hrun in Hstored. cbn in Hstored. congruence. }
  rewrite Hrun in *. rewrite store_vectors_run, Hkw in *. cbn [linalg_norm fst] in *.
  rewrite lookup_insert_eq in Hstored. injection Hstored as ->.
  split; [done|]. intros length Hlen.
  rewrite (with_vectors_present sqrt r true _ v) by apply lookup_insert_eq.
  rewrite lookup_insert_ne, Hl by done.
  rewrite bool_decide_false by (by intros [? ?]). cbn [andb negb linalg_norm].
  by rewrite Hlen.
Qed.
End Translation.

Section Keys.
Context `{KeyRegistry} (sqrt : Q → Q).
Implicit Types d : gmap string ndarray.

(** X13.  [validate_keys] accepts a set of keys exactly when, if a graph is
    required, positions and edge index are among them, and, if the edge
    cell shift is among them, so is ["cell"].  When a required graph key is
    missing the [KeyError] is raised whatever the other keys are.  The
    converse combination is not checked: the keys of a record with a cell
    whose test passes and without an edge cell shift are accepted, and
    [with_edge_vectors] on that record raises the [KeyError] of the cell
    shift. *)
Theorem validate_keys_accepts (keys : gset string) (graph_required : bool) :
  (validate_keys keys graph_required = Ok tt
   ↔ (graph_required = true → POSITIONS_KEY ∈ keys ∧ EDGE_INDEX_KEY ∈ keys)
     ∧ (EDGE_CELL_SHIFT_KEY ∈ keys → "cell" ∈ keys))
  ∧ (graph_required = true →
     ¬ (POSITIONS_KEY ∈ keys ∧ EDGE_INDEX_KEY ∈ keys) →
     validate_keys keys graph_required
     = Raise (KeyError "At least pos and edge_index must be supplied"))
  ∧ (∀ (wl : bool) d pos index v cell,
       dom d = keys →
       d !! EDGE_VECTORS_KEY = None →
       d !! POSITIONS_KEY = Some pos → d !! EDGE_INDEX_KEY = Some index →
       pair_difference pos index = Ok v →
       d !! CELL_KEY = Some cell → (cell_eps < sum_abs cell)%Q →
       size cell `mod` 9 = 0 →
       d !! EDGE_CELL_SHIFT_KEY = None →
       validate_keys keys graph_required = Ok tt
       ∧ with_edge_vectors sqrt wl d
         = (d, Raise (KeyError EDGE_CELL_SHIFT_KEY))).
Proof.
  split; [|split].
  - unfold validate_keys.
    destruct graph_required; repeat case_bool_decide;
      cbn [andb negb mbind result_bind]; split;
      first [done | intros [Hg Hs]; try done; exfalso; tauto | tauto | idtac].
  - intros -> Hno. unfold validate_keys.
    repeat case_bool_decide; cbn [andb negb mbind result_bind]; try done;
      exfalso; tauto.
  - intros wl d pos index v cell Hdom Hv Hp Hi Hd Hc Hgt Hsz Hs. split.
    + unfold validate_keys. subst keys.
      rewrite (bool_decide_true (POSITIONS_KEY ∈ dom d))
        by (apply elem_of_dom; eauto).
      rewrite (bool_decide_true (EDGE_INDEX_KEY ∈ dom d))
        by (apply elem_of_dom; eauto).
      rewrite (bool_decide_false (EDGE_CELL_SHIFT_KEY ∈ dom d))
        by (by rewrite not_elem_of_dom).
      by destruct graph_required.
    + unfold with_edge_vectors.
      rewrite (with_vectors_absent sqrt edge wl d pos index v Hv Hp Hi Hd).
      rewrite (cell_test_value_above d cell) by done.
      rewrite run_bind. unfold periodic_correction.
      rewrite (run_getitem _ cell) by done.
      unfold reshape_m1_3_3. rewrite decide_True, run_lift_Ok by done.
      by rewrite run_getitem_None.
Qed.
End Keys.

(** *** Runs on the example records *)

#[local] Existing Instance default_keys.

(** X1, witness: five atoms without an edge index, and the batch of two
    structures without its batch index. *)
Lemma missing_fields_witness :
  with_vectors sqrt_floor edge true five_atoms
  = (five_atoms, Raise (KeyError "edge_index"))
  ∧ with_vectors sqrt_floor edge true unbatched
    = (unbatched, Raise (KeyError "batch")).
Proof.
  split.
  - refine (proj1 (proj2 (missing_fields_are_KeyErrors (H:=default_keys)
                            sqrt_floor edge true five_atoms _)) _ _);
      try evaluate.
    exists (float_array [5; 3] (replicate 15 0%Q)). evaluate.
  - refine (proj2 (proj2 (proj2 (missing_fields_are_KeyErrors (H:=default_keys)
                                   sqrt_floor edge true unbatched _))
                     pair_pos pair_index
                     (float_array [2; 3] [0; 0; 0; 0; 0; 0]%Q) pair_cell
                     _ _ _ _ _ _) _ _ _); try evaluate.
    exists pair_shift. evaluate.
Defined.

(** X2, witness: one atom and a pair that names atom 1. *)
Lemma index_out_of_range_witness :
  with_vectors sqrt_floor edge true dangling = (dangling, Raise IndexError).
Proof.
  apply (index_out_of_range_is_IndexError (H:=default_keys) sqrt_floor edge true
           dangling tiny_pos dangling_index 1 1 [3]); try evaluate.
  intros Hall. apply Forall_cons in Hall as [_ Hall].
  apply Forall_cons in Hall as [Hin _].
  unfold in_axis in Hin. vm_compute in Hin. destruct Hin as [_ Hin].
  discriminate Hin.
Defined.

(** X3, witness: the environment call on the two-atom graph, lengths
    requested. *)
Lemma failed_derivation_witness :
  <["env_vectors" := float_array [2; 3] [3; 4; 0; -3; -4; 0]%Q]> env_molecule
  = env_molecule
  ∨ (true = true ∧ env_molecule !! vectors_key env = None
     ∧ ∃ v, <["env_vectors" := float_array [2; 3] [3; 4; 0; -3; -4; 0]%Q]>
              env_molecule
            = <[vectors_key env := v]> env_molecule
            ∧ linalg_norm sqrt_floor (build_norm_kw env) v
              = Raise (TypeError "norm() got an unexpected keyword argument 'dim'")).
Proof.
  apply (failed_derivation_leaves_record (H:=default_keys) sqrt_floor env true
           env_molecule). evaluate.
Defined.

(** X4, witness: the two-atom molecule, whose edges have length 5. *)
Lemma lengths_are_norms_witness :
  ∃ vec length,
    (<["edge_lengths" := float_array [2] [5; 5]%Q]>
       (<["edge_vectors" := float_array [2; 3] [3; 4; 0; -3; -4; 0]%Q]> molecule))
      !! vectors_key edge = Some vec
    ∧ (<["edge_lengths" := float_array [2] [5; 5]%Q]>
         (<["edge_vectors" := float_array [2; 3] [3; 4; 0; -3; -4; 0]%Q]> molecule))
        !! length_key edge = Some length
    ∧ linalg_norm_last sqrt_floor vec = Ok length
    ∧ ∀ n, shape vec = [n; 3] → base.length (data vec) = n * 3 →
        shape length = [n]
        ∧ ∀ e, e < n →
            getq (data length) e
            = sqrt_floor (Qsum (map (fun j => (getq (data vec) (e * 3 + j)
                                               * getq (data vec) (e * 3 + j))%Q)
                                    (seq 0 3))).
Proof.
  apply (lengths_are_norms_of_vectors (H:=default_keys) sqrt_floor edge molecule).
  - left. reflexivity.
  - evaluate.
  - left. evaluate.
Defined.

(** X5, witness: the two-atom graph under the environment relation. *)
Lemma environment_vectors_witness :
  stores_per_pair (with_vectors sqrt_floor env false env_molecule)
    (vectors_key env) 2 (plain 2 2 cubic_pos cubic_index).
Proof.
  refine (proj1 (proj2 (vectors_of_any_relation_without_lengths (H:=default_keys)
                          sqrt_floor env env_molecule 2 2 cubic_pos cubic_index
                          _ _ _ _ cubic_graph)) _); try evaluate.
  right. left. reflexivity.
Defined.

(** X6, witness: the two-atom molecule. *)
Lemma batch_then_vectors_witness :
  with_vectors sqrt_floor edge true (with_batch molecule).1
  = ((with_batch (with_vectors sqrt_floor edge true molecule).1).1,
     (with_vectors sqrt_floor edge true molecule).2)
  ∧ (with_batch molecule).2 = Ok tt
  ∧ (with_batch (with_vectors sqrt_floor edge true molecule).1).2 = Ok tt.
Proof.
  apply (batch_then_vectors_commute (H:=default_keys) sqrt_floor edge true
           molecule cubic_pos 2 [3]); try evaluate; try lia.
  - left. reflexivity.
  - intros cell Hc. vm_compute in Hc. discriminate Hc.
Defined.


(** X8, witness: five atoms. *)
Lemma with_batch_one_structure_witness :
  ∃ d' batch,
    with_batch five_atoms = (d', Ok tt)
    ∧ d' !! BATCH_KEY = Some batch
    ∧ batch_index 5 1 batch
    ∧ dtype_of batch = int64
    ∧ (∀ i, i < 5 → getq (data batch) i = 0%Q)
    ∧ d' !! BATCH_PTR_KEY
      = Some (NdArray int64 [2] [inject_Z 0; inject_Z (Z.of_nat 5)])
    ∧ ∀ k, k ≠ BATCH_KEY → k ≠ BATCH_PTR_KEY → d' !! k = five_atoms !! k.
Proof.
  apply (with_batch_one_structure (H:=default_keys) five_atoms
           (float_array [5; 3] (replicate 15 0%Q)) 5 [3]);
    try evaluate; try lia.
Defined.

(** X9, witness: the record without atoms. *)
Lemma with_batch_second_call_witness :
  with_batch (with_batch no_atoms).1 = ((with_batch no_atoms).1, Ok tt)
  ∧ (with_batch no_atoms).2 = Raise ZeroDivisionError
  ∧ (with_batch no_atoms).1 !! BATCH_PTR_KEY = no_atoms !! BATCH_PTR_KEY.
Proof.
  assert (is_Some (no_atoms !! BATCH_KEY)
          ∨ ∃ pos n rest, no_atoms !! POSITIONS_KEY = Some pos
                          ∧ shape pos = n :: rest) as Hpos.
  { right. exists (float_array [0; 3] []), 0, [3]. split; evaluate. }
  split.
  - exact (proj1 (with_batch_second_call (H:=default_keys) no_atoms Hpos)).
  - refine (proj2 (with_batch_second_call (H:=default_keys) no_atoms Hpos)
              (float_array [0; 3] []) [3] _ _ _); evaluate.
Defined.

(** X10, witness: the empty record. *)
Lemma with_batch_needs_positions_witness :
  with_batch (∅ : gmap string ndarray) = (∅, Raise (KeyError POSITIONS_KEY)).
Proof.
  refine (proj1 (with_batch_needs_positions (H:=default_keys) ∅ _) _); evaluate.
Defined.

(** X12, witness: the two-atom graph under the environment relation. *)
Lemma environment_second_call_witness :
  with_vectors sqrt_floor env true env_molecule
  = (<[vectors_key env := float_array [2; 3] [3; 4; 0; -3; -4; 0]%Q]> env_molecule,
     Raise (TypeError "norm() got an unexpected keyword argument 'dim'"))
  ∧ with_vectors sqrt_floor env true (with_vectors sqrt_floor env true env_molecule).1
    = (<[length_key env := float_array [2] [5; 5]%Q]>
         (<[vectors_key env := float_array [2; 3] [3; 4; 0; -3; -4; 0]%Q]>
            env_molecule),
       Ok tt).
Proof.
  assert (env_molecule !! vectors_key env = None) as H1 by evaluate.
  assert (env_molecule !! length_key env = None) as H2 by evaluate.
  assert ((with_vectors sqrt_floor env true env_molecule).1 !! vectors_key env
          = Some (float_array [2; 3] [3; 4; 0; -3; -4; 0]%Q)) as H3 by evaluate.
  destruct (environment_lengths_on_second_call (H:=default_keys) sqrt_floor env
              env_molecule (float_array [2; 3] [3; 4; 0; -3; -4; 0]%Q)
              (or_introl eq_refl) H1 H2 H3) as [Hfirst Hsecond].
  split; [exact Hfirst | apply Hsecond; evaluate].
Defined.

(** The moved positions fit the pair index of the two-atom graph. *)
Lemma moved_graph : pair_graph 2 2 moved_pos cubic_index.
Proof.
  split; try reflexivity; [discriminate|].
  apply cubic_graph.
Defined.

(** X11, witness: the two-atom molecule moved by [(1, 1, 1)]. *)
Lemma translation_witness :
  (with_vectors sqrt_floor edge false (<[POSITIONS_KEY := moved_pos]> molecule)).2
  = (with_vectors sqrt_floor edge false molecule).2
  ∧ option_Forall2 same_values
      ((with_vectors sqrt_floor edge false (<[POSITIONS_KEY := moved_pos]> molecule)).1
         !! vectors_key edge)
      ((with_vectors sqrt_floor edge false molecule).1 !! vectors_key edge).
Proof.
  apply (vectors_invariant_under_translation (H:=default_keys) sqrt_floor edge
           molecule 2 2 cubic_pos moved_pos cubic_index (fun _ => 1%Q));
    try evaluate; try exact cubic_graph; try exact moved_graph.
  - left. reflexivity.
  - intros [|[|a]] [|[|[|j]]] Ha Hj; try lia; evaluate.
Defined.

(** X13, witness: the positions alone, and the two-atom graph in the cubic
    cell without a cell shift. *)
Lemma validate_keys_witness :
  validate_keys {[ "pos" ]} true
  = Raise (KeyError "At least pos and edge_index must be supplied")
  ∧ validate_keys (dom unshifted) true = Ok tt
  ∧ with_edge_vectors sqrt_floor true unshifted
    = (unshifted, Raise (KeyError EDGE_CELL_SHIFT_KEY)).
Proof.
  split.
  - apply (proj1 (proj2 (validate_keys_accepts (H:=default_keys) sqrt_floor
                           {[ "pos" ]} true)) eq_refl).
    intros [_ Hin]. apply elem_of_singleton in Hin. discriminate Hin.
  - refine (proj2 (proj2 (validate_keys_accepts (H:=default_keys) sqrt_floor
                            (dom unshifted) true))
              true unshifted cubic_pos cubic_index
              (float_array [2; 3] [3; 4; 0; -3; -4; 0]%Q) cubic_cell
              eq_refl _ _ _ _ _ _ _ _); evaluate.
Defined.

End AtomicDataDict_more.

(** ** More on the parser: text search, checks, the key-value store *)

Module parse_more.
Import np state_exn_facts np_facts parse parse_text parse_checks parse_store.
Import parse_facts Examples BackendExamples MoreExamples.

Ltac evaluate := vm_compute; reflexivity.

Lemma str_in_empty line : str_in EmptyString line = true.
Proof. unfold str_in. apply bool_decide_eq_true. destruct line; cbn; eauto. Qed.

Lemma find_target_line_cons line rest target :
  find_target_line (line :: rest) target
  = if bool_decide (line = EmptyString) then (rest, Ok None)
    else if str_in target line then (rest, Ok (Some line))
    else find_target_line rest target.
Proof. reflexivity. Qed.

(** X14.  [find_target_line] returns the first line that contains the
    target and leaves the stream just after it: when the lines [pre] read
    before are not empty and do not contain the target, the search in
    [pre ++ line :: post] returns [line] and leaves [post].  When no line
    contains the target it returns [None] with the stream exhausted; an
    empty string read from the stream ends the search with [None]; and the
    empty target is found in the first line. *)
Theorem find_target_line_first_match (target : string) (pre post : list string) :
  Forall (fun l => l ≠ EmptyString ∧ str_in target l = false) pre →
  (∀ line, line ≠ EmptyString → str_in target line = true →
     find_target_line (pre ++ line :: post) target = (post, Ok (Some line)))
  ∧ find_target_line pre target = ([], Ok None)
  ∧ find_target_line (pre ++ EmptyString :: post) target = (post, Ok None)
  ∧ (target = EmptyString → ∀ line, line ≠ EmptyString →
       find_target_line (line :: post) target = (post, Ok (Some line))).
Proof.
  intros Hpre. split; [|split; [|split]].
  - intros line Hne Hin. induction Hpre as [|l pre [Hl Hno] _ IH]; cbn [app].
    + rewrite find_target_line_cons, bool_decide_false, Hin; done.
    + rewrite find_target_line_cons, bool_decide_false, Hno; done.
  - induction Hpre as [|l pre [Hl Hno] _ IH]; [done|].
    rewrite find_target_line_cons, bool_decide_false, Hno; done.
  - induction Hpre as [|l pre [Hl Hno] _ IH]; cbn [app].
    + by rewrite find_target_line_cons, bool_decide_true.
    + rewrite find_target_line_cons, bool_decide_false, Hno; done.
  - intros -> line Hne.
    by rewrite find_target_line_cons, bool_decide_false, str_in_empty.
Qed.

(** X15.  Whatever the stream, [find_target_line] returns without raising;
    the line it returns, if any, is a line of the stream that contains the
    target, and what it leaves is a suffix of the stream. *)
Theorem find_target_line_sound target f :
  ∃ f' res, find_target_line f target = (f', Ok res)
    ∧ f' `suffix_of` f
    ∧ ∀ line, res = Some line → str_in target line = true ∧ line ∈ f.
Proof.
  induction f as [|l f IH].
  - exists [], None. done.
  - rewrite find_target_line_cons. case_bool_decide as Hl.
    + exists f, None. split; [done|]. split; [by apply suffix_cons_r|done].
    + destruct (str_in target l) eqn:Hin.
      * exists f, (Some l). split; [done|]. split; [by apply suffix_cons_r|].
        intros ? [= <-]. split; [done | constructor].
      * destruct IH as (f' & res & -> & Hsuf & Hres). exists f', res.
        split; [done|]. split; [by apply suffix_cons_r|].
        intros line Hline. destruct (Hres line Hline). split; [done|].
        by constructor.
Qed.

Ltac by_cases P E :=
  destruct (decide P) as [E|E];
  [rewrite (bool_decide_true P) by exact E
  |rewrite (bool_decide_false P) by exact E].

Section Checks.
Context `{KeyRegistry} `{Parser}.
Context (get_eigenvalue_idx : Z → result (gmap string ndarray)).

Lemma shape_rank2 (l : list nat) a b :
  length l = 2 → nth 0 l 0 = a → nth 1 l 0 = b → l = [a; b].
Proof. destruct l as [|? [|? [|]]]; cbn; intros; simplify_eq; done. Qed.

Lemma shape_rank3_any (l : list nat) :
  length l = 3 → l = [nth 0 l 0; nth 1 l 0; nth 2 l 0].
Proof. destruct l as [|? [|? [|? [|]]]]; cbn; intros; simplify_eq; done. Qed.

(** X16.  [check_eigenvalue] accepts an eigenvalue record exactly when it
    holds eigenvalues of shape [(n_frame, n_kpt, n_band)] and k-points of
    shape [(n_kpt, 3)], both of dtype float32.  On a record it yields [True], a
    [MissingFieldError] or an [AssertionError], and nothing else; a record
    without eigenvalues fails with the [MissingFieldError] of the
    eigenvalues, and eigenvalues of rank 2 with the shape error of the
    eigenvalues. *)
Theorem check_eigenvalue_accepts idx s :
  (check_eigenvalue get_eigenvalue_idx idx (Some s) = Ok true
   ↔ ∃ eigs kpts n_frame n_kpt n_band,
       s !! ENERGY_EIGENVALUE_KEY = Some eigs
       ∧ s !! KPOINT_KEY = Some kpts
       ∧ shape eigs = [n_frame; n_kpt; n_band]
       ∧ shape kpts = [n_kpt; 3]
       ∧ dtype_of eigs = float32
       ∧ dtype_of kpts = float32)
  ∧ (check_eigenvalue get_eigenvalue_idx idx (Some s) = Ok true
     ∨ (∃ k, check_eigenvalue get_eigenvalue_idx idx (Some s)
             = Raise (MissingFieldError k))
     ∨ ∃ msg, check_eigenvalue get_eigenvalue_idx idx (Some s)
              = Raise (AssertionError msg))
  ∧ (s !! ENERGY_EIGENVALUE_KEY = None →
     check_eigenvalue get_eigenvalue_idx idx (Some s)
     = Raise (MissingFieldError ENERGY_EIGENVALUE_KEY))
  ∧ (∀ eigs kpts,
       s !! ENERGY_EIGENVALUE_KEY = Some eigs → s !! KPOINT_KEY = Some kpts →
       length (shape eigs) = 2 →
       check_eigenvalue get_eigenvalue_idx idx (Some s)
       = Raise (AssertionError
                  "The shape of eigenvalue should be (n_frame, n_kpt, n_band)")).
Proof.
  unfold check_eigenvalue, j_must_have. cbn [mbind result_bind].
  destruct (s !! ENERGY_EIGENVALUE_KEY) as [eigs|] eqn:He.
  2:{ split; [|split; [|split]]; [|eauto..|done].
      split; [done|]. by intros (? & ? & ? & ? & ? & ? & _). }
  destruct (s !! KPOINT_KEY) as [kpts|] eqn:Hk.
  2:{ split; [|split; [|split]]; [|eauto|done|done].
      split; [done|]. by intros (? & ? & ? & ? & ? & _ & ? & _). }
  unfold assert_. cbn [mbind result_bind].
  by_cases (length (shape eigs) = 3) E1; cbn [mbind result_bind].
  2:{       split; [|split; [|split]]; [|eauto|done|].
      - split; [done|]. intros (? & ? & ? & ? & ? & [= <-] & [= <-] & Hs & _).
        by rewrite Hs in E1.
      - done. }
  by_cases (length (shape kpts) = 2) E2; cbn [andb mbind result_bind].
  2:{       split; [|split; [|split]]; [|eauto|done|intros ?? [= <-] _ ?; lia].
      split; [done|]. intros (? & ? & ? & ? & ? & [= <-] & [= <-] & _ & Hs & _).
      by rewrite Hs in E2. }
  by_cases (nth 0 (shape kpts) 0 = nth 1 (shape eigs) 0) E3;
    cbn [andb mbind result_bind].
  2:{       split; [|split; [|split]]; [|eauto|done|intros ?? [= <-] _ ?; lia].
      split; [done|]. intros (? & ? & ? & ? & ? & [= <-] & [= <-] & Hs1 & Hs2 & _).
      by rewrite Hs1, Hs2 in E3. }
  by_cases (nth 1 (shape kpts) 0 = 3) E4; cbn [andb mbind result_bind].
  2:{       split; [|split; [|split]]; [|eauto|done|intros ?? [= <-] _ ?; lia].
      split; [done|]. intros (? & ? & ? & ? & ? & [= <-] & [= <-] & _ & Hs2 & _).
      by rewrite Hs2 in E4. }
  by_cases (dtype_of eigs = float32) E5; cbn [mbind result_bind].
  2:{       split; [|split; [|split]]; [|eauto|done|intros ?? [= <-] _ ?; lia].
      split; [done|]. by intros (? & ? & ? & ? & ? & [= <-] & [= <-] & _ & _ & ? & _). }
  by_cases (dtype_of kpts = float32) E6; cbn [mbind result_bind].
  2:{       split; [|split; [|split]]; [|eauto|done|intros ?? [= <-] _ ?; lia].
      split; [done|]. by intros (? & ? & ? & ? & ? & [= <-] & [= <-] & _ & _ & _ & ?). }
  split; [|split; [|split]]; [|eauto|done|intros ?? [= <-] _ ?; lia].
  split; [|done]. intros _.
  exists eigs, kpts, (nth 0 (shape eigs) 0), (nth 1 (shape eigs) 0),
         (nth 2 (shape eigs) 0).
  split; [done|]. split; [done|]. split; [by apply shape_rank3_any|].
  split; [by apply shape_rank2|]. done.
Qed.
End Checks.

Lemma for_each_app {S A} (l1 l2 : list A) (body : A → state_exn S unit) s :
  for_each (l1 ++ l2) body s
  = match for_each l1 body s with
    | (s', Ok _) => for_each l2 body s'
    | (s', Raise e) => (s', Raise e)
    end.
Proof.
  revert s. induction l1 as [|a l1 IH]; intros s; [done|].
  cbn [app for_each]. rewrite !run_bind.
  destruct (body a s) as [s1 [[]|e]]; [apply IH | done].
Qed.

Lemma size_insert_le (store : gmap (list byte) pickled) k v :
  base.size (<[k := v]> store) ≤ S (base.size store).
Proof.
  destruct (store !! k) as [x|] eqn:Hk.
  - rewrite map_size_insert_Some by eauto. lia.
  - rewrite map_size_insert_None by done. lia.
Qed.

Lemma entries_of_insert ds fs es env store :
  entries_of (World ds fs (<[env := store]> es)) env = store.
Proof. unfold entries_of. cbn. by rewrite lookup_insert_eq. Qed.

Lemma world_eta w env :
  is_Some (lmdb_envs w !! env) →
  World (directories w) (files w) (<[env := entries_of w env]> (lmdb_envs w)) = w.
Proof.
  intros [st Hst]. destruct w as [ds fs es]. cbn in *. f_equal.
  unfold entries_of. cbn. rewrite Hst. cbn. by apply insert_id.
Qed.

(** The loop of [write_lmdb] when every frame can be built. *)
Lemma for_each_appends env (frame : nat → result (gmap string pyvalue))
    (frames : nat → gmap string pyvalue) l :
  ∀ w,
    is_Some (lmdb_envs w !! env) →
    (N.of_nat (base.size (entries_of w env) + length l) <= 2 ^ 32)%N →
    Forall (fun i => frame i = Ok (frames i)) l →
    for_each l (fun nf => data_dict ← lift (frame nf);
                          lmdb_append env (pickle_dumps data_dict)) w
    = (World (directories w) (files w)
         (<[env := append_all (entries_of w env)
                     (map (fun i => pickle_dumps (frames i)) l)]> (lmdb_envs w)),
       Ok tt).
Proof.
  induction l as [|a l IH]; intros w Hopen Hbound Hframes.
  - cbn [for_each map append_all]. by rewrite world_eta.
  - apply Forall_cons in Hframes as [Ha Hl].
    cbn [for_each map append_all]. rewrite run_bind, Ha, run_lift_Ok.
    cbn [length] in Hbound.
    rewrite lmdb_append_run by lia.
    set (w1 := World _ _ _).
    assert (entries_of w1 env
            = <[key_bytes (base.size (entries_of w env)) := pickle_dumps (frames a)]>
                (entries_of w env)) as Hw1 by apply entries_of_put.
    rewrite IH; [| |rewrite Hw1|done].
    + rewrite Hw1. unfold w1. cbn [directories files lmdb_envs].
      by rewrite insert_insert_eq.
    + unfold w1. cbn [lmdb_envs]. rewrite lookup_insert_eq. eauto.
    + pose proof (size_insert_le (entries_of w env)
                    (key_bytes (base.size (entries_of w env)))
                    (pickle_dumps (frames a))). lia.
Qed.

Lemma append_all_app store l1 l2 :
  append_all store (l1 ++ l2) = append_all (append_all store l1) l2.
Proof. revert store. induction l1 as [|v l1 IH]; intros store; [done | apply IH]. Qed.

Lemma append_all_sequential (values : list pickled) :
  ∀ store m old,
    sequential_store store m old →
    (N.of_nat (m + length values) <= 2 ^ 32)%N →
    sequential_store (append_all store values) (m + length values)
      (fun i => if decide (i < m) then old i
                else default (old i) (values !! (i - m))).
Proof.
  induction values as [|v values IH]; intros store m old Hst Hbound.
  - cbn [append_all length]. rewrite Nat.add_0_r.
    destruct Hst as (Hsize & Hval & Hkeys). split; [done|]. split; [|done].
    intros i Hi. rewrite decide_True by done. by apply Hval.
  - cbn [append_all length] in *. pose proof Hst as (Hsize & _). rewrite Hsize.
    pose proof (sequential_store_append store m
                  (fun i => if decide (i < m) then old i else v)) as Happ.
    cbn beta in Happ. rewrite decide_False in Happ by lia.
    specialize (Happ ltac:(lia)).
    assert (sequential_store store m
              (fun i => if decide (i < m) then old i else v)) as Hst'.
    { destruct Hst as (? & Hval & Hkeys). split; [done|]. split; [|done].
      intros i Hi. rewrite decide_True by done. by apply Hval. }
    specialize (Happ Hst').
    specialize (IH _ _ _ Happ ltac:(lia)).
    replace (m + S (length values)) with (S m + length values) by lia.
    destruct IH as (Hsize' & Hval' & Hkeys'). split; [done|]. split; [|done].
    intros i Hi. rewrite (Hval' i Hi). f_equal.
    destruct (decide (i < m)) as [Him|Him].
    + rewrite decide_True by lia. done.
    + destruct (decide (i = m)) as [->|Hne].
      * rewrite decide_True by lia. by rewrite Nat.sub_diag.
      * rewrite decide_False by lia.
        replace (i - m) with (S (i - S m)) by lia. cbn [lookup list_lookup].
        destruct (values !! (i - S m)) as [x|] eqn:Hx; cbn; [done|].
        apply lookup_ge_None in Hx. lia.
Qed.

Lemma append_all_collision (values : list pickled) :
  ∀ store x v,
    store !! key_bytes (base.size store) = Some x →
    append_all store (values ++ [v])
    = <[key_bytes (base.size store) := v]> store.
Proof.
  induction values as [|u values IH]; intros store x v Hx; [done|].
  cbn [app append_all].
  assert (base.size (<[key_bytes (base.size store) := u]> store) = base.size store)
    as Hsize by (rewrite map_size_insert_Some by eauto; done).
  rewrite (IH _ u); rewrite Hsize.
  - by rewrite insert_insert_eq.
  - by rewrite lookup_insert_eq.
Qed.

Section Writer.
Context `{KeyRegistry} `{Parser}.

Lemma write_lmdb_prefix (pid : nat) (idx : Z) (outroot : string)
    (eigenvalue hamiltonian overlap density_matrix : bool) (band_index_min : Z)
    (w : world) (structure eigstatus : gmap string ndarray) (ham ovp dm : blocks)
    (pos : ndarray) (n : nat) (rest : list nat) :
  let out_dir := path_join outroot ("data." +:+ pretty pid +:+ ".lmdb") in
  get_structure idx = Ok structure →
  (if hamiltonian || overlap || density_matrix
   then get_blocks idx hamiltonian overlap density_matrix
   else Ok (None, None, None)) = Ok (ham, ovp, dm) →
  (if eigenvalue then get_eigenvalue idx band_index_min else Ok ∅)
  = Ok eigstatus →
  structure !! POSITIONS_KEY = Some pos →
  shape pos = n :: rest →
  write_lmdb pid idx outroot eigenvalue hamiltonian overlap density_matrix
             band_index_min w
  = for_each (seq 0 n)
      (fun nf =>
         data_dict ← lift (frame_dict structure eigstatus ham ovp dm eigenvalue
                             hamiltonian overlap density_matrix idx nf);
         lmdb_append out_dir (pickle_dumps data_dict))
      (World ({[out_dir]} ∪ ({[outroot]} ∪ directories w)) (files w)
         (<[out_dir := entries_of w out_dir]> (lmdb_envs w))).
Proof.
  intros out_dir Hs Hb He Hp Hsh.
  unfold write_lmdb. rewrite run_bind. unfold makedirs at 1. cbv beta iota.
  rewrite Hs, run_lift_Ok.
  assert ((if hamiltonian || overlap || density_matrix
           then lift (get_blocks idx hamiltonian overlap density_matrix)
           else mret (None, None, None))
          = (lift (Ok (ham, ovp, dm)) : state_exn world _)) as ->.
  { destruct (hamiltonian || overlap || density_matrix);
      [by rewrite Hb | by injection Hb as <- <- <-]. }
  rewrite run_lift_Ok.
  assert ((if eigenvalue then lift (get_eigenvalue idx band_index_min) else mret ∅)
          = (lift (Ok eigstatus) : state_exn world _)) as ->.
  { destruct eigenvalue; [by rewrite He | by injection He as <-]. }
  rewrite run_lift_Ok.
  unfold dict_get at 1. rewrite Hp, run_lift_Ok, Hsh, run_lift_Ok.
  rewrite run_bind. unfold lmdb_open at 1. cbv beta iota.
  cbn [directories files lmdb_envs]. fold out_dir.
  f_equal. f_equal. unfold entries_of.
  destruct (lmdb_envs w !! out_dir) as [st|] eqn:Hst; cbn [default].
  - by rewrite insert_id.
  - done.
Qed.

Lemma write_lmdb_run (pid : nat) (idx : Z) (outroot : string)
    (eigenvalue hamiltonian overlap density_matrix : bool) (band_index_min : Z)
    (w : world) (structure eigstatus : gmap string ndarray) (ham ovp dm : blocks)
    (pos : ndarray) (n : nat) (rest : list nat)
    (frames : nat → gmap string pyvalue) :
  let out_dir := path_join outroot ("data." +:+ pretty pid +:+ ".lmdb") in
  get_structure idx = Ok structure →
  (if hamiltonian || overlap || density_matrix
   then get_blocks idx hamiltonian overlap density_matrix
   else Ok (None, None, None)) = Ok (ham, ovp, dm) →
  (if eigenvalue then get_eigenvalue idx band_index_min else Ok ∅)
  = Ok eigstatus →
  structure !! POSITIONS_KEY = Some pos →
  shape pos = n :: rest →
  (∀ nf, nf < n →
     frame_dict structure eigstatus ham ovp dm eigenvalue hamiltonian overlap
                density_matrix idx nf = Ok (frames nf)) →
  (N.of_nat (base.size (entries_of w out_dir) + n) <= 2 ^ 32)%N →
  write_lmdb pid idx outroot eigenvalue hamiltonian overlap density_matrix
             band_index_min w
  = (World ({[out_dir]} ∪ ({[outroot]} ∪ directories w)) (files w)
       (<[out_dir := append_all (entries_of w out_dir)
                       (map (fun i => pickle_dumps (frames i)) (seq 0 n))]>
          (lmdb_envs w)),
     Ok tt).
Proof.
  intros out_dir Hs Hb He Hp Hsh Hframes Hbound.
  rewrite (write_lmdb_prefix pid idx outroot eigenvalue hamiltonian overlap
             density_matrix band_index_min w structure eigstatus ham ovp dm
             pos n rest) by done.
  fold out_dir. set (w1 := World _ _ _).
  assert (entries_of w1 out_dir = entries_of w out_dir) as Hw1
    by apply entries_of_put.
  rewrite (for_each_appends out_dir _ frames).
  - rewrite Hw1. unfold w1. cbn [directories files lmdb_envs].
    by rewrite insert_insert_eq.
  - unfold w1. cbn [lmdb_envs]. rewrite lookup_insert_eq. eauto.
  - by rewrite Hw1, length_seq.
  - apply Forall_forall. intros i Hi. apply elem_of_seq in Hi.
    apply Hframes. lia.
Qed.

(** X17.  [write_lmdb] appends.  Into an environment that holds [m] entries
    under the keys [0 .. m-1], writing a structure of [n] frames (with
    [m + n] at most [2^32]) succeeds and leaves [m + n] entries: the old
    ones as they were, and frame [i] under the 4-byte big-endian encoding of
    [m + i].  Files and the other environments are left as they were.  So
    two calls by one process on one output root accumulate their frames in
    call order. *)
Theorem write_lmdb_appends_in_order (pid : nat) (idx : Z) (outroot : string)
    (eigenvalue hamiltonian overlap density_matrix : bool) (band_index_min : Z)
    (w : world) (structure eigstatus : gmap string ndarray) (ham ovp dm : blocks)
    (pos : ndarray) (n : nat) (rest : list nat)
    (frames : nat → gmap string pyvalue) (m : nat) (old : nat → pickled) :
  let out_dir := path_join outroot ("data." +:+ pretty pid +:+ ".lmdb") in
  get_structure idx = Ok structure →
  (if hamiltonian || overlap || density_matrix
   then get_blocks idx hamiltonian overlap density_matrix
   else Ok (None, None, None)) = Ok (ham, ovp, dm) →
  (if eigenvalue then get_eigenvalue idx band_index_min else Ok ∅)
  = Ok eigstatus →
  structure !! POSITIONS_KEY = Some pos →
  shape pos = n :: rest →
  (∀ nf, nf < n →
     frame_dict structure eigstatus ham ovp dm eigenvalue hamiltonian overlap
                density_matrix idx nf = Ok (frames nf)) →
  sequential_store (entries_of w out_dir) m old →
  (N.of_nat (m + n) <= 2 ^ 32)%N →
  ∃ w',
    write_lmdb pid idx outroot eigenvalue hamiltonian overlap density_matrix
               band_index_min w = (w', Ok tt)
    ∧ sequential_store (entries_of w' out_dir) (m + n)
        (fun i => if decide (i < m) then old i
                  else pickle_dumps (frames (i - m)))
    ∧ files w' = files w
    ∧ ∀ env, env ≠ out_dir → entries_of w' env = entries_of w env.
Proof.
  intros out_dir Hs Hb He Hp Hsh Hframes Hst Hbound.
  pose proof Hst as (Hsize & _).
  rewrite (write_lmdb_run pid idx outroot eigenvalue hamiltonian overlap
             density_matrix band_index_min w structure eigstatus ham ovp dm
             pos n rest frames) by (done || (fold out_dir; by rewrite Hsize)).
  fold out_dir. eexists. split; [done|]. rewrite entries_of_insert.
  split; [|split; [done|]].
  - pose proof (append_all_sequential
                  (map (fun i => pickle_dumps (frames i)) (seq 0 n))
                  _ m old Hst) as Hseq.
    rewrite length_map, length_seq in Hseq. specialize (Hseq Hbound).
    destruct Hseq as (Hsize' & Hval' & Hkeys'). split; [done|]. split; [|done].
    intros i Hi. rewrite (Hval' i Hi). destruct (decide (i < m)); [done|].
    rewrite list_lookup_fmap, lookup_seq_lt by lia. done.
  - intros env Hne. unfold entries_of. cbn [lmdb_envs].
    by rewrite !lookup_insert_ne by done.
Qed.

(** X18.  The key of an append is the number of entries, not the next free
    key.  When the environment already holds an entry under the encoding of
    its number of entries, every frame of the call is written under that one
    key: the call succeeds, the number of entries is what it was, the entry
    under that key is the last frame, and the other frames of the call are
    lost. *)
Theorem write_lmdb_overwrites_on_key_collision (pid : nat) (idx : Z)
    (outroot : string)
    (eigenvalue hamiltonian overlap density_matrix : bool) (band_index_min : Z)
    (w : world) (structure eigstatus : gmap string ndarray) (ham ovp dm : blocks)
    (pos : ndarray) (n : nat) (rest : list nat)
    (frames : nat → gmap string pyvalue) (x : pickled) :
  let out_dir := path_join outroot ("data." +:+ pretty pid +:+ ".lmdb") in
  let store := entries_of w out_dir in
  get_structure idx = Ok structure →
  (if hamiltonian || overlap || density_matrix
   then get_blocks idx hamiltonian overlap density_matrix
   else Ok (None, None, None)) = Ok (ham, ovp, dm) →
  (if eigenvalue then get_eigenvalue idx band_index_min else Ok ∅)
  = Ok eigstatus →
  structure !! POSITIONS_KEY = Some pos →
  shape pos = S n :: rest →
  (∀ nf, nf < S n →
     frame_dict structure eigstatus ham ovp dm eigenvalue hamiltonian overlap
                density_matrix idx nf = Ok (frames nf)) →
  store !! key_bytes (base.size store) = Some x →
  (N.of_nat (base.size store) < 2 ^ 32)%N →
  ∃ w',
    write_lmdb pid idx outroot eigenvalue hamiltonian overlap density_matrix
               band_index_min w = (w', Ok tt)
    ∧ entries_of w' out_dir
      = <[key_bytes (base.size store) := pickle_dumps (frames n)]> store
    ∧ base.size (entries_of w' out_dir) = base.size store.
Proof.
  intros out_dir store Hs Hb He Hp Hsh Hframes Hx Hbound.
  rewrite (write_lmdb_prefix pid idx outroot eigenvalue hamiltonian overlap
             density_matrix band_index_min w structure eigstatus ham ovp dm
             pos (S n) rest) by done.
  fold out_dir. set (w1 := World _ _ _).
  assert (entries_of w1 out_dir = store) as Hw1 by apply entries_of_put.
  assert (∀ l w0,
    is_Some (lmdb_envs w0 !! out_dir) →
    entries_of w0 out_dir !! key_bytes (base.size store) = Some x
    ∨ (∃ y, entries_of w0 out_dir !! key_bytes (base.size store) = Some y) →
    base.size (entries_of w0 out_dir) = base.size store →
    Forall (fun i => frame_dict structure eigstatus ham ovp dm eigenvalue
                       hamiltonian overlap density_matrix idx i = Ok (frames i)) l →
    for_each l
      (fun nf =>
         data_dict ← lift (frame_dict structure eigstatus ham ovp dm eigenvalue
                             hamiltonian overlap density_matrix idx nf);
         lmdb_append out_dir (pickle_dumps data_dict)) w0
    = (World (directories w0) (files w0)
         (<[out_dir := append_all (entries_of w0 out_dir)
                         (map (fun i => pickle_dumps (frames i)) l)]>
            (lmdb_envs w0)), Ok tt)) as Hloop.
  { induction l as [|a l IH]; intros w0 Hopen Hy Hsz Hl.
    - cbn [for_each map append_all]. by rewrite world_eta.
    - apply Forall_cons in Hl as [Ha Hl].
      cbn [for_each map append_all]. rewrite run_bind, Ha, run_lift_Ok.
      rewrite lmdb_append_run by (rewrite Hsz; lia).
      set (w2 := World _ _ _).
      assert (entries_of w2 out_dir
              = <[key_bytes (base.size (entries_of w0 out_dir))
                    := pickle_dumps (frames a)]> (entries_of w0 out_dir)) as Hw2
        by apply entries_of_put.
      assert (∃ y, entries_of w0 out_dir !! key_bytes (base.size store) = Some y)
        as [y Hy'] by (destruct Hy; eauto).
      rewrite IH; [| | |rewrite Hw2|done].
      + rewrite Hw2. unfold w2. cbn [directories files lmdb_envs].
        by rewrite insert_insert_eq.
      + unfold w2. cbn [lmdb_envs]. rewrite lookup_insert_eq. eauto.
      + right. rewrite Hw2, Hsz, lookup_insert_eq. eauto.
      + rewrite Hsz. rewrite map_size_insert_Some by eauto; done. }
  rewrite Hloop.
  - eexists. split; [done|]. rewrite entries_of_put, Hw1.
    replace (seq 0 (S n)) with (seq 0 n ++ [n])
      by (by rewrite <- seq_S).
    rewrite map_app. cbn [map].
    rewrite (append_all_collision _ store x) by done.
    split; [done|]. rewrite map_size_insert_Some by eauto; done.
  - unfold w1. cbn [lmdb_envs]. rewrite lookup_insert_eq. eauto.
  - left. by rewrite Hw1.
  - by rewrite Hw1.
  - apply Forall_forall. intros i Hi. apply elem_of_seq in Hi.
    apply Hframes. lia.
Qed.

(** X19.  [write_lmdb] does not undo what it did before a failure.  When
    the block parser of the backend raises, the exception reaches the
    caller after the output root was created and before an environment was
    opened.  When the mapping of frame [k] cannot be built, the exception
    reaches the caller with the frames before [k] committed to the
    environment. *)
Theorem write_lmdb_does_not_roll_back (pid : nat) (idx : Z) (outroot : string)
    (eigenvalue hamiltonian overlap density_matrix : bool) (band_index_min : Z)
    (w : world) (structure : gmap string ndarray) :
  let out_dir := path_join outroot ("data." +:+ pretty pid +:+ ".lmdb") in
  get_structure idx = Ok structure →
  (∀ e, hamiltonian || overlap || density_matrix = true →
        get_blocks idx hamiltonian overlap density_matrix = Raise e →
        write_lmdb pid idx outroot eigenvalue hamiltonian overlap density_matrix
                   band_index_min w
        = (World ({[outroot]} ∪ directories w) (files w) (lmdb_envs w), Raise e))
  ∧ (∀ eigstatus ham ovp dm pos n rest frames k e,
       (if hamiltonian || overlap || density_matrix
        then get_blocks idx hamiltonian overlap density_matrix
        else Ok (None, None, None)) = Ok (ham, ovp, dm) →
       (if eigenvalue then get_eigenvalue idx band_index_min else Ok ∅)
       = Ok eigstatus →
       structure !! POSITIONS_KEY = Some pos →
       shape pos = n :: rest →
       k < n →
       (∀ nf, nf < k →
          frame_dict structure eigstatus ham ovp dm eigenvalue hamiltonian
                     overlap density_matrix idx nf = Ok (frames nf)) →
       frame_dict structure eigstatus ham ovp dm eigenvalue hamiltonian
                  overlap density_matrix idx k = Raise e →
       (N.of_nat (base.size (entries_of w out_dir) + k) <= 2 ^ 32)%N →
       write_lmdb pid idx outroot eigenvalue hamiltonian overlap density_matrix
                  band_index_min w
       = (World ({[out_dir]} ∪ ({[outroot]} ∪ directories w)) (files w)
            (<[out_dir := append_all (entries_of w out_dir)
                            (map (fun i => pickle_dumps (frames i)) (seq 0 k))]>
               (lmdb_envs w)),
          Raise e)).
Proof.
  intros out_dir Hs. split.
  - intros e Hflag Hb. unfold write_lmdb. rewrite run_bind.
    unfold makedirs at 1. cbv beta iota. rewrite Hs, run_lift_Ok.
    rewrite Hflag, Hb. by rewrite run_lift_Raise.
  - intros eigstatus ham ovp dm pos n rest frames k e Hb He Hp Hsh Hk Hframes
           Hfail Hbound.
    rewrite (write_lmdb_prefix pid idx outroot eigenvalue hamiltonian overlap
               density_matrix band_index_min w structure eigstatus ham ovp dm
               pos n rest) by done.
    fold out_dir. set (w1 := World _ _ _).
    assert (entries_of w1 out_dir = entries_of w out_dir) as Hw1
      by apply entries_of_put.
    replace (seq 0 n) with (seq 0 k ++ k :: seq (S k) (n - S k)).
    2:{ change (k :: seq (S k) (n - S k)) with (seq (0 + k) (S (n - S k))).
        rewrite <- seq_app. f_equal. lia. }
    rewrite for_each_app.
    rewrite (for_each_appends out_dir _ frames).
    + cbn [for_each]. rewrite run_bind, Hfail, run_lift_Raise.
      rewrite Hw1. unfold w1. cbn [directories files lmdb_envs].
      by rewrite insert_insert_eq.
    + unfold w1. cbn [lmdb_envs]. rewrite lookup_insert_eq. eauto.
    + by rewrite Hw1, length_seq.
    + apply Forall_forall. intros i Hi. apply elem_of_seq in Hi.
      apply Hframes. lia.
Qed.

(** X20.  What [check_structure] accepts, [write_lmdb] writes.  When the
    structure of the backend passes the check and the field names are
    neither ["idx"] nor ["nf"], writing it without eigenvalues and blocks
    into an environment without entries succeeds (for at most [2^32]
    frames) and leaves one entry per frame; entry [nf] unpickles to a
    mapping of six fields: the positions [(natom, 3)] and the cell [(3, 3)]
    of frame [nf], the atomic numbers and periodic flags of the structure,
    the source index and [nf]. *)
Theorem validated_structure_is_writable (pid : nat) (idx : Z) (outroot : string)
    (band_index_min : Z) (w : world) :
  let out_dir := path_join outroot ("data." +:+ pretty pid +:+ ".lmdb") in
  check_structure idx None = Ok true →
  (∀ f, key f ≠ "idx" ∧ key f ≠ "nf") →
  entries_of w out_dir = ∅ →
  ∃ s pos cell n_frame natom w',
    get_structure idx = Ok s
    ∧ s !! POSITIONS_KEY = Some pos ∧ shape pos = [n_frame; natom; 3]
    ∧ s !! CELL_KEY = Some cell ∧ shape cell = [n_frame; 3; 3]
    ∧ ((N.of_nat n_frame <= 2 ^ 32)%N →
       write_lmdb pid idx outroot false false false false band_index_min w
       = (w', Ok tt)
       ∧ base.size (entries_of w' out_dir) = n_frame
       ∧ ∀ nf, nf < n_frame →
           ∃ dd, entries_of w' out_dir !! key_bytes nf = Some (pickle_dumps dd)
             ∧ dd !! POSITIONS_KEY
               = Some (PyArray (NdArray float32 [natom; 3] (row pos nf)))
             ∧ dd !! CELL_KEY
               = Some (PyArray (NdArray float32 [3; 3] (row cell nf)))
             ∧ dd !! ATOMIC_NUMBERS_KEY = PyArray <$> s !! ATOMIC_NUMBERS_KEY
             ∧ dd !! PBC_KEY = PyArray <$> s !! PBC_KEY
             ∧ dd !! "idx" = Some (PyInt idx)
             ∧ dd !! "nf" = Some (PyInt (Z.of_nat nf))
             ∧ base.size dd = 6).
Proof.
  intros out_dir Hcheck Hnames Hempty.
  unfold check_structure in Hcheck.
  destruct (get_structure idx) as [s|e] eqn:Hs; [|discriminate Hcheck].
  assert (valid_structure s) as Hvalid by (by apply (check_structure_accepts idx)).
  destruct Hvalid as (an & pos & cell & pbc & n_frame & natom & Ha & Hp & Hc & Hb
                      & Hps & Hcs & _ & _ & _ & Hpt & Hct & _).
  set (frames := fun nf : nat =>
         (<["nf" := PyInt (Z.of_nat nf)]>
            (<["idx" := PyInt idx]>
               (<[PBC_KEY := PyArray pbc]>
                  (<[POSITIONS_KEY := PyArray (NdArray float32 [natom; 3] (row pos nf))]>
                     (<[CELL_KEY := PyArray (NdArray float32 [3; 3] (row cell nf))]>
                        (<[ATOMIC_NUMBERS_KEY := PyArray an]> ∅)))))
          : gmap string pyvalue)).
  assert (∀ nf, nf < n_frame →
            frame_dict s ∅ None None None false false false false idx nf
            = Ok (frames nf)) as Hframes.
  { intros nf Hnf. unfold frame_dict, dict_get. rewrite Ha, Hc, Hp, Hb.
    cbn [mbind result_bind].
    rewrite (getitem_int_nat cell n_frame [3; 3]) by done. cbn [mbind result_bind].
    rewrite (getitem_int_nat pos n_frame [natom; 3]) by done. cbn [mbind result_bind].
    by rewrite Hpt, Hct. }
  eexists s, pos, cell, n_frame, natom, _.
  split; [done|]. split; [done|]. split; [done|]. split; [done|]. split; [done|].
  intros Hbound.
  rewrite (write_lmdb_run pid idx outroot false false false false band_index_min
             w s ∅ None None None pos n_frame [natom; 3] frames)
    by (done || (fold out_dir; rewrite Hempty, map_size_empty; lia)).
  fold out_dir. split; [reflexivity|]. rewrite entries_of_insert, Hempty.
  pose proof (append_all_sequential
                (map (fun i => pickle_dumps (frames i)) (seq 0 n_frame))
                ∅ 0 (fun _ => pickle_dumps ∅)
                (sequential_store_empty _)) as Hseq.
  rewrite length_map, length_seq in Hseq. specialize (Hseq Hbound).
  destruct Hseq as (Hsize & Hval & _). split; [done|].
  intros nf Hnf. exists (frames nf). split.
  { rewrite (Hval nf) by lia. rewrite decide_False by lia.
    rewrite Nat.sub_0_r, list_lookup_fmap, lookup_seq_lt by lia. done. }
  assert (POSITIONS_KEY ≠ PBC_KEY ∧ CELL_KEY ≠ PBC_KEY ∧ CELL_KEY ≠ POSITIONS_KEY
          ∧ ATOMIC_NUMBERS_KEY ≠ PBC_KEY ∧ ATOMIC_NUMBERS_KEY ≠ POSITIONS_KEY
          ∧ ATOMIC_NUMBERS_KEY ≠ CELL_KEY)
    as (N1 & N2 & N3 & N4 & N5 & N6)
    by (repeat split; intros E; apply (inj key) in E; discriminate E).
  pose proof (Hnames POSITIONS) as [P1 P2].
  pose proof (Hnames CELL) as [C1 C2].
  pose proof (Hnames ATOMIC_NUMBERS) as [A1 A2].
  pose proof (Hnames PBC) as [B1 B2].
  unfold frames.
  split; [by rewrite !lookup_insert_ne, lookup_insert_eq by (by apply not_eq_sym)|].
  split; [by rewrite !lookup_insert_ne, lookup_insert_eq by (by apply not_eq_sym)|].
  split; [rewrite Ha; by rewrite !lookup_insert_ne, lookup_insert_eq
                        by (by apply not_eq_sym)|].
  split; [rewrite Hb; by rewrite !lookup_insert_ne, lookup_insert_eq
                        by (by apply not_eq_sym)|].
  split; [by rewrite lookup_insert_ne, lookup_insert_eq|].
  split; [by rewrite lookup_insert_eq|].
  rewrite !map_size_insert_None, map_size_empty; try done;
    rewrite ?lookup_insert_ne by (done || by apply not_eq_sym);
    apply lookup_empty.
Qed.
End Writer.

(** *** Runs on the example backend *)

#[local] Existing Instance default_keys.
#[local] Existing Instance structure_backend.

(** X16, witness: two bands at one k-point. *)
Lemma check_eigenvalue_witness :
  check_eigenvalue (fun idx => get_eigenvalue idx 0) 0 (Some one_kpoint) = Ok true.
Proof.
  apply (proj1 (check_eigenvalue_accepts (H:=default_keys)
                  (fun idx => get_eigenvalue idx 0) 0 one_kpoint)).
  exists (float_array [1; 1; 2] [0; 1]%Q), (float_array [1; 3] [0; 0; 0]%Q), 1, 1, 2.
  repeat split; evaluate.
Defined.

(** X14, witness: the second of three lines. *)
Lemma find_target_line_witness :
  find_target_line incar "NBANDS" = (["ISPIN = 1"], Ok (Some "NBANDS = 8")).
Proof.
  refine (proj1 (find_target_line_first_match "NBANDS" ["SYSTEM = Si"]
                   ["ISPIN = 1"] _) "NBANDS = 8" _ _).
  - apply Forall_cons_2; [|apply Forall_nil_2].
    split; [discriminate | evaluate].
  - discriminate.
  - evaluate.
Defined.

(** The store of one entry is a sequential store. *)
Lemma one_entry_sequential :
  sequential_store (entries_of one_entry_world "out/data.42.lmdb") 1
                   (fun _ => pickle_dumps ∅).
Proof.
  assert (entries_of one_entry_world "out/data.42.lmdb" = one_entry) as ->
    by evaluate.
  apply (sequential_store_append ∅ 0 (fun _ => pickle_dumps ∅)).
  - vm_compute. reflexivity.
  - apply sequential_store_empty.
Defined.

(** X17, witness: two frames written after one entry. *)
Lemma write_lmdb_appends_witness :
  let out_dir := path_join "out" ("data." +:+ pretty 42 +:+ ".lmdb") in
  ∃ w',
    write_lmdb 42 7 "out" false false false false 0 one_entry_world = (w', Ok tt)
    ∧ sequential_store (entries_of w' out_dir) (1 + 2)
        (fun i => if decide (i < 1) then pickle_dumps ∅
                  else pickle_dumps (two_frame_dicts (i - 1)))
    ∧ files w' = files one_entry_world
    ∧ ∀ env, env ≠ out_dir → entries_of w' env = entries_of one_entry_world env.
Proof.
  refine (write_lmdb_appends_in_order (H:=default_keys) (H0:=structure_backend)
            42 7 "out" false false false false 0
            one_entry_world two_frames ∅ None None None
            (float_array [2; 1; 3] [0; 0; 0; 1; 2; 3]%Q) 2 [1; 3]
            two_frame_dicts 1 (fun _ => pickle_dumps ∅) _ _ _ _ _ _ _ _);
    try evaluate.
  - intros [|[|nf]] Hnf; [evaluate | evaluate | lia].
  - exact one_entry_sequential.
  - vm_compute. discriminate.
Defined.

(** X18, witness: two frames written into a store whose only entry sits
    under key 1. *)
Lemma write_lmdb_collision_witness :
  let out_dir := path_join "out" ("data." +:+ pretty 42 +:+ ".lmdb") in
  let store := entries_of key_one_world out_dir in
  ∃ w',
    write_lmdb 42 7 "out" false false false false 0 key_one_world = (w', Ok tt)
    ∧ entries_of w' out_dir
      = <[key_bytes (base.size store) := pickle_dumps (two_frame_dicts 1)]> store
    ∧ base.size (entries_of w' out_dir) = base.size store.
Proof.
  refine (write_lmdb_overwrites_on_key_collision (H:=default_keys)
            (H0:=structure_backend) 42 7 "out" false false false false 0
            key_one_world two_frames ∅ None None None
            (float_array [2; 1; 3] [0; 0; 0; 1; 2; 3]%Q) 1 [1; 3]
            two_frame_dicts (pickle_dumps ∅) _ _ _ _ _ _ _ _);
    try evaluate.
  intros [|[|nf]] Hnf; [evaluate | evaluate | lia].
Defined.

(** X19, witness: the Hamiltonian asked of a backend without block
    parser. *)
Lemma write_lmdb_failure_witness :
  write_lmdb 42 7 "out" false true false false 0 empty_world
  = (World ({[ "out" ]} ∪ directories empty_world) (files empty_world)
       (lmdb_envs empty_world),
     Raise (NotImplementedError "VASP does not support block parsing yet.")).
Proof.
  exact (proj1 (write_lmdb_does_not_roll_back (H:=default_keys)
                  (H0:=structure_backend) 42 7 "out" false true false false 0
                  empty_world two_frames eq_refl)
           (NotImplementedError "VASP does not support block parsing yet.")
           eq_refl eq_refl).
Defined.

(** X20, witness: the two frames of the structure backend. *)
Lemma validated_structure_witness :
  let out_dir := path_join "out" ("data." +:+ pretty 42 +:+ ".lmdb") in
  ∃ s pos cell n_frame natom w',
    get_structure 7 = Ok s
    ∧ s !! POSITIONS_KEY = Some pos ∧ shape pos = [n_frame; natom; 3]
    ∧ s !! CELL_KEY = Some cell ∧ shape cell = [n_frame; 3; 3]
    ∧ ((N.of_nat n_frame <= 2 ^ 32)%N →
       write_lmdb 42 7 "out" false false false false 0 empty_world = (w', Ok tt)
       ∧ base.size (entries_of w' out_dir) = n_frame
       ∧ ∀ nf, nf < n_frame →
           ∃ dd, entries_of w' out_dir !! key_bytes nf = Some (pickle_dumps dd)
             ∧ dd !! POSITIONS_KEY
               = Some (PyArray (NdArray float32 [natom; 3] (row pos nf)))
             ∧ dd !! CELL_KEY
               = Some (PyArray (NdArray float32 [3; 3] (row cell nf)))
             ∧ dd !! ATOMIC_NUMBERS_KEY = PyArray <$> s !! ATOMIC_NUMBERS_KEY
             ∧ dd !! PBC_KEY = PyArray <$> s !! PBC_KEY
             ∧ dd !! "idx" = Some (PyInt 7)
             ∧ dd !! "nf" = Some (PyInt (Z.of_nat nf))
             ∧ base.size dd = 6).
Proof.
  refine (validated_structure_is_writable (H:=default_keys)
            (H0:=structure_backend) 42 7 "out" 0 empty_world _ _ _);
    try evaluate.
  intros []; split; discriminate.
Defined.

End parse_more.

(** ** The eigenvalues of the VASP backend *)

Module vasp_parser_facts.
Import np state_exn_facts np_facts parse parse_checks vasp_parser.
Import Examples MoreExamples.

Ltac evaluate := vm_compute; reflexivity.

Lemma lookup_flat_map_uniform {A} n k (f : nat → list A) e j :
  (∀ r, r < n → length (f r) = k) → e < n → j < k →
  flat_map f (seq 0 n) !! (e * k + j) = f e !! j.
Proof.
  intros Hlen He Hj. rewrite flat_map_concat_map.
  rewrite (lookup_concat_uniform k).
  - rewrite list_lookup_fmap, lookup_seq_lt by done. done.
  - apply Forall_fmap, Forall_forall. intros r Hr. apply elem_of_seq in Hr.
    cbn. apply Hlen. lia.
  - done.
Qed.

Lemma slice_start_le n start : slice_start n start ≤ n.
Proof. unfold slice_start. destruct (start <? 0)%Z eqn:E; lia. Qed.

Section VASP.
Context `{KeyRegistry}.
Context (raw_datas : list string) (path_exists : string → bool).
Context (read_EIGENVAL : string → result (ndarray * ndarray)).
Context (get_eigenvalue_idx : Z → result (gmap string ndarray)).

(** X21.  The eigenvalue record of the VASP backend meets the contract.
    When the folder of the calculation holds an EIGENVAL file that reads as
    k-points of shape [(n_kpt, 3)] and bands of shape [(1, n_kpt, n_band)],
    [get_eigenvalue] returns a record that [check_eigenvalue] accepts: the
    k-points and, for each k-point, the bands from the start of the slice
    [band_index_min:] on, cast to float32.  A [band_index_min] of [n_band]
    or more leaves no band and is accepted all the same. *)
Theorem vasp_eigenvalues_pass_the_check (idx band_index_min : Z) path kpts eigs
    n_kpt n_band :
  list_getitem raw_datas idx = Ok path →
  path_exists (path_join path "EIGENVAL") = true →
  read_EIGENVAL (path_join path "EIGENVAL") = Ok (kpts, eigs) →
  shape eigs = [1; n_kpt; n_band] →
  length (data eigs) = n_kpt * n_band →
  shape kpts = [n_kpt; 3] →
  let s := slice_start n_band band_index_min in
  ∃ es bands,
    get_eigenvalue raw_datas path_exists read_EIGENVAL idx band_index_min = Ok es
    ∧ check_eigenvalue get_eigenvalue_idx idx (Some es) = Ok true
    ∧ es !! ENERGY_EIGENVALUE_KEY = Some bands
    ∧ shape bands = [1; n_kpt; n_band - s]
    ∧ (∀ k b, k < n_kpt → b < n_band - s →
         getq (data bands) (k * (n_band - s) + b)
         = getq (data eigs) (k * n_band + (s + b)))
    ∧ es !! KPOINT_KEY = Some (astype kpts float32)
    ∧ ((Z.of_nat n_band <= band_index_min)%Z → shape bands = [1; n_kpt; 0])
    ∧ ((0 <= band_index_min <= Z.of_nat n_band)%Z → s = Z.to_nat band_index_min).
Proof.
  intros Hpath Hex Hread Hes Hel Hks s.
  assert (ENERGY_EIGENVALUE_KEY ≠ KPOINT_KEY) as Hne
    by (intros E; apply (inj key) in E; discriminate E).
  unfold get_eigenvalue. rewrite Hpath. cbn [mbind result_bind].
  rewrite Hex. cbn [assert_ mbind result_bind]. rewrite Hread.
  cbn [mbind result_bind]. unfold slice_third_from. rewrite Hes.
  cbn [mbind result_bind prod_shape foldr]. fold s.
  eexists _, _. split; [reflexivity|].
  split; [|split; [rewrite lookup_insert_ne by (by apply not_eq_sym);
                    rewrite lookup_insert_eq; reflexivity|]].
  - unfold check_eigenvalue, j_must_have. cbn [mbind result_bind].
    rewrite (lookup_insert_eq _ KPOINT_KEY).
    rewrite (lookup_insert_ne _ KPOINT_KEY ENERGY_EIGENVALUE_KEY)
      by (by apply not_eq_sym).
    rewrite lookup_insert_eq.
    cbn [mbind result_bind astype shape dtype_of length nth]. rewrite Hks.
    cbn [length nth]. rewrite !bool_decide_true by done. done.
  - split; [done|]. split; [|split; [by rewrite lookup_insert_eq|split]].
    + intros k b Hk Hb. cbn [astype data]. apply getq_lookup.
      pose proof (slice_start_le n_band band_index_min) as Hs. fold s in Hs.
      rewrite !Nat.mul_1_r, Nat.mul_1_l.
      rewrite (lookup_flat_map_uniform n_kpt (n_band - s)); [| |done..].
      * rewrite lookup_drop.
        unfold block. rewrite lookup_take_lt by lia. rewrite lookup_drop.
        apply lookup_getq. rewrite Hel. nia.
      * intros r Hr. rewrite length_drop, length_block; [lia|].
        rewrite Hel. nia.
    + intros Hb. cbn [astype shape]. f_equal. f_equal. f_equal.
      unfold s, slice_start. destruct (band_index_min <? 0)%Z eqn:E; lia.
    + intros Hb. unfold s, slice_start.
      destruct (band_index_min <? 0)%Z eqn:E; lia.
Qed.
End VASP.

#[local] Existing Instance default_keys.

(** X21, witness: two bands at one k-point, read from band 1 on. *)
Lemma vasp_eigenvalues_witness :
  ∃ es bands,
    get_eigenvalue ["calc"] (fun _ => true)
      (fun _ => Ok (raw_kpts, raw_bands)) 0 1 = Ok es
    ∧ check_eigenvalue (fun idx => get_eigenvalue ["calc"] (fun _ => true)
                        (fun _ => Ok (raw_kpts, raw_bands)) idx 0) 0 (Some es) = Ok true
    ∧ es !! ENERGY_EIGENVALUE_KEY = Some bands
    ∧ shape bands = [1; 1; 2 - slice_start 2 1]
    ∧ (∀ k b, k < 1 → b < 2 - slice_start 2 1 →
         getq (data bands) (k * (2 - slice_start 2 1) + b)
         = getq (data raw_bands) (k * 2 + (slice_start 2 1 + b)))
    ∧ es !! KPOINT_KEY = Some (astype raw_kpts float32)
    ∧ ((Z.of_nat 2 <= 1)%Z → shape bands = [1; 1; 0])
    ∧ ((0 <= 1 <= Z.of_nat 2)%Z → slice_start 2 1 = Z.to_nat 1).
Proof.
  refine (vasp_eigenvalues_pass_the_check (H:=default_keys) ["calc"]
            (fun _ => true) (fun _ => Ok (raw_kpts, raw_bands))
            (fun idx => get_eigenvalue ["calc"] (fun _ => true)
                        (fun _ => Ok (raw_kpts, raw_bands)) idx 0)
            0 1 "calc" raw_kpts raw_bands 1 2
            _ _ _ _ _ _); evaluate.
Defined.

End vasp_parser_facts.
